(** * VDDT: utility, configuration, cookie and TUI-index properties

    A shallow embedding of the parts of the VDDT downloader front-end that
    its specification makes claims about, together with the proofs of those
    claims.  Python [str] values are modelled as lists of Unicode code
    points, Python dictionaries as finite maps or association lists, the file
    system as a finite map from paths to contents, and the external download
    engine as an oracle whose calls are recorded in a trace. *)

From Stdlib Require Import ZArith NArith QArith Qround Lia.
From Stdlib Require Import Strings.String Strings.Ascii.
From Stdlib Require Import Numbers.DecimalString Numbers.DecimalN.
From stdpp Require Import base tactics option list gmap.

Set Warnings "-register-all".
Local Open Scope N_scope.

(** ** Python strings *)

Module PyStr.

(** A character is its code point; a [str] is a sequence of them. *)
Abbreviation char := N (only parsing).
Abbreviation str := (list N) (only parsing).

Definition chr (a : ascii) : char := N_of_ascii a.

(** The code points of an ASCII literal. *)
Definition lit (s : string) : str := List.map chr (list_ascii_of_string s).

Definition char_in (cs : str) (c : char) : bool :=
  List.existsb (N.eqb c) cs.

(** [c in s] for a one-character [c]. *)
Definition contains (c : char) (s : str) : bool := char_in s c.

Fixpoint str_eqb (a b : str) : bool :=
  match a, b with
  | [], [] => true
  | x :: a', y :: b' => N.eqb x y && str_eqb a' b'
  | _, _ => false
  end.

(** [s.startswith(p)] *)
Fixpoint startswith (p s : str) : bool :=
  match p, s with
  | [], _ => true
  | x :: p', y :: s' => N.eqb x y && startswith p' s'
  | _ :: _, [] => false
  end.

(** The characters [str.isspace] accepts, which are the ones [strip()],
    [lstrip()] and [rstrip()] remove when called without an argument. *)
Definition isspace (c : char) : bool :=
  ((9 <=? c) && (c <=? 13)) || ((28 <=? c) && (c <=? 32))
  || (c =? 133) || (c =? 160) || (c =? 5760)
  || ((8192 <=? c) && (c <=? 8202))
  || (c =? 8232) || (c =? 8233) || (c =? 8239) || (c =? 8287)
  || (c =? 12288).

Fixpoint lstrip_by (p : char -> bool) (s : str) : str :=
  match s with
  | [] => []
  | c :: s' => if p c then lstrip_by p s' else s
  end.

Definition rstrip_by (p : char -> bool) (s : str) : str :=
  reverse (lstrip_by p (reverse s)).

Definition strip_by (p : char -> bool) (s : str) : str :=
  rstrip_by p (lstrip_by p s).

(** [s.strip(cs)], [s.strip()], [s.rstrip()] *)
Definition strip_chars (cs : str) (s : str) : str := strip_by (char_in cs) s.
Definition strip (s : str) : str := strip_by isspace s.
Definition rstrip (s : str) : str := rstrip_by isspace s.

(** [s[:n]] for an integer [n] of either sign. *)
Definition slice_to (n : Z) (s : str) : str :=
  if (0 <=? n)%Z then take (Z.to_nat n) s
  else take (Z.to_nat (Z.of_nat (length s) + n)) s.

(** [s[n:]] for a non-negative [n]. *)
Definition slice_from (n : nat) (s : str) : str := drop n s.

(** [l[-n:]] for a positive [n]. *)
Definition last_n {A} (n : nat) (l : list A) : list A :=
  drop (length l - n) l.

(** [s.split(sep)] for a one-character separator: the pieces between the
    occurrences of [sep]; never the empty list. *)
Fixpoint split (sep : char) (s : str) : list str :=
  match s with
  | [] => [[]]
  | c :: s' =>
      if N.eqb c sep then [] :: split sep s'
      else match split sep s' with
           | [] => [[c]]
           | w :: ws => (c :: w) :: ws
           end
  end.

(** [s.split(sep, 1)] when [sep] occurs in [s]: the text before and after
    its first occurrence; [None] when it does not occur. *)
Fixpoint split_once (sep : char) (s : str) : option (str * str) :=
  match s with
  | [] => None
  | c :: s' =>
      if N.eqb c sep then Some ([], s')
      else match split_once sep s' with
           | Some (a, b) => Some (c :: a, b)
           | None => None
           end
  end.

(** [sep.join(parts)] *)
Fixpoint join (sep : str) (parts : list str) : str :=
  match parts with
  | [] => []
  | [w] => w
  | w :: ws => w ++ sep ++ join sep ws
  end.

(** [s.replace(a, b)] for one-character [a] and [b]. *)
Definition replace_char (a b : char) (s : str) : str :=
  List.map (fun c => if N.eqb c a then b else c) s.

(** [re.sub('[cs]', repl, s)] for a character class [cs]: each character of
    the class is replaced by [repl] (a replacement without backslashes, so
    that it is taken literally). *)
Definition re_sub_class (cls : char -> bool) (repl : str) (s : str) : str :=
  List.concat (List.map (fun c => if cls c then repl else [c]) s).

(** Decimal rendering of a natural number, as [str(n)] and [f"{n}"] give. *)
Definition str_of_N (n : N) : str :=
  lit (NilZero.string_of_uint (N.to_uint n)).

End PyStr.

Import PyStr.

(** ** Python exceptions and results *)

Module Py.

(** The exception classes that occur in the modelled code.  The first two
    derive from [BaseException] only; all the others are subclasses of
    [Exception]. *)
Inductive exc_class :=
  | KeyboardInterrupt
  | SystemExit
  | OverflowError
  | ZeroDivisionError
  | IndexError
  | AttributeError
  | TypeError
  | ValueError
  | IOError
  | UnicodeDecodeError
  | YtDownloadError          (* yt_dlp.utils.DownloadError *)
  | YtExtractorError         (* yt_dlp.utils.ExtractorError *)
  | YtPostProcessingError    (* yt_dlp.utils.PostProcessingError *)
  | OtherException.          (* any further subclass of Exception *)

Record exc := Exc { exc_cls : exc_class; exc_msg : str }.

(** [isinstance(e, Exception)] *)
Definition is_Exception (e : exc) : bool :=
  match exc_cls e with
  | KeyboardInterrupt | SystemExit => false
  | _ => true
  end.

(** A call either returns a value or raises. *)
Inductive result (A : Type) :=
  | Ok (a : A)
  | Raise (e : exc).
Arguments Ok {A} a.
Arguments Raise {A} e.

Definition bind {A B} (r : result A) (k : A -> result B) : result B :=
  match r with
  | Ok a => k a
  | Raise e => Raise e
  end.

End Py.

Import Py.

(** ** [os.path] on POSIX

    The interpreter's library functions that the modelled code calls. *)

Module PosixPath.

Definition sep : char := 47.     (* "/" *)
Definition extsep : char := 46.  (* "." *)

(** [s.endswith(c)] for a one-character [c]. *)
Definition endswith_char (c : char) (s : str) : bool :=
  match last s with
  | Some x => N.eqb x c
  | None => false
  end.

(** [os.path.join(a, b)] *)
Definition join (a b : str) : str :=
  if startswith [sep] b then b
  else match a with
       | [] => b
       | _ => if endswith_char sep a then a ++ b else a ++ [sep] ++ b
       end.

(** [s.rfind(c)]: the last index of [c], or -1. *)
Fixpoint rfind_from (c : char) (s : str) (i acc : Z) : Z :=
  match s with
  | [] => acc
  | x :: s' => rfind_from c s' (i + 1)%Z (if N.eqb x c then i else acc)
  end.
Definition rfind (c : char) (s : str) : Z := rfind_from c s 0%Z (-1)%Z.

(** [os.path.splitext(p)]: the extension starts at the last dot of the last
    component, unless that component has only leading dots before it. *)
Definition splitext (p : str) : str * str :=
  let sepIndex := rfind sep p in
  let dotIndex := rfind extsep p in
  if (sepIndex <? dotIndex)%Z then
    let between :=
      take (Z.to_nat (dotIndex - (sepIndex + 1))) (drop (Z.to_nat (sepIndex + 1)) p) in
    if List.existsb (fun c => negb (N.eqb c extsep)) between
    then (take (Z.to_nat dotIndex) p, drop (Z.to_nat dotIndex) p)
    else (p, [])
  else (p, []).

End PosixPath.

(** ** [utils.py], DEBUG variant *)

Module Utils.

(** [ILLEGAL_FILENAME_CHARS]: a character class written, in a raw string,
    as backslash, slash, colon, asterisk, question mark, double quote, the
    two angle brackets and the vertical bar.  Inside the class the pair
    backslash-slash is an escaped slash, so the class holds eight
    characters and the backslash is not one of them (code point 34 is the
    double quote). *)
Definition ILLEGAL_FILENAME_CHARS (c : char) : bool :=
  char_in (lit "/:*?" ++ [34] ++ lit "<>|") c.

(** [ILLEGAL_CONTROL_CHARS = r'[\x00-\x1f\x7f]'] *)
Definition ILLEGAL_CONTROL_CHARS (c : char) : bool :=
  (c <=? 31) || (c =? 127).

Definition unnamed : str := lit "unnamed".

Definition sanitize_filename_with
    (name : str) (replacement : str) (max_length : Z) : str :=
  match name with
  | [] => unnamed
  | _ =>
      let name := re_sub_class ILLEGAL_FILENAME_CHARS replacement name in
      let name := re_sub_class ILLEGAL_CONTROL_CHARS [] name in
      let name := strip_chars (lit ". ") name in
      let name :=
        if (max_length <? Z.of_nat (length name))%Z
        then rstrip (slice_to max_length name)
        else name in
      match name with
      | [] => unnamed
      | _ => name
      end
  end.

(** The call with the default arguments [replacement="_"],
    [max_length=200]. *)
Definition sanitize_filename (name : str) : str :=
  sanitize_filename_with name (lit "_") 200.

(** *** [get_unique_filepath]

    [exists_] is [os.path.exists] at the time of the call.  The [while]
    loop is unrolled at most [fuel] times; [None] means the fuel ran out. *)
Fixpoint unique_loop (exists_ : str -> bool) (directory name ext : str)
    (fuel : nat) (filepath : str) (counter : N) : option str :=
  if exists_ filepath then
    match fuel with
    | O => None
    | S fuel' =>
        let new_name := name ++ lit "_" ++ str_of_N counter ++ ext in
        let filepath := PosixPath.join directory new_name in
        unique_loop exists_ directory name ext fuel' filepath (counter + 1)
    end
  else Some filepath.

Definition get_unique_filepath (exists_ : str -> bool) (fuel : nat)
    (directory filename : str) : option str :=
  let filepath := PosixPath.join directory filename in
  if negb (exists_ filepath) then Some filepath
  else
    let '(name, ext) := PosixPath.splitext filename in
    unique_loop exists_ directory name ext fuel filepath 1.

(** *** [format_filesize] *)

(** [float(n)] for an integer [n]: the nearest binary64 value, ties to
    even, as an exact rational; [OverflowError] when it is out of range. *)
Definition float_of_int (n : Z) : result Q :=
  let a := Z.abs n in
  let bits := if (a =? 0)%Z then 0%Z else (Z.log2 a + 1)%Z in
  if (bits <=? 53)%Z then Ok (inject_Z n)
  else
    let sh := (bits - 53)%Z in
    let q := Z.shiftr a sh in
    let r := Z.land a (Z.ones sh) in
    let half := Z.shiftl 1 (sh - 1) in
    let q' :=
      if (half <? r)%Z || ((r =? half)%Z && Z.odd q) then (q + 1)%Z else q in
    let v := Z.shiftl q' sh in
    if (Z.shiftl 1 1024 <=? v)%Z
    then Raise (Exc OverflowError (lit "int too large to convert to float"))
    else Ok (inject_Z (Z.sgn n * v)).

(** The number of hundredths nearest to a rational, ties to even. *)
Definition hundredths (x : Q) : Z :=
  let y := (x * 100)%Q in
  let fl := Qfloor y in
  match ((y - inject_Z fl) ?= 1 # 2)%Q with
  | Lt => fl
  | Gt => (fl + 1)%Z
  | Eq => if Z.even fl then fl else (fl + 1)%Z
  end.

(** Two decimal digits, zero padded. *)
Definition two_digits (n : Z) : str :=
  str_of_N (Z.to_N (n / 10)) ++ str_of_N (Z.to_N (n mod 10)).

(** The rendering of a count of hundredths with two decimals. *)
Definition render_hundredths (h : Z) : str :=
  str_of_N (Z.to_N (h / 100)) ++ lit "." ++ two_digits (h mod 100).

(** [f"{x:.2f}"] for a non-negative float [x] given by its exact value. *)
Definition format_2f (x : Q) : str := render_hundredths (hundredths x).

(** The text "未知". *)
Definition unknown : str := [26410; 30693].

Definition units : list str :=
  [lit "B"; lit "KB"; lit "MB"; lit "GB"; lit "TB"].

(** The [for unit in units[:-1]] loop and the statement after it;
    [last_unit] is [units[-1]]. *)
Fixpoint format_loop (us : list str) (last_unit : str) (size : Q) : str :=
  match us with
  | [] => format_2f size ++ lit " " ++ last_unit
  | unit :: us' =>
      if negb (Qle_bool 1024 size)
      then format_2f size ++ lit " " ++ unit
      else format_loop us' last_unit (size / 1024)%Q
  end.

Definition format_filesize (size_bytes : option Z) : result str :=
  match size_bytes with
  | None => Ok unknown
  | Some n =>
      if (n <? 0)%Z then Ok unknown
      else
        bind (float_of_int n) (fun size =>
          Ok (format_loop (removelast units) (List.last units []) size))
  end.

(** *** [extract_domain]

    [netloc_of url] is [urllib.parse.urlparse(url).netloc], or [None] when
    the parser raises. *)
Definition special_second_level : list str :=
  [lit "co"; lit "com"; lit "org"; lit "net"; lit "edu"; lit "gov"].

Definition str_in (l : list str) (s : str) : bool :=
  List.existsb (str_eqb s) l.

Definition extract_domain (netloc_of : str -> option str) (url : str)
    : option str :=
  match netloc_of url with
  | None => None
  | Some domain =>
      let domain :=
        if contains 58 domain then List.hd [] (split 58 domain) else domain in
      let domain :=
        if startswith (lit "www.") domain then slice_from 4 domain
        else domain in
      let parts := split 46 domain in
      let domain :=
        if (2 <? length parts)%nat then
          if (3 <=? length parts)%nat
             && str_in special_second_level
                  (List.nth (length parts - 2) parts [])
          then join (lit ".") (last_n 3 parts)
          else join (lit ".") (last_n 2 parts)
        else domain in
      match domain with
      | [] => None
      | _ => Some domain
      end
  end.

(** *** [format_duration]

    [f"{n:02d}"]: the decimal digits of [n], with a zero in front of a
    single digit; the sign of a negative number counts for the width. *)
Definition format_02d (n : Z) : str :=
  if (n <? 0)%Z then lit "-" ++ str_of_N (Z.to_N (- n))
  else if (n <? 10)%Z then lit "0" ++ str_of_N (Z.to_N n)
  else str_of_N (Z.to_N n).

Definition format_duration (seconds : Z) : str :=
  if (seconds <? 0)%Z then lit "00:00"
  else
    let hours := (seconds / 3600)%Z in
    let minutes := ((seconds mod 3600) / 60)%Z in
    let secs := (seconds mod 60)%Z in
    if (0 <? hours)%Z then
      format_02d hours ++ lit ":" ++ format_02d minutes ++ lit ":"
      ++ format_02d secs
    else format_02d minutes ++ lit ":" ++ format_02d secs.

(** *** [select_from_list]

    What one call of [input] does: it returns a line, or the input has
    ended, or the user interrupts. *)
Inductive input_event :=
  | Line (s : str)
  | EOF
  | Interrupt.

(** The [while True] loop, on the calls of [input] in order (after the
    last of them the input has ended); [py_int] is [int], [None] when it
    raises [ValueError]; [n] is [len(options)]. *)
Fixpoint select_loop (py_int : str -> option Z) (n : Z) (allow_cancel : bool)
    (inputs : list input_event) : result (option Z) :=
  match inputs with
  | [] | EOF :: _ => Ok None
  | Interrupt :: _ => Raise (Exc KeyboardInterrupt [])
  | Line s :: rest =>
      match py_int (strip s) with
      | None => select_loop py_int n allow_cancel rest
      | Some idx =>
          if (idx =? 0)%Z && allow_cancel then Ok None
          else if (1 <=? idx)%Z && (idx <=? n)%Z then Ok (Some (idx - 1)%Z)
          else select_loop py_int n allow_cancel rest
      end
  end.

Definition select_from_list {A} (py_int : str -> option Z) (options : list A)
    (allow_cancel : bool) (inputs : list input_event) : result (option Z) :=
  match options with
  | [] => Ok None
  | _ => select_loop py_int (Z.of_nat (length options)) allow_cancel inputs
  end.

End Utils.

(** ** [utils.py], VDDT-beta variant *)

Module BetaUtils.

Definition sanitize_filename (name : str) : str :=
  re_sub_class Utils.ILLEGAL_FILENAME_CHARS (lit "_") name.

End BetaUtils.


(** ** [config.py] *)

Module Config.

(** The values a configuration field or an option dictionary can hold: what
    [json.load] produces, and opaque objects such as callables. *)
Inductive value :=
  | VNone
  | VBool (b : bool)
  | VInt (z : Z)
  | VStr (s : str)
  | VList (l : list value)
  | VDict (d : list (str * value))
  | VObject (tag : str).

(** A dictionary with string keys, in insertion order; its keys are
    pairwise distinct. *)
Definition dict := list (str * value).

(** [d.get(k)] *)
Fixpoint dict_get (d : dict) (k : str) : option value :=
  match d with
  | [] => None
  | (k', v) :: d' => if str_eqb k' k then Some v else dict_get d' k
  end.

(** [k in d] *)
Definition dict_has (d : dict) (k : str) : bool :=
  match dict_get d k with Some _ => true | None => false end.

(** [d[k] = v] *)
Fixpoint dict_set (d : dict) (k : str) (v : value) : dict :=
  match d with
  | [] => [(k, v)]
  | (k', v') :: d' =>
      if str_eqb k' k then (k', v) :: d' else (k', v') :: dict_set d' k v
  end.

(** [d.update(e)] *)
Definition dict_update (d e : dict) : dict :=
  fold_left (fun acc kv => dict_set acc (fst kv) (snd kv)) e d.

(** [bool(v)] *)
Definition truthy (v : value) : bool :=
  match v with
  | VNone => false
  | VBool b => b
  | VInt z => negb (z =? 0)%Z
  | VStr s => match s with [] => false | _ => true end
  | VList l => match l with [] => false | _ => true end
  | VDict d => match d with [] => false | _ => true end
  | VObject _ => true
  end.

(** The dataclasses.  [from_dict] assigns whatever value the dictionary
    holds, so a field is a [value] whatever its annotation says. *)
Record DownloadConfig := {
  output_dir : value;
  default_mode : value;
  concurrent_downloads : value;
  max_retries : value;
  filename_template : value;
  download_subtitles : value;
  subtitle_languages : value;
  embed_thumbnail : value;
  download_danmaku : value
}.

Record TranscodeConfig := {
  default_preset : value;
  video_codec : value;
  audio_codec : value;
  crf : value;
  preset : value;
  audio_bitrate : value
}.

Record NetworkConfig := {
  proxy : value;
  timeout : value;
  user_agent : value
}.

Record UIConfig := {
  progress_bar_length : value;
  verbose : value;
  color_output : value
}.

Record VDDTConfig := {
  download : DownloadConfig;
  transcode : TranscodeConfig;
  network : NetworkConfig;
  ui : UIConfig;
  version : value
}.

(** The field defaults. *)
Definition DownloadConfig_default : DownloadConfig := {|
  output_dir := VStr (lit "VDDT_Downloads");
  default_mode := VInt 1;
  concurrent_downloads := VInt 5;
  max_retries := VInt 10;
  filename_template :=
    VStr (lit "%(upload_date)s_%(uploader)s_%(title)s.%(ext)s");
  download_subtitles := VBool false;
  subtitle_languages :=
    VList [VStr (lit "zh-Hans"); VStr (lit "zh-CN"); VStr (lit "en")];
  embed_thumbnail := VBool false;
  download_danmaku := VBool false
|}.

Definition TranscodeConfig_default : TranscodeConfig := {|
  default_preset := VInt 1;
  video_codec := VStr (lit "libx264");
  audio_codec := VStr (lit "aac");
  crf := VInt 23;
  preset := VStr (lit "medium");
  audio_bitrate := VStr (lit "192k")
|}.

Definition NetworkConfig_default : NetworkConfig := {|
  proxy := VNone;
  timeout := VInt 30;
  user_agent :=
    VStr (lit "Mozilla/5.0 (Windows NT 10.0; Win64; x64) AppleWebKit/537.36 (KHTML, like Gecko) Chrome/120.0.0.0 Safari/537.36")
|}.

Definition UIConfig_default : UIConfig := {|
  progress_bar_length := VInt 40;
  verbose := VBool false;
  color_output := VBool true
|}.

Definition VDDTConfig_default : VDDTConfig := {|
  download := DownloadConfig_default;
  transcode := TranscodeConfig_default;
  network := NetworkConfig_default;
  ui := UIConfig_default;
  version := VStr (lit "2.1.0")
|}.

(** [asdict(obj)]: the declared fields, in declaration order. *)
Definition asdict_download (c : DownloadConfig) : dict :=
  [ (lit "output_dir", output_dir c);
    (lit "default_mode", default_mode c);
    (lit "concurrent_downloads", concurrent_downloads c);
    (lit "max_retries", max_retries c);
    (lit "filename_template", filename_template c);
    (lit "download_subtitles", download_subtitles c);
    (lit "subtitle_languages", subtitle_languages c);
    (lit "embed_thumbnail", embed_thumbnail c);
    (lit "download_danmaku", download_danmaku c) ].

Definition asdict_transcode (c : TranscodeConfig) : dict :=
  [ (lit "default_preset", default_preset c);
    (lit "video_codec", video_codec c);
    (lit "audio_codec", audio_codec c);
    (lit "crf", crf c);
    (lit "preset", preset c);
    (lit "audio_bitrate", audio_bitrate c) ].

Definition asdict_network (c : NetworkConfig) : dict :=
  [ (lit "proxy", proxy c);
    (lit "timeout", timeout c);
    (lit "user_agent", user_agent c) ].

Definition asdict_ui (c : UIConfig) : dict :=
  [ (lit "progress_bar_length", progress_bar_length c);
    (lit "verbose", verbose c);
    (lit "color_output", color_output c) ].

(** [setattr(obj, key, value)] guarded by [hasattr(obj, key)], for a key
    that names a declared field; any other key leaves the object as it is
    (keys naming inherited special attributes are outside the model). *)
Definition setattr_download (c : DownloadConfig) (key : str) (v : value)
    : DownloadConfig :=
  if str_eqb key (lit "output_dir") then
    {| output_dir := v; default_mode := default_mode c;
       concurrent_downloads := concurrent_downloads c;
       max_retries := max_retries c;
       filename_template := filename_template c;
       download_subtitles := download_subtitles c;
       subtitle_languages := subtitle_languages c;
       embed_thumbnail := embed_thumbnail c;
       download_danmaku := download_danmaku c |}
  else if str_eqb key (lit "default_mode") then
    {| output_dir := output_dir c; default_mode := v;
       concurrent_downloads := concurrent_downloads c;
       max_retries := max_retries c;
       filename_template := filename_template c;
       download_subtitles := download_subtitles c;
       subtitle_languages := subtitle_languages c;
       embed_thumbnail := embed_thumbnail c;
       download_danmaku := download_danmaku c |}
  else if str_eqb key (lit "concurrent_downloads") then
    {| output_dir := output_dir c; default_mode := default_mode c;
       concurrent_downloads := v;
       max_retries := max_retries c;
       filename_template := filename_template c;
       download_subtitles := download_subtitles c;
       subtitle_languages := subtitle_languages c;
       embed_thumbnail := embed_thumbnail c;
       download_danmaku := download_danmaku c |}
  else if str_eqb key (lit "max_retries") then
    {| output_dir := output_dir c; default_mode := default_mode c;
       concurrent_downloads := concurrent_downloads c;
       max_retries := v;
       filename_template := filename_template c;
       download_subtitles := download_subtitles c;
       subtitle_languages := subtitle_languages c;
       embed_thumbnail := embed_thumbnail c;
       download_danmaku := download_danmaku c |}
  else if str_eqb key (lit "filename_template") then
    {| output_dir := output_dir c; default_mode := default_mode c;
       concurrent_downloads := concurrent_downloads c;
       max_retries := max_retries c;
       filename_template := v;
       download_subtitles := download_subtitles c;
       subtitle_languages := subtitle_languages c;
       embed_thumbnail := embed_thumbnail c;
       download_danmaku := download_danmaku c |}
  else if str_eqb key (lit "download_subtitles") then
    {| output_dir := output_dir c; default_mode := default_mode c;
       concurrent_downloads := concurrent_downloads c;
       max_retries := max_retries c;
       filename_template := filename_template c;
       download_subtitles := v;
       subtitle_languages := subtitle_languages c;
       embed_thumbnail := embed_thumbnail c;
       download_danmaku := download_danmaku c |}
  else if str_eqb key (lit "subtitle_languages") then
    {| output_dir := output_dir c; default_mode := default_mode c;
       concurrent_downloads := concurrent_downloads c;
       max_retries := max_retries c;
       filename_template := filename_template c;
       download_subtitles := download_subtitles c;
       subtitle_languages := v;
       embed_thumbnail := embed_thumbnail c;
       download_danmaku := download_danmaku c |}
  else if str_eqb key (lit "embed_thumbnail") then
    {| output_dir := output_dir c; default_mode := default_mode c;
       concurrent_downloads := concurrent_downloads c;
       max_retries := max_retries c;
       filename_template := filename_template c;
       download_subtitles := download_subtitles c;
       subtitle_languages := subtitle_languages c;
       embed_thumbnail := v;
       download_danmaku := download_danmaku c |}
  else if str_eqb key (lit "download_danmaku") then
    {| output_dir := output_dir c; default_mode := default_mode c;
       concurrent_downloads := concurrent_downloads c;
       max_retries := max_retries c;
       filename_template := filename_template c;
       download_subtitles := download_subtitles c;
       subtitle_languages := subtitle_languages c;
       embed_thumbnail := embed_thumbnail c;
       download_danmaku := v |}
  else c.

Definition setattr_transcode (c : TranscodeConfig) (key : str) (v : value)
    : TranscodeConfig :=
  if str_eqb key (lit "default_preset") then
    {| default_preset := v; video_codec := video_codec c;
       audio_codec := audio_codec c; crf := crf c; preset := preset c;
       audio_bitrate := audio_bitrate c |}
  else if str_eqb key (lit "video_codec") then
    {| default_preset := default_preset c; video_codec := v;
       audio_codec := audio_codec c; crf := crf c; preset := preset c;
       audio_bitrate := audio_bitrate c |}
  else if str_eqb key (lit "audio_codec") then
    {| default_preset := default_preset c; video_codec := video_codec c;
       audio_codec := v; crf := crf c; preset := preset c;
       audio_bitrate := audio_bitrate c |}
  else if str_eqb key (lit "crf") then
    {| default_preset := default_preset c; video_codec := video_codec c;
       audio_codec := audio_codec c; crf := v; preset := preset c;
       audio_bitrate := audio_bitrate c |}
  else if str_eqb key (lit "preset") then
    {| default_preset := default_preset c; video_codec := video_codec c;
       audio_codec := audio_codec c; crf := crf c; preset := v;
       audio_bitrate := audio_bitrate c |}
  else if str_eqb key (lit "audio_bitrate") then
    {| default_preset := default_preset c; video_codec := video_codec c;
       audio_codec := audio_codec c; crf := crf c; preset := preset c;
       audio_bitrate := v |}
  else c.

Definition setattr_network (c : NetworkConfig) (key : str) (v : value)
    : NetworkConfig :=
  if str_eqb key (lit "proxy") then
    {| proxy := v; timeout := timeout c; user_agent := user_agent c |}
  else if str_eqb key (lit "timeout") then
    {| proxy := proxy c; timeout := v; user_agent := user_agent c |}
  else if str_eqb key (lit "user_agent") then
    {| proxy := proxy c; timeout := timeout c; user_agent := v |}
  else c.

Definition setattr_ui (c : UIConfig) (key : str) (v : value) : UIConfig :=
  if str_eqb key (lit "progress_bar_length") then
    {| progress_bar_length := v; verbose := verbose c;
       color_output := color_output c |}
  else if str_eqb key (lit "verbose") then
    {| progress_bar_length := progress_bar_length c; verbose := v;
       color_output := color_output c |}
  else if str_eqb key (lit "color_output") then
    {| progress_bar_length := progress_bar_length c; verbose := verbose c;
       color_output := v |}
  else c.

(** [VDDTConfig.to_dict] *)
Definition to_dict (c : VDDTConfig) : dict :=
  [ (lit "download", VDict (asdict_download (download c)));
    (lit "transcode", VDict (asdict_transcode (transcode c)));
    (lit "network", VDict (asdict_network (network c)));
    (lit "ui", VDict (asdict_ui (ui c)));
    (lit "version", version c) ].

(** One [if name in data: for key, value in data[name].items(): ...] block
    of [from_dict]; a section that is not a dictionary has no [items]. *)
Definition load_section {A} (setattr : A -> str -> value -> A)
    (data : dict) (name : str) (obj : A) : result A :=
  match dict_get data name with
  | None => Ok obj
  | Some (VDict items) =>
      Ok (fold_left (fun o kv => setattr o (fst kv) (snd kv)) items obj)
  | Some _ =>
      Raise (Exc AttributeError (lit "object has no attribute 'items'"))
  end.

(** [VDDTConfig.from_dict] *)
Definition from_dict (data : dict) : result VDDTConfig :=
  let config := VDDTConfig_default in
  bind (load_section setattr_download data (lit "download") (download config))
    (fun d =>
  bind (load_section setattr_transcode data (lit "transcode") (transcode config))
    (fun t =>
  bind (load_section setattr_network data (lit "network") (network config))
    (fun n =>
  bind (load_section setattr_ui data (lit "ui") (ui config))
    (fun u =>
  Ok {| download := d; transcode := t; network := n; ui := u;
        version := version config |})))).

End Config.

(** ** The file system *)

Module FS.

(** What a path names: a directory, or a file with what reading it as text
    returns and whether it may be opened for writing. *)
Inductive node :=
  | Dir
  | File (content : result str) (writable : bool).

Record t := { cwd : str; nodes : gmap str node }.

(** [os.path.exists], [os.path.isdir] *)
Definition exists_ (fs : t) (p : str) : bool :=
  match nodes fs !! p with Some _ => true | None => false end.

Definition isdir (fs : t) (p : str) : bool :=
  match nodes fs !! p with Some Dir => true | _ => false end.

(** [open(p, 'r', encoding='utf-8').read()] *)
Definition read_text (fs : t) (p : str) : result str :=
  match nodes fs !! p with
  | Some (File content _) => content
  | Some Dir => Raise (Exc IOError (lit "Is a directory"))
  | None => Raise (Exc IOError (lit "No such file or directory"))
  end.

(** [open(p, 'w', encoding='utf-8').write(text)] *)
Definition write_text (fs : t) (p : str) (text : str) : result t :=
  match nodes fs !! p with
  | Some (File _ true) | None =>
      Ok {| cwd := cwd fs; nodes := <[p := File (Ok text) true]> (nodes fs) |}
  | Some (File _ false) => Raise (Exc IOError (lit "Permission denied"))
  | Some Dir => Raise (Exc IOError (lit "Is a directory"))
  end.

End FS.

(** ** [downloader_core.py] *)

Module DownloaderCore.

Import Config.

(** The dataclasses [FormatInfo] and [VideoInfo]. *)
Record FormatInfo := {
  fi_index : Z;
  fi_format_id : value;
  fi_extension : value;
  fi_resolution : value;
  fi_video_codec : value;
  fi_audio_codec : value;
  fi_filesize : value
}.

Record VideoInfo := {
  vi_title : value;
  vi_uploader : value;
  vi_upload_date : value;
  vi_duration : value;
  vi_description : value;
  vi_formats : list FormatInfo;
  vi_raw_info : dict
}.

(** What is logged and printed, by the template it is formatted with. *)
Inductive message :=
  | FetchingInfo (url : str)
  | FetchingBanner
  | NoVideoInfo
  | FormatTable (formats : list FormatInfo)
  | FormatCount (n : nat)
  | FormatsFailed (e : exc)
  | CheckLinkHint
  | ExtractFailed (e : exc)
  | CannotParseLink
  | FormatsUnknownError (e : exc)
  | PreparingDownload (url : str)
  | DownloadParameters (format_id output_dir : str)
  | PreparingBanner
  | OutputTemplate (outtmpl : option value)
  | ChosenFormat (format_id : str)
  | DownloadFinished (output_dir : str)
  | SavedTo (output_dir : str)
  | DownloadFailed (e : exc)
  | DownloadFailedHint
  | PostProcessingFailed (e : exc)
  | UserInterrupted
  | DownloadCancelled
  | DownloadUnknownError (e : exc).

Inductive event :=
  | EngineExtractInfo (opts : dict) (url : str)
  | EngineDownload (opts : dict) (urls : list str)
  | Log (m : message)
  | Print (m : message)
  | Sleep.

Definition is_engine_call (ev : event) : bool :=
  match ev with
  | EngineExtractInfo _ _ | EngineDownload _ _ => true
  | _ => false
  end.

Definition engine_calls (trace : list event) : nat :=
  length (List.filter is_engine_call trace).

Section Core.

(** The external download engine: one call of
    [with yt_dlp.YoutubeDL(opts) as ydl: ydl.extract_info(url, download=False)]
    and one call of [with yt_dlp.YoutubeDL(opts) as ydl: ydl.download(urls)]. *)
Variable engine_extract_info : dict -> str -> result (option dict).
Variable engine_download : dict -> list str -> result unit.

(** [VideoInfo.from_ytdlp] and [parse_upload_date], which read the clock,
    and [_display_formats], which formats and prints the table of formats;
    each of them may raise on the values the engine handed over. *)
Variable from_ytdlp : dict -> result VideoInfo.
Variable parse_upload_date : value -> result str.
Variable display_formats : list FormatInfo -> result unit.

Record core := {
  config : VDDTConfig;
  progress_callback : option value
}.

(** [_get_base_opts] *)
Definition get_base_opts (self : core) : dict :=
  [ (lit "user_agent", user_agent (network (config self)));
    (lit "quiet", VBool (negb (truthy (verbose (ui (config self))))));
    (lit "no_warnings", VBool (negb (truthy (verbose (ui (config self))))));
    (lit "ignoreerrors", VBool true);
    (lit "nocheckcertificate", VBool true);
    (lit "socket_timeout", timeout (network (config self))) ].

(** [opts = self._get_base_opts(); if ydl_opts: opts.update(ydl_opts)] *)
Definition merged_opts (self : core) (ydl_opts : option dict) : dict :=
  match ydl_opts with
  | Some (kv :: more) => dict_update (get_base_opts self) (kv :: more)
  | _ => get_base_opts self
  end.

(** [get_format_lists]: the events in order, and what the call returns or
    raises. *)
Definition get_format_lists (self : core) (url : str)
    (ydl_opts : option dict)
    : list event * result (option VideoInfo * list FormatInfo) :=
  let opts := merged_opts self ydl_opts in
  let before :=
    [Log (FetchingInfo url); Print FetchingBanner;
     EngineExtractInfo opts url] in
  let body : list event * result (option VideoInfo * list FormatInfo) :=
    match engine_extract_info opts url with
    | Raise e => ([], Raise e)
    | Ok None | Ok (Some []) => ([Log NoVideoInfo], Ok (None, []))
    | Ok (Some info) =>
        match from_ytdlp info with
        | Raise e => ([], Raise e)
        | Ok video_info =>
            let formats := vi_formats video_info in
            match display_formats formats with
            | Raise e => ([], Raise e)
            | Ok _ =>
                ([Print (FormatTable formats);
                  Log (FormatCount (length formats))],
                 Ok (Some video_info, formats))
            end
        end
    end in
  match body with
  | (evs, Ok r) => (before ++ evs, Ok r)
  | (evs, Raise e) =>
      match exc_cls e with
      | YtDownloadError =>
          (before ++ evs ++
             [Log (FormatsFailed e); Print (FormatsFailed e);
              Print CheckLinkHint],
           Ok (None, []))
      | YtExtractorError =>
          (before ++ evs ++ [Log (ExtractFailed e); Print CannotParseLink],
           Ok (None, []))
      | _ =>
          if is_Exception e then
            (before ++ evs ++
               [Log (FormatsUnknownError e); Print (FormatsUnknownError e)],
             Ok (None, []))
          else (before ++ evs, Raise e)
      end
  end.

(** [sanitize_filename] on whatever [info_dict.get] returned: a falsy value
    gives the default name, a string is cleaned, and [re.sub] rejects any
    other object. *)
Definition sanitize_filename_value (v : value) : result str :=
  if negb (truthy v) then Ok Utils.unnamed
  else match v with
       | VStr s => Ok (Utils.sanitize_filename s)
       | _ => Raise (Exc TypeError (lit "expected string or bytes-like object"))
       end.

Definition get_or (d : dict) (k : str) (default : value) : value :=
  match dict_get d k with Some v => v | None => default end.

(** The output template of [download]. *)
Definition outtmpl_for (output_dir : str) (info_dict : option dict)
    : result str :=
  match info_dict with
  | Some (kv :: more) =>
      let info := kv :: more in
      bind (sanitize_filename_value (get_or info (lit "title") (VStr (lit "video"))))
        (fun title =>
      bind (sanitize_filename_value (get_or info (lit "uploader") (VStr (lit "channel"))))
        (fun author =>
      bind (parse_upload_date (get_or info (lit "upload_date") VNone))
        (fun date_str =>
      Ok (PosixPath.join output_dir
            (date_str ++ lit "_" ++ author ++ lit "_" ++ title ++ lit ".%(ext)s")))))
  | _ => Ok (PosixPath.join output_dir (lit "%(title)s.%(ext)s"))
  end.

(** The options [download] hands to the engine. *)
Definition download_opts (self : core) (format_id : str) (outtmpl : str)
    (ydl_opts : option dict) : dict :=
  let opts := merged_opts self ydl_opts in
  let opts := dict_set opts (lit "outtmpl") (VStr outtmpl) in
  let opts := dict_set opts (lit "format") (VStr format_id) in
  let opts :=
    dict_set opts (lit "progress_hooks")
      (VList [match progress_callback self with
              | Some cb => if truthy cb then cb else VObject (lit "progress_hook")
              | None => VObject (lit "progress_hook")
              end]) in
  let opts :=
    dict_set opts (lit "concurrent_fragment_downloads")
      (concurrent_downloads (download (config self))) in
  let opts :=
    dict_set opts (lit "fragment_retries")
      (max_retries (download (config self))) in
  dict_set opts (lit "retries") (max_retries (download (config self))).

(** [download] *)
Definition download_ (self : core) (url format_id output_dir : str)
    (ydl_opts info_dict : option dict) : list event * result bool :=
  match outtmpl_for output_dir info_dict with
  | Raise e => ([], Raise e)
  | Ok outtmpl =>
      let opts := download_opts self format_id outtmpl ydl_opts in
      let before :=
        [Log (PreparingDownload url);
         Log (DownloadParameters format_id output_dir);
         Print PreparingBanner;
         Print (OutputTemplate (dict_get opts (lit "outtmpl")));
         Print (ChosenFormat format_id);
         EngineDownload opts [url]] in
      match engine_download opts [url] with
      | Ok _ =>
          (before ++
             [Sleep; Log (DownloadFinished output_dir);
              Print (SavedTo output_dir)],
           Ok true)
      | Raise e =>
          match exc_cls e with
          | YtDownloadError =>
              (before ++
                 [Log (DownloadFailed e); Print (DownloadFailed e);
                  Print DownloadFailedHint],
               Ok false)
          | YtPostProcessingError =>
              (before ++
                 [Log (PostProcessingFailed e);
                  Print (PostProcessingFailed e)],
               Ok false)
          | KeyboardInterrupt =>
              (before ++ [Log UserInterrupted; Print DownloadCancelled],
               Ok false)
          | _ =>
              if is_Exception e then
                (before ++
                   [Log (DownloadUnknownError e);
                    Print (DownloadUnknownError e)],
                 Ok false)
              else (before, Raise e)
          end
      end
  end.

End Core.

(** *** [retry_on_error] (in [utils.py])

    [attempt i] is what the [i]-th call of the wrapped function does.  The
    wrapper returns the number of calls it made and the outcome, retrying
    only on [Exception]s (the default [exceptions] argument). *)
Fixpoint retry_loop {A} (attempt : nat -> result A) (remaining : nat)
    (i : nat) : nat * result A :=
  match attempt i with
  | Ok a => (S i, Ok a)
  | Raise e =>
      if is_Exception e then
        match remaining with
        | O => (S i, Raise e)
        | S remaining' => retry_loop attempt remaining' (S i)
        end
      else (S i, Raise e)
  end.

Definition retry_on_error {A} (max_retries : nat)
    (attempt : nat -> result A) : nat * result A :=
  retry_loop attempt max_retries 0.

(** *** [prepare_cookies_netscape]

    Logging and console output are left out: the function is modelled by
    what it does to the file system and what it returns. *)

Definition NETSCAPE_HEADER : str := lit "# Netscape HTTP Cookie File".

(** One line of the converted file. *)
Definition cookie_line (domain name value : str) : str :=
  lit "." ++ domain ++ [9] ++ lit "TRUE" ++ [9] ++ lit "/" ++ [9]
  ++ lit "FALSE" ++ [9] ++ lit "0" ++ [9] ++ strip name ++ [9] ++ strip value.

(** The [for part in raw_cookie.split(';')] loop. *)
Fixpoint cookie_lines_of (domain : str) (parts : list str) : list str :=
  match parts with
  | [] => []
  | part :: parts' =>
      let part := strip part in
      match split_once 61 part with
      | Some (name, value) =>
          cookie_line domain name value :: cookie_lines_of domain parts'
      | None => cookie_lines_of domain parts'
      end
  end.

(** The outcome of the [try] block for one existing candidate file. *)
Inductive attempt :=
  | Found (fs : FS.t) (path : str)
  | Skip
  | Propagate (e : exc).

Definition try_cookie_file (fs : FS.t) (domain ck_path : str) : attempt :=
  let caught (e : exc) := if is_Exception e then Skip else Propagate e in
  match FS.read_text fs ck_path with
  | Raise e => caught e
  | Ok text =>
      let raw_cookie := strip text in
      if startswith (lit "# Netscape") raw_cookie then Found fs ck_path
      else
        let cookie_lines :=
          NETSCAPE_HEADER :: cookie_lines_of domain (split 59 raw_cookie) in
        if (1 <? length cookie_lines)%nat then
          match FS.write_text fs ck_path (join [10] cookie_lines) with
          | Ok fs' => Found fs' ck_path
          | Raise e => caught e
          end
        else Skip
  end.

(** The [for filename in possible_files] loop. *)
Fixpoint try_candidates (fs : FS.t) (domain cookies_dir : str)
    (possible_files : list str) : FS.t * result (option str) :=
  match possible_files with
  | [] => (fs, Ok None)
  | filename :: rest =>
      let ck_path := PosixPath.join cookies_dir filename in
      if FS.exists_ fs ck_path then
        match try_cookie_file fs domain ck_path with
        | Found fs' path => (fs', Ok (Some path))
        | Skip => try_candidates fs domain cookies_dir rest
        | Propagate e => (fs, Raise e)
        end
      else try_candidates fs domain cookies_dir rest
  end.

Definition possible_files (domain : str) : list str :=
  [ domain ++ lit ".ck";
    replace_char 46 95 domain ++ lit ".ck";
    lit "common.ck" ].

(** [os.path.join(os.getcwd(), 'cookies')] *)
Definition cookies_dir (fs : FS.t) : str :=
  PosixPath.join (FS.cwd fs) (lit "cookies").

Definition prepare_cookies_netscape (netloc_of : str -> option str)
    (fs : FS.t) (target_url : str) : FS.t * result (option str) :=
  if negb (FS.isdir fs (cookies_dir fs)) then (fs, Ok None)
  else
    match Utils.extract_domain netloc_of target_url with
    | None => (fs, Ok None)
    | Some domain =>
        try_candidates fs domain (cookies_dir fs) (possible_files domain)
    end.

(** *** [suggest_best_quality] *)

(** [v != s] for a string [s]: a value that is not a string differs from
    it. *)
Definition ne_str (v : value) (s : str) : bool :=
  match v with
  | VStr t => negb (str_eqb t s)
  | _ => true
  end.

(** The property [FormatInfo.has_video]. *)
Definition has_video (f : FormatInfo) : bool :=
  ne_str (fi_video_codec f) (lit "-").

(** The text "仅音频". *)
Definition audio_only : str := [20165; 38899; 39057].

Definition video_formats (formats : list FormatInfo) : list FormatInfo :=
  List.filter
    (fun f => has_video f && ne_str (fi_resolution f) audio_only) formats.

Section Suggest.

(** [int(s)], [None] when it raises [ValueError]. *)
Variable py_int : str -> option Z.

(** The sort key [get_height]; a resolution that is neither empty nor a
    string has no [endswith]. *)
Definition get_height (f : FormatInfo) : result Z :=
  match fi_resolution f with
  | VStr res =>
      if truthy (VStr res) && PosixPath.endswith_char 112 res then
        match py_int (removelast res) with
        | Some n => Ok n
        | None => Ok 0%Z
        end
      else Ok 0%Z
  | v =>
      if truthy v
      then Raise (Exc AttributeError (lit "object has no attribute 'endswith'"))
      else Ok 0%Z
  end.

(** The keys of the list, computed in order. *)
Fixpoint keyed (l : list FormatInfo) : result (list (Z * FormatInfo)) :=
  match l with
  | [] => Ok []
  | f :: l' =>
      bind (get_height f) (fun h =>
      bind (keyed l') (fun r => Ok ((h, f) :: r)))
  end.

(** [sorted(l, key=..., reverse=True)] on the keyed list: by falling key,
    entries of equal key in their original order. *)
Fixpoint insert_desc (x : Z * FormatInfo) (l : list (Z * FormatInfo))
    : list (Z * FormatInfo) :=
  match l with
  | [] => [x]
  | y :: l' =>
      if (fst x <? fst y)%Z then y :: insert_desc x l' else x :: y :: l'
  end.

Definition sorted_desc (l : list (Z * FormatInfo)) : list (Z * FormatInfo) :=
  List.fold_right insert_desc [] l.

Definition suggest_best_quality (formats : list FormatInfo)
    : result (option value) :=
  match video_formats formats with
  | [] => Ok None
  | vf =>
      bind (keyed vf) (fun k =>
      match sorted_desc k with
      | best :: _ => Ok (Some (fi_format_id (snd best)))
      | [] => Raise (Exc IndexError (lit "list index out of range"))
      end)
  end.

End Suggest.

End DownloaderCore.

(** ** [VDDT.py], the legacy script *)

Module Legacy.

(** *** [prepare_cookies_netscape]

    [netloc_of url] is [urllib.parse.urlparse(url).netloc], or [None] when
    the parser raises.  Console output is left out. *)

(** The domain the function works with: the host without port, cut to its
    last two labels; [None] when the parser raised or nothing is left. *)
Definition domain_of (netloc_of : str -> option str) (target_url : str)
    : option str :=
  match netloc_of target_url with
  | None => None
  | Some domain =>
      let domain :=
        if contains 58 domain then List.hd [] (split 58 domain) else domain in
      let domain_parts := split 46 domain in
      let domain :=
        if (2 <? length domain_parts)%nat
        then join (lit ".") (last_n 2 domain_parts) else domain in
      match domain with
      | [] => None
      | _ => Some domain
      end
  end.

(** One line of the converted file. *)
Definition cookie_line (domain name value : str) : str :=
  domain ++ [9] ++ lit "TRUE" ++ [9] ++ lit "/" ++ [9]
  ++ lit "FALSE" ++ [9] ++ lit "0" ++ [9] ++ name ++ [9] ++ value.

(** The [for part in raw_cookie.split(';')] loop. *)
Fixpoint cookie_lines_of (domain : str) (parts : list str) : list str :=
  match parts with
  | [] => []
  | part :: parts' =>
      let part := strip part in
      match split_once 61 part with
      | Some (name, value) =>
          cookie_line domain name value :: cookie_lines_of domain parts'
      | None => cookie_lines_of domain parts'
      end
  end.

(** The outcome of the [try] block for one existing candidate file. *)
Definition try_cookie_file (fs : FS.t) (domain ck_path : str)
    : DownloaderCore.attempt :=
  let caught (e : exc) :=
    if is_Exception e then DownloaderCore.Skip
    else DownloaderCore.Propagate e in
  match FS.read_text fs ck_path with
  | Raise e => caught e
  | Ok text =>
      let raw_cookie := strip text in
      match cookie_lines_of domain (split 59 raw_cookie) with
      | [] => DownloaderCore.Skip
      | cookie_lines =>
          match FS.write_text fs ck_path
                  (lit "# Netscape HTTP Cookie File" ++ [10]
                   ++ join [10] cookie_lines) with
          | Ok fs' => DownloaderCore.Found fs' ck_path
          | Raise e => caught e
          end
      end
  end.

(** The [for filename in possible_files] loop. *)
Fixpoint try_candidates (fs : FS.t) (domain cookies_dir : str)
    (possible_files : list str) : FS.t * result (option str) :=
  match possible_files with
  | [] => (fs, Ok None)
  | filename :: rest =>
      let ck_path := PosixPath.join cookies_dir filename in
      if FS.exists_ fs ck_path then
        match try_cookie_file fs domain ck_path with
        | DownloaderCore.Found fs' path => (fs', Ok (Some path))
        | DownloaderCore.Skip => try_candidates fs domain cookies_dir rest
        | DownloaderCore.Propagate e => (fs, Raise e)
        end
      else try_candidates fs domain cookies_dir rest
  end.

Definition prepare_cookies_netscape (netloc_of : str -> option str)
    (fs : FS.t) (target_url : str) : FS.t * result (option str) :=
  if negb (FS.isdir fs (DownloaderCore.cookies_dir fs)) then (fs, Ok None)
  else
    match domain_of netloc_of target_url with
    | None => (fs, Ok None)
    | Some domain =>
        try_candidates fs domain (DownloaderCore.cookies_dir fs)
          (DownloaderCore.possible_files domain)
    end.

End Legacy.

(** ** [tui.py] *)

Module Tui.

(** Key codes as [getch] returns them. *)
Definition KEY_DOWN : Z := 258.
Definition KEY_UP : Z := 259.
Definition ord (a : ascii) : Z := Z.of_N (chr a).

Definition key_in (keys : list Z) (key : Z) : bool :=
  List.existsb (Z.eqb key) keys.

(** [l[i]] for a Python list and an integer of either sign. *)
Definition py_index {A} (l : list A) (i : Z) : result A :=
  let n := Z.of_nat (length l) in
  let j := if (i <? 0)%Z then (n + i)%Z else i in
  if (0 <=? j)%Z && (j <? n)%Z then
    match l !! Z.to_nat j with
    | Some x => Ok x
    | None => Raise (Exc IndexError (lit "list index out of range"))
    end
  else Raise (Exc IndexError (lit "list index out of range")).

(** [a % b] *)
Definition py_mod (a b : Z) : result Z :=
  if (b =? 0)%Z
  then Raise (Exc ZeroDivisionError (lit "integer modulo by zero"))
  else Ok (a mod b)%Z.

(** What one pass of a dialog loop does: go round again, return from
    [show], or let an exception escape. *)
Inductive step (S R : Type) :=
  | Continue (s : S)
  | Return (r : R)
  | Escape (e : exc).
Arguments Continue {S R} s.
Arguments Return {S R} r.
Arguments Escape {S R} e.

(** *** [SelectDialog] *)

Section SelectDialog.

Variable V : Type.

Record select_dialog := {
  sd_height : Z;
  sd_options : list (str * V);
  sd_selected : Z;
  sd_scroll_offset : Z;
  sd_result : option V
}.

(** [SelectDialog.__init__], for the height the constructor computed. *)
Definition select_init (height : Z) (options : list (str * V))
    : select_dialog :=
  {| sd_height := height; sd_options := options; sd_selected := 0;
     sd_scroll_offset := 0; sd_result := None |}.

(** The key handling of one pass of the loop in [SelectDialog.show]. *)
Definition select_key (d : select_dialog) (key : Z)
    : step select_dialog (option V) :=
  let visible_count := (sd_height d - 5)%Z in
  let len := Z.of_nat (length (sd_options d)) in
  if (key =? KEY_UP)%Z || (key =? ord "k")%Z then
    match py_mod (sd_selected d - 1) len with
    | Raise e => Escape e
    | Ok sel =>
        Continue
          {| sd_height := sd_height d; sd_options := sd_options d;
             sd_selected := sel;
             sd_scroll_offset :=
               if (sel <? sd_scroll_offset d)%Z then sel
               else sd_scroll_offset d;
             sd_result := sd_result d |}
    end
  else if (key =? KEY_DOWN)%Z || (key =? ord "j")%Z then
    match py_mod (sd_selected d + 1) len with
    | Raise e => Escape e
    | Ok sel =>
        Continue
          {| sd_height := sd_height d; sd_options := sd_options d;
             sd_selected := sel;
             sd_scroll_offset :=
               if (sd_scroll_offset d + visible_count <=? sel)%Z
               then (sel - visible_count + 1)%Z
               else sd_scroll_offset d;
             sd_result := sd_result d |}
    end
  else if key_in [10; 13]%Z key then
    match py_index (sd_options d) (sd_selected d) with
    | Raise e => Escape e
    | Ok opt => Return (Some (snd opt))
    end
  else if key_in [ord "q"; ord "Q"] key then Return (sd_result d)
  else if (ord "1" <=? key)%Z && (key <=? ord "9")%Z then
    let idx := (key - ord "1")%Z in
    if (idx <? len)%Z then
      match py_index (sd_options d) idx with
      | Raise e => Escape e
      | Ok opt => Return (Some (snd opt))
      end
    else Continue d
  else Continue d.

End SelectDialog.

(** *** [FileBrowserDialog] *)

(** The operating system as the dialog sees it. *)
Record os_env := {
  listdir : str -> result (list str);
  os_isdir : str -> bool;
  os_isfile : str -> bool;
  abspath : str -> str
}.

Fixpoint str_leb (a b : str) : bool :=
  match a, b with
  | [], _ => true
  | _ :: _, [] => false
  | x :: a', y :: b' =>
      if (x <? y)%N then true
      else if (y <? x)%N then false
      else str_leb a' b'
  end.

Fixpoint insert_sorted (x : str) (l : list str) : list str :=
  match l with
  | [] => [x]
  | y :: l' => if str_leb x y then x :: l else y :: insert_sorted x l'
  end.

(** [sorted(l)] for a list of strings. *)
Definition sorted (l : list str) : list str :=
  fold_right insert_sorted [] l.

Record file_browser := {
  fb_height : Z;
  fb_current_path : str;
  fb_selected : Z;
  fb_items : list (str * str);
  fb_scroll_offset : Z
}.

(** The entry ".. [返回上级]" and the entry "无法访问该目录". *)
Definition parent_item : str * str :=
  (lit ".. [" ++ [36820; 22238; 19978; 32423] ++ lit "]", lit "..").
Definition no_access_item : str * str :=
  ([26080; 27861; 35775; 38382; 35813; 30446; 24405], []).

(** [_refresh_items] *)
Definition refresh_items (os : os_env) (d : file_browser)
    : result file_browser :=
  match listdir os (fb_current_path d) with
  | Ok entries =>
      let full e := PosixPath.join (fb_current_path d) e in
      let dirs := sorted (List.filter (fun e => os_isdir os (full e)) entries) in
      let files := sorted (List.filter (fun e => os_isfile os (full e)) entries) in
      Ok {| fb_height := fb_height d;
            fb_current_path := fb_current_path d;
            fb_selected := 0;
            fb_items :=
              [parent_item]
              ++ List.map (fun x => ([128193; 32] ++ x ++ lit "/", x)) dirs
              ++ List.map (fun x => ([128196; 32] ++ x, x)) files;
            fb_scroll_offset := 0 |}
  | Raise e =>
      if is_Exception e then
        Ok {| fb_height := fb_height d;
              fb_current_path := fb_current_path d;
              fb_selected := fb_selected d;
              fb_items := [parent_item; no_access_item];
              fb_scroll_offset := fb_scroll_offset d |}
      else Raise e
  end.

(** The key handling of one pass of the loop in [FileBrowserDialog.show]. *)
Definition browser_key (os : os_env) (d : file_browser) (key : Z)
    : step file_browser (option str) :=
  let visible_count := (fb_height d - 6)%Z in
  let len := Z.of_nat (length (fb_items d)) in
  if (key =? -1)%Z then Continue d
  else if (key =? KEY_UP)%Z || (key =? ord "k")%Z then
    match py_mod (fb_selected d - 1) len with
    | Raise e => Escape e
    | Ok sel =>
        Continue
          {| fb_height := fb_height d;
             fb_current_path := fb_current_path d;
             fb_selected := sel; fb_items := fb_items d;
             fb_scroll_offset :=
               if (sel <? fb_scroll_offset d)%Z then sel
               else fb_scroll_offset d |}
    end
  else if (key =? KEY_DOWN)%Z || (key =? ord "j")%Z then
    match py_mod (fb_selected d + 1) len with
    | Raise e => Escape e
    | Ok sel =>
        Continue
          {| fb_height := fb_height d;
             fb_current_path := fb_current_path d;
             fb_selected := sel; fb_items := fb_items d;
             fb_scroll_offset :=
               if (fb_scroll_offset d + visible_count <=? sel)%Z
               then (sel - visible_count + 1)%Z
               else fb_scroll_offset d |}
    end
  else if key_in [10; 13]%Z key then
    match py_index (fb_items d) (fb_selected d) with
    | Raise e => Escape e
    | Ok (_, []) => Continue d
    | Ok (_, name) =>
        let new_path :=
          abspath os (PosixPath.join (fb_current_path d) name) in
        if os_isdir os new_path then
          match refresh_items os
                  {| fb_height := fb_height d; fb_current_path := new_path;
                     fb_selected := fb_selected d; fb_items := fb_items d;
                     fb_scroll_offset := fb_scroll_offset d |} with
          | Ok d' => Continue d'
          | Raise e => Escape e
          end
        else Return (Some new_path)
    end
  else if key_in [ord "s"; ord "S"] key then Return (Some (fb_current_path d))
  else if key_in [ord "q"; ord "Q"] key then Return None
  else Continue d.

(** *** [VDDTApp] *)

Inductive callback :=
  | on_single_download | on_batch_download | on_offline_transcode
  | on_view_logs | on_settings_download | on_settings_network
  | on_about | on_quit.

Inductive item_type := header | divider | item.

Record menu_item := {
  mi_text : str;
  mi_callback : option callback;
  mi_type : item_type;
  mi_shortcut : option str
}.

(** The entries of the main menu, their texts given by code points. *)
Definition main_items : list menu_item :=
  [
    {| mi_text := [128229; 32; 19979; 36733; 21151; 33021];
       mi_callback := None; mi_type := header; mi_shortcut := None |};
    {| mi_text := [32; 32; 19979; 36733; 21333; 20010; 35270; 39057];
       mi_callback := Some on_single_download; mi_type := item; mi_shortcut := Some (lit "1") |};
    {| mi_text := [32; 32; 25209; 37327; 19979; 36733];
       mi_callback := Some on_batch_download; mi_type := item; mi_shortcut := Some (lit "2") |};
    {| mi_text := [];
       mi_callback := None; mi_type := divider; mi_shortcut := None |};
    {| mi_text := [128295; 32; 24037; 20855];
       mi_callback := None; mi_type := header; mi_shortcut := None |};
    {| mi_text := [32; 32; 31163; 32447; 36716; 30721];
       mi_callback := Some on_offline_transcode; mi_type := item; mi_shortcut := Some (lit "3") |};
    {| mi_text := [32; 32; 26597; 30475; 26085; 24535];
       mi_callback := Some on_view_logs; mi_type := item; mi_shortcut := Some (lit "4") |};
    {| mi_text := [];
       mi_callback := None; mi_type := divider; mi_shortcut := None |};
    {| mi_text := [9881; 32; 35774; 32622];
       mi_callback := None; mi_type := header; mi_shortcut := None |};
    {| mi_text := [32; 32; 19979; 36733; 35774; 32622];
       mi_callback := Some on_settings_download; mi_type := item; mi_shortcut := Some (lit "5") |};
    {| mi_text := [32; 32; 32593; 32476; 35774; 32622];
       mi_callback := Some on_settings_network; mi_type := item; mi_shortcut := Some (lit "6") |};
    {| mi_text := [];
       mi_callback := None; mi_type := divider; mi_shortcut := None |};
    {| mi_text := [8505; 32; 20854; 20182];
       mi_callback := None; mi_type := header; mi_shortcut := None |};
    {| mi_text := [32; 32; 20851; 20110; 32; 86; 68; 68; 84];
       mi_callback := Some on_about; mi_type := item; mi_shortcut := Some (lit "A") |};
    {| mi_text := [32; 32; 36864; 20986; 31243; 24207];
       mi_callback := Some on_quit; mi_type := item; mi_shortcut := Some (lit "Q") |} ].

(** The part of the application state that navigation reads and writes.
    [app_selectable] is [None] until a draw pass has stored
    [_selectable_indices]. *)
Record app := {
  app_running : bool;
  app_menu_index : Z;
  app_selectable : option (list nat)
}.

(** [VDDTApp.__init__] *)
Definition app_init : app :=
  {| app_running := true; app_menu_index := 0; app_selectable := None |}.

(** The menu loop of [_draw]: the indices of the entries of type [item]
    among those that fit above row [h - 4], the first entry being drawn on
    row 4. *)
Fixpoint draw_items (items : list menu_item) (i : nat) (y h : Z)
    : list nat :=
  match items with
  | [] => []
  | it :: items' =>
      if (h - 4 <=? y)%Z then []
      else
        match mi_type it with
        | item => i :: draw_items items' (S i) (y + 1)%Z h
        | _ => draw_items items' (S i) (y + 1)%Z h
        end
  end.

(** [_draw] for a window of [h] rows and [w] columns.  [curses_ok] tells
    whether the drawing calls outside the inner [try] blocks succeeded; when
    one raises [curses.error] the pass is abandoned. *)
Definition draw (a : app) (h w : Z) (curses_ok : bool) : app :=
  if (h <? 10)%Z || (w <? 40)%Z then a
  else if curses_ok then
    {| app_running := app_running a; app_menu_index := app_menu_index a;
       app_selectable := Some (draw_items main_items 0 4 h) |}
  else a.

(** What a menu callback does to the navigation state: it may stop the
    application or raise, and it touches neither [menu_index] nor
    [_selectable_indices]. *)
Definition run_callback (effect : callback -> result bool) (a : app)
    (cb : option callback) : result app :=
  match cb with
  | None => Ok a
  | Some c =>
      match effect c with
      | Raise e => Raise e
      | Ok keep_running =>
          Ok {| app_running := app_running a && keep_running;
                app_menu_index := app_menu_index a;
                app_selectable := app_selectable a |}
      end
  end.

Definition selectable_of (a : app) : result (list nat) :=
  match app_selectable a with
  | Some l => Ok l
  | None => Raise (Exc AttributeError (lit "_selectable_indices"))
  end.

(** [callback = items[idx][1]; if callback: callback()] for
    [idx = selectable[index]]. *)
Definition activate (effect : callback -> result bool) (a : app)
    (selectable : list nat) (index : Z) : result app :=
  bind (py_index selectable index) (fun idx =>
  bind (py_index main_items (Z.of_nat idx)) (fun it =>
  run_callback effect a (mi_callback it))).

(** [_quick_select] *)
Definition quick_select (effect : callback -> result bool) (a : app)
    (index : Z) : result app :=
  bind (selectable_of a) (fun selectable =>
  if (index <? Z.of_nat (length selectable))%Z
  then activate effect a selectable index
  else Ok a).

(** [_handle_input] for the key [getch] returned; the current menu is
    always the main one. *)
Definition handle_input (effect : callback -> result bool) (a : app)
    (key : Z) : result app :=
  if (key =? -1)%Z then Ok a
  else
    bind (selectable_of a) (fun selectable =>
    let len := Z.of_nat (length selectable) in
    let move (delta : Z) :=
      match selectable with
      | [] => Ok a
      | _ =>
          bind (py_mod (app_menu_index a + delta) len) (fun idx =>
          Ok {| app_running := app_running a; app_menu_index := idx;
                app_selectable := app_selectable a |})
      end in
    if (key =? KEY_UP)%Z || (key =? ord "k")%Z then move (-1)%Z
    else if (key =? KEY_DOWN)%Z || (key =? ord "j")%Z then move 1%Z
    else if key_in [10; 13]%Z key then
      match selectable with
      | [] => Ok a
      | _ => activate effect a selectable (app_menu_index a)
      end
    else if key_in [ord "q"; ord "Q"] key then
      run_callback effect a (Some on_quit)
    else if key_in [ord "h"; ord "H"] key then Ok a
    else if (key =? ord "1")%Z then quick_select effect a 0
    else if (key =? ord "2")%Z then quick_select effect a 1
    else if (key =? ord "3")%Z then quick_select effect a 2
    else if (key =? ord "4")%Z then quick_select effect a 3
    else if (key =? ord "5")%Z then quick_select effect a 4
    else if (key =? ord "6")%Z then quick_select effect a 5
    else if key_in [ord "a"; ord "A"] key then quick_select effect a 7
    else Ok a).

(** *** [Dialog] *)

(** The geometry [Dialog.__init__] computes on a screen of [COLS] columns
    and [LINES] rows. *)
Record dialog := {
  dlg_width : Z;
  dlg_height : Z;
  dlg_x : Z;
  dlg_y : Z
}.

Definition dialog_init (COLS LINES width height : Z) : dialog :=
  let width := Z.min width (COLS - 4) in
  let height := Z.min height (LINES - 4) in
  {| dlg_width := width; dlg_height := height;
     dlg_x := ((COLS - width) / 2)%Z; dlg_y := ((LINES - height) / 2)%Z |}.

(** [Dialog._center_text]: the column and the text handed to [addstr]. *)
Definition center_text (width : Z) (text : str) : Z * str :=
  let text :=
    if (width - 4 <? Z.of_nat (length text))%Z
    then slice_to (width - 7) text ++ lit "..."
    else text in
  let x := ((width - Z.of_nat (length text)) / 2)%Z in
  (Z.max 1 x, text).

(** *** [InputDialog] *)

Definition KEY_BACKSPACE : Z := 263.

(** The state of the loop in [InputDialog.show]. *)
Record input_dialog := {
  in_width : Z;
  in_default : str;
  in_result : str;
  in_pos : Z
}.

(** [show] up to the loop. *)
Definition input_start (width : Z) (default : str) : input_dialog :=
  let input_width := (width - 4)%Z in
  let value :=
    if (input_width <? Z.of_nat (length default))%Z
    then slice_to input_width default else default in
  {| in_width := width; in_default := default; in_result := value;
     in_pos := Z.of_nat (length value) |}.

(** One pass of the loop for the key [getch] returned, and for [Enter] the
    statements after the loop.  [curses_ok] tells whether the drawing calls
    of the pass succeeded; [show] returns [None] when one of them raises
    [curses.error]. *)
Definition input_key (d : input_dialog) (key : Z) (curses_ok : bool)
    : step input_dialog (option str) :=
  let input_width := (in_width d - 4)%Z in
  if negb curses_ok then Return None
  else if key_in [10; 13]%Z key then
    let value :=
      match in_result d with [] => in_default d | _ => in_result d end in
    Return (match value with [] => None | _ => Some value end)
  else if key_in [ord "q"; ord "Q"] key then Return None
  else if key_in [KEY_BACKSPACE; 127; 8]%Z key then
    if (0 <? in_pos d)%Z then
      Continue
        {| in_width := in_width d; in_default := in_default d;
           in_result := slice_to (in_pos d - 1) (in_result d);
           in_pos := (in_pos d - 1)%Z |}
    else Continue d
  else if (32 <=? key)%Z && (key <=? 126)%Z then
    if (in_pos d <? input_width)%Z then
      Continue
        {| in_width := in_width d; in_default := in_default d;
           in_result := in_result d ++ [Z.to_N key];
           in_pos := (in_pos d + 1)%Z |}
    else Continue d
  else Continue d.

(** The loop on the keys typed, each with the flag of its pass; [None]
    while the dialog is still waiting for a key. *)
Fixpoint input_loop (d : input_dialog) (keys : list (Z * bool))
    : option (option str) :=
  match keys with
  | [] => None
  | (key, curses_ok) :: keys' =>
      match input_key d key curses_ok with
      | Continue d' => input_loop d' keys'
      | Return r => Some r
      | Escape _ => Some None
      end
  end.

(** [InputDialog.show] for a dialog whose window [draw_box] has created;
    [setup_ok] tells whether the drawing calls before the loop succeeded,
    [show] returning [None] when one of them raises [curses.error]. *)
Definition input_show (width : Z) (default : str) (setup_ok : bool)
    (keys : list (Z * bool)) : option (option str) :=
  if setup_ok then input_loop (input_start width default) keys
  else Some None.

(** *** [SelectDialog.__init__]: the height of the window. *)
Definition MIN_HEIGHT : Z := 8.
Definition MAX_HEIGHT : Z := 15.

Definition select_height {A} (LINES : Z) (options : list A) : Z :=
  let height := Z.min (Z.of_nat (length options) + 5) MAX_HEIGHT in
  let height := Z.max height MIN_HEIGHT in
  let height := Z.min height (LINES - 4) in
  Z.min height (LINES - 4).

End Tui.

(** ** Batch mode ([VDDT.py] and [tui.py]) *)

Module Batch.

(** Reading in text mode turns "\r\n" and "\r" into "\n". *)
Fixpoint translate_newlines (s : str) : str :=
  match s with
  | [] => []
  | 13 :: s' =>
      match s' with
      | 10 :: s'' => 10 :: translate_newlines s''
      | _ => 10 :: translate_newlines s'
      end
  | c :: s' => c :: translate_newlines s'
  end.

(** [for line in f]: the lines with their terminators. *)
Fixpoint lines_of (s : str) : list str :=
  match s with
  | [] => []
  | c :: s' =>
      if N.eqb c 10 then [c] :: lines_of s'
      else match lines_of s' with
           | [] => [[c]]
           | l :: ls => (c :: l) :: ls
           end
  end.

(** [[line.strip() for line in f
      if line.strip() and not line.startswith('#')]] *)
Fixpoint links_of (lines : list str) : list str :=
  match lines with
  | [] => []
  | line :: lines' =>
      match strip line with
      | [] => links_of lines'
      | _ :: _ =>
          if negb (startswith (lit "#") line)
          then strip line :: links_of lines'
          else links_of lines'
      end
  end.

(** What batch mode does with the file it read: it shows a message and
    returns, or goes on to download the links in order. *)
Inductive outcome :=
  | ShowMessage
  | DownloadAll (links : list str).

Definition batch (file_text : str) : outcome :=
  let links := links_of (lines_of (translate_newlines file_text)) in
  match links with
  | [] => ShowMessage
  | _ => DownloadAll links
  end.

End Batch.

(** * Notions used to state the properties *)

(** ** File names *)

(** The stages of the DEBUG [sanitize_filename]: after the replacement of
    the illegal characters, after the removal of the control characters,
    after [strip('. ')], and after the length limit. *)
Definition replaced (name : str) : str :=
  re_sub_class Utils.ILLEGAL_FILENAME_CHARS (lit "_") name.
Definition uncontrolled (name : str) : str :=
  re_sub_class Utils.ILLEGAL_CONTROL_CHARS [] (replaced name).
Definition stripped (name : str) : str :=
  strip_chars (lit ". ") (uncontrolled name).
Definition limited (name : str) : str :=
  if (200 <? Z.of_nat (length (stripped name)))%Z
  then rstrip (slice_to 200 (stripped name))
  else stripped name.

(** A character that is in neither class. *)
Definition clean (c : char) : Prop :=
  Utils.ILLEGAL_FILENAME_CHARS c = false
  /\ Utils.ILLEGAL_CONTROL_CHARS c = false.

(** A character that the cleaning removes at the ends of a name. *)
Definition removable (c : char) : Prop :=
  Utils.ILLEGAL_CONTROL_CHARS c = true \/ c = 32 \/ c = 46.

(** The names on which the two variants of [sanitize_filename] agree. *)
Definition agreeable (name : str) : Prop :=
  name <> []
  /\ (length name <= 200)%nat
  /\ Forall (fun c => Utils.ILLEGAL_CONTROL_CHARS c = false) name
  /\ (forall c, head name = Some c -> c <> 32 /\ c <> 46)
  /\ (forall c, last name = Some c -> c <> 32 /\ c <> 46).

(** ** Unique paths *)

(** The [k]-th numbered path [name_k + ext] in [directory]. *)
Definition candidate (directory name ext : str) (k : N) : str :=
  PosixPath.join directory (name ++ lit "_" ++ str_of_N k ++ ext).

(** What [os.path.join] puts before a relative file name. *)
Definition directory_prefix (directory : str) : str :=
  match directory with
  | [] => []
  | _ => if PosixPath.endswith_char PosixPath.sep directory
         then directory else directory ++ [PosixPath.sep]
  end.

(** ** File sizes *)

(** Integer division rounded to the nearest integer, ties to even. *)
Definition div_half_even (a b : Z) : Z :=
  let q := (a / b)%Z in
  let r := (a mod b)%Z in
  if (2 * r <? b)%Z then q
  else if (b <? 2 * r)%Z then (q + 1)%Z
  else if Z.even q then q else (q + 1)%Z.

(** The loop of [format_filesize] on integers: [v / p] is the scaled size. *)
Fixpoint scale_loop (us : list str) (last_unit : str) (v : Z) (p : positive)
    : str :=
  match us with
  | [] =>
      Utils.render_hundredths (div_half_even (100 * v) (Zpos p))
      ++ lit " " ++ last_unit
  | unit :: us' =>
      if (v <? 1024 * Zpos p)%Z
      then Utils.render_hundredths (div_half_even (100 * v) (Zpos p))
           ++ lit " " ++ unit
      else scale_loop us' last_unit v (1024 * p)
  end.

(** The rendering of [v] bytes in the [k]-th unit: [v / 1024^k] with two
    decimals, a space, the unit. *)
Definition rendered (v : Z) (k : nat) : str :=
  Utils.render_hundredths (div_half_even (100 * v) (1024 ^ Z.of_nat k))
  ++ lit " " ++ List.nth k Utils.units [].

(** [k] is the first unit in which [v] scales below 1024, or the last unit
    when there is none. *)
Definition first_unit_below (v : Z) (k : nat) : Prop :=
  (k <= 4)%nat
  /\ (forall j : nat, (j < k)%nat -> (1024 ^ (Z.of_nat j + 1) <= v)%Z)
  /\ ((k < 4)%nat -> (v < 1024 ^ (Z.of_nat k + 1))%Z).

(** [v / 1024^k] is below 1024. *)
Definition below_1024 (v : Z) (k : nat) : bool :=
  (v <? 1024 * 1024 ^ Z.of_nat k)%Z.

(** The largest unit in which [v] scales below 1024, the last unit when
    there is none. *)
Definition largest_unit_below (v : Z) : nat :=
  match List.filter (below_1024 v) [4; 3; 2; 1; 0]%nat with
  | k :: _ => k
  | [] => 4%nat
  end.

(** ** Domains *)

(** The text before the first occurrence of a character. *)
Fixpoint before (c : char) (s : str) : str :=
  match s with
  | [] => []
  | x :: s' => if N.eqb x c then [] else x :: before c s'
  end.

(** The host of a network location: what stands before the port. *)
Definition host_without_port (netloc : str) : str := before 58 netloc.

Definition without_www (host : str) : str :=
  if startswith (lit "www.") host then drop 4 host else host.

Definition second_to_last (labels : list str) : option str :=
  reverse labels !! 1%nat.

(** The last two labels, or the last three when the second-to-last one is
    one of co, com, org, net, edu, gov. *)
Definition kept_labels (labels : list str) : list str :=
  match second_to_last labels with
  | Some l => if Utils.str_in Utils.special_second_level l
              then last_n 3 labels else last_n 2 labels
  | None => last_n 2 labels
  end.

Definition claimed_domain (netloc : str) : option str :=
  match without_www (host_without_port netloc) with
  | [] => None
  | h => Some (join (lit ".") (kept_labels (split 46 h)))
  end.

(** ** Configuration *)

(** A configuration written by an earlier release. *)
Definition old_config : Config.VDDTConfig :=
  {| Config.download := Config.DownloadConfig_default;
     Config.transcode := Config.TranscodeConfig_default;
     Config.network := Config.NetworkConfig_default;
     Config.ui := Config.UIConfig_default;
     Config.version := Config.VStr (lit "2.0.0") |}.

(** ** The download engine *)

(** An engine that is out of reach, and a downloader with the default
    configuration. *)
Definition unreachable : exc :=
  Exc YtDownloadError (lit "Unable to download webpage").
Definition failing_extract_info (opts : Config.dict) (url : str)
    : result (option Config.dict) := Raise unreachable.
Definition failing_download (opts : Config.dict) (urls : list str)
    : result unit := Raise unreachable.
Definition default_core : DownloaderCore.core :=
  {| DownloaderCore.config := Config.VDDTConfig_default;
     DownloaderCore.progress_callback := None |}.

(** ** Cookies *)

(** The parts of a raw cookie that hold a key and a value. *)
Definition is_pair (part : str) : bool := contains 61 (strip part).

(** A cookies directory with a raw file for the domain that holds no pair,
    and a common file that holds one. *)
Definition two_cookie_files : FS.t :=
  {| FS.cwd := lit "/app";
     FS.nodes :=
       {[ lit "/app/cookies" := FS.Dir;
          lit "/app/cookies/example.com.ck" :=
            FS.File (Ok (lit "no pairs here")) true;
          lit "/app/cookies/common.ck" := FS.File (Ok (lit "sid=1")) true ]} |}.

(** A cookies directory with one raw file that holds two pairs. *)
Definition one_cookie_file : FS.t :=
  {| FS.cwd := lit "/app";
     FS.nodes :=
       {[ lit "/app/cookies" := FS.Dir;
          lit "/app/cookies/example.com.ck" :=
            FS.File (Ok (lit "sid=1; lang = zh")) true ]} |}.

Definition example_netloc (url : str) : option str :=
  Some (lit "example.com").

(** ** The text interface *)

(** An index is in bounds for a list. *)
Definition in_bounds {A} (i : Z) (l : list A) : Prop :=
  (0 <= i < Z.of_nat (length l))%Z.

(** The indices a draw pass stores point into the menu. *)
Definition menu_indices (sel : list nat) : Prop :=
  Forall (fun idx => (idx < length Tui.main_items)%nat) sel.

(** An exception that escapes was raised by a menu callback. *)
Definition from_callback (effect : Tui.callback -> result bool) (e : exc)
    : Prop :=
  exists c, effect c = Raise e.

(** Feeding the file browser one key after the other. *)
Fixpoint browser_run (os : Tui.os_env) (d : Tui.file_browser)
    (keys : list Z) : Tui.step Tui.file_browser (option str) :=
  match keys with
  | [] => Tui.Continue d
  | key :: keys' =>
      match Tui.browser_key os d key with
      | Tui.Continue d' => browser_run os d' keys'
      | r => r
      end
  end.

(** A directory [/home] with the subdirectories [a] and [b], of which [b]
    may not be listed. *)
Definition locked_os : Tui.os_env :=
  {| Tui.listdir := fun p =>
       if str_eqb p (lit "/home") then Ok [lit "b"; lit "a"]
       else if str_eqb p (lit "/home/b")
            then Raise (Exc IOError (lit "Permission denied"))
            else Ok [];
     Tui.os_isdir := fun p =>
       Utils.str_in [lit "/home"; lit "/home/a"; lit "/home/b"] p;
     Tui.os_isfile := fun _ => false;
     Tui.abspath := fun p => p |}.

(** [FileBrowserDialog(stdscr, title, "/home")] in a window of 20 rows. *)
Definition browser_at_home : result Tui.file_browser :=
  Tui.refresh_items locked_os
    {| Tui.fb_height := 20; Tui.fb_current_path := lit "/home";
       Tui.fb_selected := 0; Tui.fb_items := [];
       Tui.fb_scroll_offset := 0 |}.

(** ** Batch mode *)

(** A line of the list file is kept when it is not blank and does not
    start with the comment sign. *)
Definition kept (line : str) : bool :=
  match strip line with [] => false | _ => true end
  && negb (startswith (lit "#") line).

(** ** Configuration sections *)

(** The entries of the dictionary that [from_dict] reads. *)
Definition section_names : list str :=
  [lit "download"; lit "transcode"; lit "network"; lit "ui"].

(** The items of a section: those of the dictionary stored under its
    name, none when there is no such entry. *)
Definition section_items (data : Config.dict) (name : str) : Config.dict :=
  match Config.dict_get data name with
  | Some (Config.VDict items) => items
  | _ => []
  end.

(** [v] is a dictionary. *)
Definition is_dict (v : Config.value) : bool :=
  match v with Config.VDict _ => true | _ => false end.

(** The defaults, each replaced by the value the items hold for its key. *)
Definition overlay (defaults items : Config.dict) : Config.dict :=
  List.map
    (fun kv =>
       (fst kv,
        match Config.dict_get items (fst kv) with
        | Some v => v
        | None => snd kv
        end))
    defaults.

(** The keys of a section are pairwise distinct, as those of a Python
    dictionary are, and none starts with an underscore: the attributes of
    a dataclass object that are no fields all do. *)
Definition plain_section (items : Config.dict) : Prop :=
  NoDup (List.map fst items)
  /\ Forall (fun kv => head (fst kv) <> Some 95) items.

(** Every section of the dictionary is plain. *)
Definition plain_sections (data : Config.dict) : Prop :=
  Forall (fun name => plain_section (section_items data name)) section_names.

(** A file that sets one download field, one unknown key and one ui
    field. *)
Definition partial_config : Config.dict :=
  [ (lit "download",
     Config.VDict [ (lit "output_dir", Config.VStr (lit "/tmp/v"));
                    (lit "unknown_key", Config.VInt 1) ]);
    (lit "ui", Config.VDict [ (lit "verbose", Config.VBool true) ]) ].

(** A file whose ui entry is a number. *)
Definition broken_config : Config.dict := [ (lit "ui", Config.VInt 3) ].

(** [d[k] = v] on a dictionary that has the key [k], and nothing on one
    that has not. *)
Definition upd (k : str) (v : Config.value) (d : Config.dict) : Config.dict :=
  List.map (fun kv => (fst kv, if str_eqb k (fst kv) then v else snd kv)) d.

(** ** Cookie files *)

(** The file at [p] reads as a text in Netscape format. *)
Definition netscape_file (fs : FS.t) (p : str) : Prop :=
  exists text, FS.read_text fs p = Ok text
               /\ startswith (lit "# Netscape") (strip text) = true.

(** ** The options of a download *)

(** The options [download] sets itself, whatever the caller passes. *)
Definition own_options (self : DownloaderCore.core) (format_id outtmpl : str)
    : Config.dict :=
  [ (lit "outtmpl", Config.VStr outtmpl);
    (lit "format", Config.VStr format_id);
    (lit "progress_hooks",
     Config.VList
       [match DownloaderCore.progress_callback self with
        | Some cb =>
            if Config.truthy cb then cb
            else Config.VObject (lit "progress_hook")
        | None => Config.VObject (lit "progress_hook")
        end]);
    (lit "concurrent_fragment_downloads",
     Config.concurrent_downloads (Config.download (DownloaderCore.config self)));
    (lit "fragment_retries",
     Config.max_retries (Config.download (DownloaderCore.config self)));
    (lit "retries",
     Config.max_retries (Config.download (DownloaderCore.config self))) ].

(** The first of the dictionaries that has the key decides. *)
Fixpoint lookup_first (layers : list Config.dict) (k : str)
    : option Config.value :=
  match layers with
  | [] => None
  | d :: layers' =>
      match Config.dict_get d k with
      | Some v => Some v
      | None => lookup_first layers' k
      end
  end.

(** The options the caller passed, none for [None]. *)
Definition caller_options (ydl_opts : option Config.dict) : Config.dict :=
  match ydl_opts with Some d => d | None => [] end.

(** Options of a caller who asks for another format and a verbose engine. *)
Definition overriding_options : Config.dict :=
  [ (lit "format", Config.VStr (lit "worst"));
    (lit "quiet", Config.VBool false) ].

(** ** Choosing from a list *)

(** An answer that makes [select_from_list] ask again: a line that is not
    a number, or a number that is not one of the choices [1..n]. *)
Definition rejected (py_int : str -> option Z) (n : Z)
    (ev : Utils.input_event) : Prop :=
  match ev with
  | Utils.Line s =>
      match py_int (strip s) with
      | Some idx => ~ (1 <= idx <= n)%Z
      | None => True
      end
  | _ => False
  end.

(** ** Video formats *)

(** [f] is the first format of the list with the largest height. *)
Definition first_tallest (py_int : str -> option Z)
    (l : list DownloaderCore.FormatInfo) (f : DownloaderCore.FormatInfo)
    : Prop :=
  exists pre post h,
    l = pre ++ f :: post
    /\ DownloaderCore.get_height py_int f = Ok h
    /\ Forall (fun g => exists hg, DownloaderCore.get_height py_int g = Ok hg
                                   /\ (hg < h)%Z) pre
    /\ Forall (fun g => exists hg, DownloaderCore.get_height py_int g = Ok hg
                                   /\ (hg <= h)%Z) post.

(** ** Dialogs *)

(** A character the input dialog takes as text: printable ASCII other
    than the two letters that cancel. *)
Definition typed_char (c : N) : Prop :=
  32 <= c <= 126 /\ c <> 113 /\ c <> 81.

(** The keys that type a text, each in a pass that draws without error. *)
Definition keys_of (text : str) : list (Z * bool) :=
  List.map (fun c => (Z.of_N c, true)) text.

(** The selected option is among the rows the dialog draws. *)
Definition shown {V} (d : Tui.select_dialog V) : Prop :=
  (Tui.sd_scroll_offset V d <= Tui.sd_selected V d
   < Tui.sd_scroll_offset V d + (Tui.sd_height V d - 5))%Z.

(** What the loop of the input dialog keeps true of its state. *)
Definition input_inv (d : Tui.input_dialog) : Prop :=
  Tui.in_pos d = Z.of_nat (length (Tui.in_result d))
  /\ (Z.of_nat (length (Tui.in_result d)) <= Tui.in_width d - 4)%Z
  /\ exists k typed,
       Tui.in_result d = take k (Tui.in_default d) ++ typed
       /\ Forall typed_char typed.

(** Eleven options, numbered from 1. *)
Definition eleven_options : list (str * nat) :=
  List.map (fun n => (str_of_N (N.of_nat n), n)) (seq 1 11).

(** The callback of the entry of the main menu that shows the shortcut
    [label]. *)
Definition shortcut_callback (label : str) : option Tui.callback :=
  match
    List.find
      (fun it =>
         match Tui.mi_shortcut it with
         | Some l => str_eqb l label
         | None => false
         end) Tui.main_items
  with
  | Some it => Tui.mi_callback it
  | None => None
  end.

(** The move a key asks for goes round the end of the list. *)
Definition wraps {V} (d : Tui.select_dialog V) (key : Z) : bool :=
  (((key =? Tui.KEY_UP) || (key =? Tui.ord "k"))
     && (Tui.sd_selected V d =? 0)
   || ((key =? Tui.KEY_DOWN) || (key =? Tui.ord "j"))
     && (Tui.sd_selected V d
         =? Z.of_nat (length (Tui.sd_options V d)) - 1))%Z.

(** ** Runs of the dialogs and of the menu *)

(** Feeding the select dialog one key after the other. *)
Fixpoint select_run {V} (d : Tui.select_dialog V) (keys : list Z)
    : Tui.step (Tui.select_dialog V) (option V) :=
  match keys with
  | [] => Tui.Continue d
  | key :: keys' =>
      match Tui.select_key V d key with
      | Tui.Continue d' => select_run d' keys'
      | r => r
      end
  end.

(** The loop of [VDDTApp.run] in a window that keeps its [h] rows and [w]
    columns: a draw pass, with the flag that tells whether it succeeded,
    then the key [getch] returned. *)
Fixpoint menu_run (effect : Tui.callback -> result bool) (h w : Z)
    (a : Tui.app) (passes : list (Z * bool)) : result Tui.app :=
  match passes with
  | [] => Ok a
  | (key, curses_ok) :: passes' =>
      if Tui.app_running a then
        bind (Tui.handle_input effect (Tui.draw a h w curses_ok) key)
          (fun a' => menu_run effect h w a' passes')
      else Ok a
  end.

(** Every directory can be listed. *)
Definition listable (os : Tui.os_env) : Prop :=
  forall p, Tui.os_isdir os p = true ->
            exists entries, Tui.listdir os p = Ok entries.

(** A directory [/home] with the subdirectories [a] and [b], both of which
    can be listed. *)
Definition open_os : Tui.os_env :=
  {| Tui.listdir := fun p =>
       if str_eqb p (lit "/home") then Ok [lit "b"; lit "a"] else Ok [];
     Tui.os_isdir := fun p =>
       Utils.str_in [lit "/home"; lit "/home/a"; lit "/home/b"] p;
     Tui.os_isfile := fun _ => false;
     Tui.abspath := fun p => p |}.

(** [FileBrowserDialog(stdscr, title, "/home")] on it, in a window of 20
    rows. *)
Definition browser_at_open_home : result Tui.file_browser :=
  Tui.refresh_items open_os
    {| Tui.fb_height := 20; Tui.fb_current_path := lit "/home";
       Tui.fb_selected := 0; Tui.fb_items := [];
       Tui.fb_scroll_offset := 0 |}.

(** The browser has entries, and its selected index points at one. *)
Definition browser_ok (d : Tui.file_browser) : Prop :=
  Tui.fb_items d <> []
  /\ in_bounds (Tui.fb_selected d) (Tui.fb_items d).

(** ** Links *)

(** A link as batch mode hands it to the downloader: not empty, no white
    space around it, no line break inside. *)
Definition tidy_link (url : str) : Prop :=
  url <> [] /\ strip url = url /\ ~ In 10 url /\ ~ In 13 url.

(** * Properties *)

(** ** Stripping *)

Section Strip.

Variable p : char -> bool.

Lemma lstrip_by_Forall (Q : char -> Prop) (s : str) :
  Forall Q s -> Forall Q (lstrip_by p s).
Proof.
  induction 1 as [|c s Hc Hs IH]; simpl; [constructor|].
  destruct (p c); [exact IH | constructor; assumption].
Qed.

Lemma lstrip_by_head (s : str) (c : char) :
  head (lstrip_by p s) = Some c -> p c = false.
Proof.
  induction s as [|x s IH]; simpl; [discriminate|].
  destruct (p x) eqn:Hx; [exact IH|].
  simpl. intros [= <-]. exact Hx.
Qed.

Lemma lstrip_by_length (s : str) :
  (length (lstrip_by p s) <= length s)%nat.
Proof.
  induction s as [|x s IH]; simpl; [lia|].
  destruct (p x); simpl; lia.
Qed.

Lemma lstrip_by_id (s : str) :
  (forall c, head s = Some c -> p c = false) -> lstrip_by p s = s.
Proof.
  destruct s as [|x s]; simpl; [reflexivity|].
  intros H. rewrite (H x eq_refl). reflexivity.
Qed.

Lemma lstrip_by_same_length (s : str) :
  length (lstrip_by p s) = length s -> lstrip_by p s = s.
Proof.
  destruct s as [|x s]; simpl; [reflexivity|].
  destruct (p x); [|reflexivity].
  pose proof (lstrip_by_length s). lia.
Qed.

Lemma lstrip_by_all (s : str) :
  Forall (fun c => p c = true) s -> lstrip_by p s = [].
Proof.
  induction 1 as [|c s Hc Hs IH]; simpl; [reflexivity|].
  rewrite Hc. exact IH.
Qed.

Lemma lstrip_by_last (s : str) (c : char) :
  last (lstrip_by p s) = Some c -> last s = Some c.
Proof.
  induction s as [|x s IH]; simpl; [discriminate|].
  destruct (p x); [|trivial].
  intros H. specialize (IH H).
  destruct s; [discriminate | exact IH].
Qed.

Lemma rstrip_by_Forall (Q : char -> Prop) (s : str) :
  Forall Q s -> Forall Q (rstrip_by p s).
Proof.
  intros H. unfold rstrip_by.
  apply Forall_reverse, lstrip_by_Forall, Forall_reverse. exact H.
Qed.

Lemma rstrip_by_last (s : str) (c : char) :
  last (rstrip_by p s) = Some c -> p c = false.
Proof.
  unfold rstrip_by. rewrite last_reverse. apply lstrip_by_head.
Qed.

Lemma rstrip_by_length (s : str) :
  (length (rstrip_by p s) <= length s)%nat.
Proof.
  unfold rstrip_by. rewrite length_reverse.
  etransitivity; [apply lstrip_by_length|]. rewrite length_reverse. lia.
Qed.

Lemma rstrip_by_head (s : str) (c : char) :
  head (rstrip_by p s) = Some c -> head s = Some c.
Proof.
  unfold rstrip_by. rewrite head_reverse. intros H.
  apply lstrip_by_last in H. rewrite last_reverse in H. exact H.
Qed.

Lemma rstrip_by_id (s : str) :
  (forall c, last s = Some c -> p c = false) -> rstrip_by p s = s.
Proof.
  intros H. unfold rstrip_by. rewrite lstrip_by_id.
  - apply reverse_involutive.
  - intros c. rewrite head_reverse. apply H.
Qed.

Lemma rstrip_by_same_length (s : str) :
  length (rstrip_by p s) = length s -> rstrip_by p s = s.
Proof.
  unfold rstrip_by. rewrite length_reverse. intros H.
  rewrite lstrip_by_same_length; [apply reverse_involutive|].
  rewrite H, length_reverse. reflexivity.
Qed.

Lemma rstrip_by_all (s : str) :
  Forall (fun c => p c = true) s -> rstrip_by p s = [].
Proof.
  intros H. unfold rstrip_by. rewrite lstrip_by_all; [reflexivity|].
  apply Forall_reverse. exact H.
Qed.

Lemma strip_by_Forall (Q : char -> Prop) (s : str) :
  Forall Q s -> Forall Q (strip_by p s).
Proof. intros H. apply rstrip_by_Forall, lstrip_by_Forall, H. Qed.

Lemma strip_by_head (s : str) (c : char) :
  head (strip_by p s) = Some c -> p c = false.
Proof. intros H. apply rstrip_by_head in H. exact (lstrip_by_head _ _ H). Qed.

Lemma strip_by_last (s : str) (c : char) :
  last (strip_by p s) = Some c -> p c = false.
Proof. apply rstrip_by_last. Qed.

Lemma strip_by_length (s : str) :
  (length (strip_by p s) <= length s)%nat.
Proof.
  unfold strip_by. etransitivity; [apply rstrip_by_length|].
  apply lstrip_by_length.
Qed.

Lemma strip_by_id (s : str) :
  (forall c, head s = Some c -> p c = false) ->
  (forall c, last s = Some c -> p c = false) ->
  strip_by p s = s.
Proof.
  intros Hh Hl. unfold strip_by. rewrite (lstrip_by_id s Hh).
  apply rstrip_by_id, Hl.
Qed.

Lemma strip_by_same_length (s : str) :
  length (strip_by p s) = length s -> strip_by p s = s.
Proof.
  unfold strip_by. intros H.
  pose proof (rstrip_by_length (lstrip_by p s)).
  pose proof (lstrip_by_length s).
  rewrite rstrip_by_same_length by lia.
  apply lstrip_by_same_length. lia.
Qed.

Lemma strip_by_all (s : str) :
  Forall (fun c => p c = true) s -> strip_by p s = [].
Proof.
  intros H. unfold strip_by. rewrite (lstrip_by_all s H). reflexivity.
Qed.

End Strip.

(** ** [sanitize_filename] *)

Lemma re_sub_class_one (cls : char -> bool) (x : char) (s : str) :
  re_sub_class cls [x] s = List.map (fun c => if cls c then x else c) s.
Proof.
  unfold re_sub_class. induction s as [|c s IH]; simpl; [reflexivity|].
  rewrite IH. destruct (cls c); reflexivity.
Qed.

Lemma re_sub_class_nil (cls : char -> bool) (s : str) :
  re_sub_class cls [] s = List.filter (fun c => negb (cls c)) s.
Proof.
  unfold re_sub_class. induction s as [|c s IH]; simpl; [reflexivity|].
  rewrite IH. destruct (cls c); reflexivity.
Qed.

Lemma filter_length_le {A} (f : A -> bool) (l : list A) :
  (length (List.filter f l) <= length l)%nat.
Proof. induction l as [|x l IH]; simpl; [lia|]. destruct (f x); simpl; lia. Qed.

Lemma filter_same_length {A} (f : A -> bool) (l : list A) :
  length (List.filter f l) = length l -> Forall (fun x => f x = true) l.
Proof.
  induction l as [|x l IH]; simpl; [constructor|].
  pose proof (filter_length_le f l) as Hle.
  destruct (f x) eqn:Hx; simpl; intros H; [|lia].
  constructor; [exact Hx | apply IH; lia].
Qed.

Lemma filter_all {A} (f : A -> bool) (l : list A) :
  Forall (fun x => f x = true) l -> List.filter f l = l.
Proof.
  induction 1 as [|x l Hx Hl IH]; simpl; [reflexivity|].
  rewrite Hx, IH. reflexivity.
Qed.

Lemma filter_none {A} (f : A -> bool) (l : list A) :
  Forall (fun x => f x = false) l -> List.filter f l = [].
Proof.
  induction 1 as [|x l Hx Hl IH]; simpl; [reflexivity|].
  rewrite Hx. exact IH.
Qed.

Lemma sanitize_filename_stages (name : str) :
  Utils.sanitize_filename name =
    match name with
    | [] => Utils.unnamed
    | _ => match limited name with
           | [] => Utils.unnamed
           | _ :: _ => limited name
           end
    end.
Proof. destruct name; reflexivity. Qed.

Lemma illegal_iff (c : char) :
  Utils.ILLEGAL_FILENAME_CHARS c = true <->
  c = 47 \/ c = 58 \/ c = 42 \/ c = 63 \/ c = 34 \/ c = 60 \/ c = 62 \/ c = 124.
Proof.
  change (Utils.ILLEGAL_FILENAME_CHARS c)
    with (char_in [47; 58; 42; 63; 34; 60; 62; 124] c).
  unfold char_in. simpl. rewrite !orb_true_iff, !N.eqb_eq.
  intuition discriminate.
Qed.

Lemma control_iff (c : char) :
  Utils.ILLEGAL_CONTROL_CHARS c = true <-> c <= 31 \/ c = 127.
Proof.
  unfold Utils.ILLEGAL_CONTROL_CHARS.
  rewrite orb_true_iff, N.leb_le, N.eqb_eq. reflexivity.
Qed.

Lemma control_not_illegal (c : char) :
  Utils.ILLEGAL_CONTROL_CHARS c = true ->
  Utils.ILLEGAL_FILENAME_CHARS c = false.
Proof.
  intros Hc. apply control_iff in Hc.
  destruct (Utils.ILLEGAL_FILENAME_CHARS c) eqn:Hi; [|reflexivity].
  apply illegal_iff in Hi. lia.
Qed.

Lemma replaced_map (name : str) :
  replaced name =
    List.map (fun c => if Utils.ILLEGAL_FILENAME_CHARS c then 95 else c) name.
Proof. apply re_sub_class_one. Qed.

Lemma replaced_length (name : str) : length (replaced name) = length name.
Proof. rewrite replaced_map. apply length_map. Qed.

Lemma replaced_legal (name : str) :
  Forall (fun c => Utils.ILLEGAL_FILENAME_CHARS c = false) (replaced name).
Proof.
  rewrite replaced_map. apply List.Forall_map, Forall_forall. intros c _.
  destruct (Utils.ILLEGAL_FILENAME_CHARS c) eqn:Hc; [reflexivity | exact Hc].
Qed.

Lemma uncontrolled_clean (name : str) : Forall clean (uncontrolled name).
Proof.
  unfold uncontrolled. rewrite re_sub_class_nil.
  pose proof (replaced_legal name) as H.
  induction H as [|c s Hc Hs IH]; simpl; [constructor|].
  destruct (Utils.ILLEGAL_CONTROL_CHARS c) eqn:Hk; simpl; [exact IH|].
  constructor; [split; assumption | exact IH].
Qed.

Lemma uncontrolled_length (name : str) :
  (length (uncontrolled name) <= length name)%nat.
Proof.
  unfold uncontrolled. rewrite re_sub_class_nil, <- (replaced_length name).
  apply filter_length_le.
Qed.

Lemma stripped_length (name : str) :
  (length (stripped name) <= length name)%nat.
Proof.
  etransitivity; [apply strip_by_length | apply uncontrolled_length].
Qed.

Lemma stripped_clean (name : str) : Forall clean (stripped name).
Proof. apply strip_by_Forall, uncontrolled_clean. Qed.

Lemma char_in_dot_space (c : char) :
  char_in (lit ". ") c = false <-> c <> 46 /\ c <> 32.
Proof.
  change (lit ". ") with [46; 32]. unfold char_in. simpl.
  destruct (N.eqb_spec c 46), (N.eqb_spec c 32); simpl;
    intuition congruence.
Qed.

Lemma isspace_32 : isspace 32 = true.
Proof. reflexivity. Qed.

Lemma limited_cases (name : str) :
  (length (stripped name) <= 200)%nat /\ limited name = stripped name
  \/ (200 < length (stripped name))%nat
     /\ limited name = rstrip (take 200 (stripped name)).
Proof.
  unfold limited.
  destruct (Z.ltb_spec 200 (Z.of_nat (length (stripped name)))) as [H|H].
  - right. split; [lia | reflexivity].
  - left. split; [lia | reflexivity].
Qed.

Lemma limited_clean (name : str) : Forall clean (limited name).
Proof.
  destruct (limited_cases name) as [[_ E]|[_ E]]; rewrite E.
  - apply stripped_clean.
  - apply rstrip_by_Forall, Forall_take, stripped_clean.
Qed.

Lemma limited_length (name : str) : (length (limited name) <= 200)%nat.
Proof.
  destruct (limited_cases name) as [[H E]|[_ E]]; rewrite E; [exact H|].
  etransitivity; [apply rstrip_by_length|]. rewrite length_take. lia.
Qed.

Lemma head_take {A} (n : nat) (l : list A) (x : A) :
  head (take n l) = Some x -> head l = Some x.
Proof. destruct n, l; simpl; congruence. Qed.

Lemma limited_head (name : str) (c : char) :
  head (limited name) = Some c -> c <> 32 /\ c <> 46.
Proof.
  intros H.
  assert (head (stripped name) = Some c) as Hs.
  { destruct (limited_cases name) as [[_ E]|[_ E]]; rewrite E in H.
    - exact H.
    - apply rstrip_by_head, head_take in H. exact H. }
  apply strip_by_head, char_in_dot_space in Hs. tauto.
Qed.

Lemma limited_last_space (name : str) (c : char) :
  last (limited name) = Some c -> c <> 32.
Proof.
  intros H.
  destruct (limited_cases name) as [[_ E]|[_ E]]; rewrite E in H.
  - apply strip_by_last, char_in_dot_space in H. tauto.
  - apply rstrip_by_last in H. intros ->. discriminate.
Qed.

Lemma limited_last_dot (name : str) (c : char) :
  (length name <= 200)%nat -> last (limited name) = Some c -> c <> 46.
Proof.
  intros Hn H. pose proof (stripped_length name).
  destruct (limited_cases name) as [[_ E]|[? _]]; [|lia].
  rewrite E in H. apply strip_by_last, char_in_dot_space in H. tauto.
Qed.

Lemma limited_removable (name : str) :
  Forall removable name -> limited name = [].
Proof.
  intros H.
  assert (stripped name = []) as E.
  { unfold stripped. apply strip_by_all.
    unfold uncontrolled. rewrite re_sub_class_nil, replaced_map.
    induction H as [|c s Hc Hs IH]; simpl; [constructor|].
    destruct Hc as [Hc|[->| ->]].
    - rewrite (control_not_illegal c Hc).
      rewrite Hc. simpl. exact IH.
    - simpl. constructor; [reflexivity | exact IH].
    - simpl. constructor; [reflexivity | exact IH]. }
  unfold limited. rewrite E. reflexivity.
Qed.

Lemma unnamed_safe :
  Utils.unnamed <> [] /\ (length Utils.unnamed <= 200)%nat
  /\ Forall clean Utils.unnamed
  /\ head Utils.unnamed = Some 117 /\ last Utils.unnamed = Some 100.
Proof.
  repeat split; try discriminate; try (simpl; lia).
  repeat constructor.
Qed.

(** C4, amended.  For every input string the DEBUG [sanitize_filename]
    (default arguments) returns a non-empty string of at most 200
    characters, with no slash, colon, asterisk, question mark, double
    quote, angle bracket or vertical bar and no control character, that
    does not begin with a space or a dot and does not end
    with a space; for an input of at most 200 characters it does not end
    with a dot either.  An input made only of control characters, spaces and
    dots (the empty input among them) gives "unnamed". *)
Theorem sanitize_filename_safe (name : str) :
  let r := Utils.sanitize_filename name in
  r <> []
  /\ (length r <= 200)%nat
  /\ Forall (fun c => Utils.ILLEGAL_FILENAME_CHARS c = false
                      /\ Utils.ILLEGAL_CONTROL_CHARS c = false) r
  /\ (forall c, head r = Some c -> c <> 32 /\ c <> 46)
  /\ (forall c, last r = Some c -> c <> 32)
  /\ ((length name <= 200)%nat -> forall c, last r = Some c -> c <> 46)
  /\ (Forall (fun c => Utils.ILLEGAL_CONTROL_CHARS c = true
                       \/ c = 32 \/ c = 46) name ->
      r = lit "unnamed").
Proof.
  intros r. subst r. rewrite sanitize_filename_stages.
  assert (Utils.unnamed <> []
          /\ (length Utils.unnamed <= 200)%nat
          /\ Forall clean Utils.unnamed
          /\ (forall c, head Utils.unnamed = Some c -> c <> 32 /\ c <> 46)
          /\ (forall c, last Utils.unnamed = Some c -> c <> 32)
          /\ (forall c, last Utils.unnamed = Some c -> c <> 46)) as HU.
  { destruct unnamed_safe as (U1 & U2 & U3 & U4 & U5). rewrite U4, U5.
    split_and!; auto; intros c [= <-]; try split; discriminate. }
  destruct HU as (U1 & U2 & U3 & U4 & U5 & U6).
  destruct name as [|x name'].
  { split_and!; auto. }
  set (name := x :: name') in *.
  pose proof (limited_clean name) as Hc.
  pose proof (limited_length name) as Hl.
  pose proof (limited_head name) as Hh.
  pose proof (limited_last_space name) as Hs.
  pose proof (limited_last_dot name) as Hd.
  pose proof (limited_removable name) as Hr.
  destruct (limited name) as [|y r] eqn:E.
  { split_and!; auto. }
  split_and!; auto.
  intros H. specialize (Hr H). discriminate.
Qed.

(** C4, as stated, fails: the input "/" consists of an illegal character
    only, and it is mapped to "_", not to "unnamed". *)
Lemma sanitize_filename_all_illegal :
  Forall (fun c => Utils.ILLEGAL_FILENAME_CHARS c = true) (lit "/")
  /\ Utils.sanitize_filename (lit "/") = lit "_"
  /\ Utils.sanitize_filename (lit "/") <> lit "unnamed".
Proof. split; [repeat constructor | split; [reflexivity | discriminate]]. Qed.

(** C3, as stated, fails: on the empty name the DEBUG variant answers
    "unnamed" and the VDDT-beta variant the empty string. *)
Lemma sanitize_variants_differ :
  Utils.sanitize_filename [] <> BetaUtils.sanitize_filename [].
Proof. discriminate. Qed.

Lemma head_map {A B} (f : A -> B) (l : list A) :
  head (List.map f l) =
    match head l with Some x => Some (f x) | None => None end.
Proof. destruct l; reflexivity. Qed.

Lemma last_map {A B} (f : A -> B) (l : list A) :
  last (List.map f l) =
    match last l with Some x => Some (f x) | None => None end.
Proof.
  induction l as [|x l IH]; [reflexivity|].
  destruct l as [|y l]; [reflexivity|]. exact IH.
Qed.

Lemma replace_edge (c : char) :
  c <> 32 /\ c <> 46 -> char_in (lit ". ") (if Utils.ILLEGAL_FILENAME_CHARS c then 95 else c) = false.
Proof.
  intros H. destruct (Utils.ILLEGAL_FILENAME_CHARS c); [reflexivity|].
  apply char_in_dot_space. tauto.
Qed.

Lemma control_replace (c : char) :
  Utils.ILLEGAL_CONTROL_CHARS (if Utils.ILLEGAL_FILENAME_CHARS c then 95 else c)
  = Utils.ILLEGAL_CONTROL_CHARS c.
Proof.
  destruct (Utils.ILLEGAL_FILENAME_CHARS c) eqn:H; [|reflexivity].
  destruct (Utils.ILLEGAL_CONTROL_CHARS c) eqn:Hc; [|reflexivity].
  rewrite (control_not_illegal c Hc) in H. discriminate.
Qed.

Lemma sanitize_variants_agree (name : str) :
  name <> [] ->
  (length name <= 200)%nat ->
  Forall (fun c => Utils.ILLEGAL_CONTROL_CHARS c = false) name ->
  (forall c, head name = Some c -> c <> 32 /\ c <> 46) ->
  (forall c, last name = Some c -> c <> 32 /\ c <> 46) ->
  Utils.sanitize_filename name = BetaUtils.sanitize_filename name.
Proof.
  intros Hne Hlen Hctl Hhead Hlast.
  rewrite sanitize_filename_stages.
  change (BetaUtils.sanitize_filename name) with (replaced name).
  assert (uncontrolled name = replaced name) as E1.
  { unfold uncontrolled. rewrite re_sub_class_nil. apply filter_all.
    rewrite replaced_map. apply List.Forall_map.
    eapply Forall_impl; [exact Hctl|]. intros c Hc. simpl.
    rewrite control_replace, Hc. reflexivity. }
  assert (stripped name = replaced name) as E2.
  { unfold stripped. rewrite E1. apply strip_by_id; intros c;
      rewrite replaced_map.
    - rewrite head_map. intros H.
      destruct (head name) as [x|]; [|discriminate H].
      injection H as <-. apply replace_edge, Hhead. reflexivity.
    - rewrite last_map. intros H.
      destruct (last name) as [x|]; [|discriminate H].
      injection H as <-. apply replace_edge, Hlast. reflexivity. }
  assert (limited name = replaced name) as E3.
  { destruct (limited_cases name) as [[_ E]|[H _]]; [rewrite E; exact E2|].
    rewrite E2, replaced_length in H. lia. }
  rewrite E3. destruct name as [|x name']; [congruence|].
  rewrite replaced_map. simpl. reflexivity.
Qed.

Lemma edge_of_replaced (c : char) :
  char_in (lit ". ") (if Utils.ILLEGAL_FILENAME_CHARS c then 95 else c) = false ->
  c <> 32 /\ c <> 46.
Proof.
  destruct (Utils.ILLEGAL_FILENAME_CHARS c) eqn:Hi.
  - intros _. apply illegal_iff in Hi. lia.
  - intros H. apply char_in_dot_space in H. tauto.
Qed.

Lemma sanitize_agree_only (name : str) :
  Utils.sanitize_filename name = BetaUtils.sanitize_filename name ->
  agreeable name.
Proof.
  rewrite sanitize_filename_stages.
  change (BetaUtils.sanitize_filename name) with (replaced name).
  destruct name as [|x name']; [discriminate|].
  set (name := x :: name').
  intros H.
  destruct (limited name) as [|y r] eqn:E.
  { (* the default name is not produced from itself *)
    exfalso. revert E. unfold limited, stripped, uncontrolled.
    rewrite <- H. vm_compute. discriminate. }
  rewrite <- E in H. clear E y r.
  pose proof (replaced_length name) as Hlen.
  pose proof (uncontrolled_length name) as Hu.
  pose proof (strip_by_length (char_in (lit ". ")) (uncontrolled name)) as Hs.
  fold (strip_chars (lit ". ") (uncontrolled name)) in Hs.
  fold (stripped name) in Hs.
  assert (length (limited name) = length name) as Hl by (rewrite H; exact Hlen).
  destruct (limited_cases name) as [[H200 E]|[H200 E]].
  2:{ pose proof (limited_length name). lia. }
  rewrite E in Hl.
  assert (stripped name = uncontrolled name) as E2.
  { apply strip_by_same_length. fold (strip_chars (lit ". ") (uncontrolled name)).
    fold (stripped name). lia. }
  assert (length (uncontrolled name) = length (replaced name)) as Hlu by lia.
  unfold uncontrolled in Hlu. rewrite re_sub_class_nil in Hlu.
  apply filter_same_length in Hlu.
  assert (uncontrolled name = replaced name) as E1.
  { unfold uncontrolled. rewrite re_sub_class_nil. apply filter_all, Hlu. }
  unfold agreeable. split_and!.
  - discriminate.
  - lia.
  - rewrite replaced_map in Hlu. apply List.Forall_map in Hlu.
    eapply Forall_impl; [exact Hlu|]. intros c Hc. simpl in Hc.
    rewrite control_replace in Hc. apply negb_true_iff in Hc. exact Hc.
  - intros c Hc. apply edge_of_replaced.
    apply (strip_by_head (char_in (lit ". ")) (replaced name)).
    fold (strip_chars (lit ". ") (replaced name)).
    rewrite <- E1. fold (stripped name). rewrite E2, E1.
    rewrite replaced_map, head_map, Hc. reflexivity.
  - intros c Hc. apply edge_of_replaced.
    apply (strip_by_last (char_in (lit ". ")) (replaced name)).
    fold (strip_chars (lit ". ") (replaced name)).
    rewrite <- E1. fold (stripped name). rewrite E2, E1.
    rewrite replaced_map, last_map, Hc. reflexivity.
Qed.

(** C3, amended.  The DEBUG and the VDDT-beta [sanitize_filename] return
    the same string exactly on the names that are not empty, have at most
    200 characters, hold no control character, and neither begin nor end
    with a space or a dot. *)
Theorem sanitize_variants_agree_iff (name : str) :
  Utils.sanitize_filename name = BetaUtils.sanitize_filename name
  <->
  name <> []
  /\ (length name <= 200)%nat
  /\ Forall (fun c => Utils.ILLEGAL_CONTROL_CHARS c = false) name
  /\ (forall c, head name = Some c -> c <> 32 /\ c <> 46)
  /\ (forall c, last name = Some c -> c <> 32 /\ c <> 46).
Proof.
  split.
  - apply sanitize_agree_only.
  - intros (H1 & H2 & H3 & H4 & H5). apply sanitize_variants_agree; assumption.
Qed.

(** ** Configuration *)

(** C5, as stated, fails: a configuration whose version is not the one of
    this release does not come back from its dictionary. *)
Lemma from_dict_to_dict_drops_version :
  Config.from_dict (Config.to_dict old_config) <> Ok old_config.
Proof. vm_compute. intros H. discriminate H. Qed.

(** C5, amended.  For every configuration [c],
    [VDDTConfig.from_dict(c.to_dict())] has the download, transcode,
    network and ui sections of [c], field for field, and the version
    "2.1.0" of a fresh configuration: the version entry of the dictionary
    is not read back. *)
Theorem from_dict_to_dict (c : Config.VDDTConfig) :
  Config.from_dict (Config.to_dict c) =
    Ok {| Config.download := Config.download c;
          Config.transcode := Config.transcode c;
          Config.network := Config.network c; Config.ui := Config.ui c;
          Config.version := Config.VStr (lit "2.1.0") |}.
Proof.
  destruct c as [[] [] [] [] v]. reflexivity.
Qed.

Lemma from_dict_to_dict_id_iff (c : Config.VDDTConfig) :
  Config.from_dict (Config.to_dict c) = Ok c
  <-> Config.version c = Config.VStr (lit "2.1.0").
Proof.
  assert (Config.from_dict (Config.to_dict c)
          = Ok {| Config.download := Config.download c;
                  Config.transcode := Config.transcode c;
                  Config.network := Config.network c; Config.ui := Config.ui c;
                  Config.version := Config.VStr (lit "2.1.0") |}) as E
    by (destruct c as [[] [] [] [] v]; reflexivity).
  rewrite E. destruct c as [d t n u v]. simpl. split.
  - intros [= <-]. reflexivity.
  - intros ->. reflexivity.
Qed.

(** ** Batch mode *)

Lemma links_of_filter (lines : list str) :
  Batch.links_of lines = List.map strip (List.filter kept lines).
Proof.
  induction lines as [|line lines IH]; [reflexivity|].
  change (Batch.links_of (line :: lines))
    with (match strip line with
          | [] => Batch.links_of lines
          | _ :: _ =>
              if negb (startswith (lit "#") line)
              then strip line :: Batch.links_of lines
              else Batch.links_of lines
          end).
  change (List.filter kept (line :: lines))
    with (if kept line then line :: List.filter kept lines
          else List.filter kept lines).
  unfold kept at 1.
  destruct (strip line) as [|c r] eqn:E; [exact IH|].
  destruct (startswith (lit "#") line); cbn [negb andb List.map];
    rewrite ?E, IH; reflexivity.
Qed.

(** C7.  Batch mode keeps, in file order, the stripped text of exactly the
    lines that are not blank after stripping and that do not start with
    the comment sign; when no line is kept it shows a message and starts no
    download. *)
Theorem batch_links (file_text : str) :
  let lines := Batch.lines_of (Batch.translate_newlines file_text) in
  let links := List.map strip (List.filter kept lines) in
  (links = [] -> Batch.batch file_text = Batch.ShowMessage)
  /\ (links <> [] -> Batch.batch file_text = Batch.DownloadAll links)
  /\ (forall url, In url links <->
        exists line, In line lines /\ url = strip line
                     /\ strip line <> [] /\ startswith (lit "#") line = false).
Proof.
  intros lines links. unfold Batch.batch. fold lines.
  rewrite links_of_filter. fold links. split_and!.
  - intros ->. reflexivity.
  - destruct links; [congruence | reflexivity].
  - intros url. unfold links. rewrite in_map_iff. split.
    + intros (line & <- & Hin). apply filter_In in Hin as [Hin Hk].
      exists line. unfold kept in Hk. apply andb_true_iff in Hk as [Hs Hc].
      split_and!; auto.
      * destruct (strip line); [discriminate | discriminate].
      * apply negb_true_iff, Hc.
    + intros (line & Hin & -> & Hne & Hc). exists line. split; [reflexivity|].
      apply filter_In. split; [exact Hin|]. unfold kept. rewrite Hc.
      destruct (strip line); [congruence | reflexivity].
Qed.

Lemma lines_of_concat (s : str) : List.concat (Batch.lines_of s) = s.
Proof.
  induction s as [|c s IH]; simpl; [reflexivity|].
  destruct (N.eqb c 10); simpl; [rewrite IH; reflexivity|].
  destruct (Batch.lines_of s) as [|l ls]; simpl in *; [subst; reflexivity|].
  rewrite IH. reflexivity.
Qed.

(** The comment test looks at the line as read: a comment sign after
    leading blanks does not make a comment. *)
Lemma indented_comment_kept :
  Batch.links_of [lit "  # note"] = [lit "# note"].
Proof. reflexivity. Qed.

(** ** [extract_domain] *)

Lemma split_nonempty (c : char) (s : str) : split c s <> [].
Proof.
  induction s as [|x s IH]; simpl; [discriminate|].
  destruct (N.eqb x c); [discriminate|].
  destruct (split c s); discriminate.
Qed.

Lemma split_hd (c : char) (s : str) : List.hd [] (split c s) = before c s.
Proof.
  induction s as [|x s IH]; simpl; [reflexivity|].
  destruct (N.eqb x c); [reflexivity|].
  destruct (split c s) as [|w ws] eqn:E; simpl in *.
  - exfalso. exact (split_nonempty c s E).
  - rewrite IH. reflexivity.
Qed.

Lemma before_absent (c : char) (s : str) :
  contains c s = false -> before c s = s.
Proof.
  unfold contains, char_in.
  induction s as [|x s IH]; simpl; [reflexivity|].
  rewrite (N.eqb_sym c x). destruct (N.eqb x c); simpl; [discriminate|].
  intros H. rewrite (IH H). reflexivity.
Qed.

Lemma join_cons (sep w : str) (ws : list str) :
  ws <> [] -> join sep (w :: ws) = w ++ sep ++ join sep ws.
Proof. destruct ws; [congruence | reflexivity]. Qed.

Lemma join_split (c : char) (s : str) : join [c] (split c s) = s.
Proof.
  induction s as [|x s IH]; simpl; [reflexivity|].
  destruct (N.eqb_spec x c) as [->|Hne].
  - rewrite join_cons by apply split_nonempty. rewrite IH. reflexivity.
  - destruct (split c s) as [|w ws] eqn:E.
    + exfalso. exact (split_nonempty c s E).
    + destruct ws as [|w' ws'].
      * simpl in *. congruence.
      * rewrite join_cons by discriminate. rewrite join_cons in IH by discriminate.
        simpl. rewrite <- IH. reflexivity.
Qed.

Lemma split_length_nil (c : char) : length (split c []) = 1%nat.
Proof. reflexivity. Qed.

Lemma last_n_all {A} (n : nat) (l : list A) :
  (length l <= n)%nat -> last_n n l = l.
Proof.
  intros H. unfold last_n. replace (length l - n)%nat with 0%nat by lia.
  reflexivity.
Qed.

Lemma last_n_length {A} (n : nat) (l : list A) :
  (n <= length l)%nat -> length (last_n n l) = n.
Proof. intros H. unfold last_n. rewrite length_drop. lia. Qed.

Lemma join_two_nonempty (sep : str) (ws : list str) :
  sep <> [] -> (2 <= length ws)%nat -> join sep ws <> [].
Proof.
  intros Hsep Hlen. destruct ws as [|w [|w' ws]]; simpl in Hlen; try lia.
  rewrite join_cons by discriminate.
  destruct w; simpl; [|discriminate].
  destruct sep; [congruence | discriminate].
Qed.

Lemma second_to_last_nth (labels : list str) :
  (2 <= length labels)%nat ->
  second_to_last labels = Some (List.nth (length labels - 2) labels []).
Proof.
  intros H. unfold second_to_last.
  rewrite reverse_lookup by lia.
  replace (length labels - S 1)%nat with (length labels - 2)%nat by lia.
  destruct (nth_lookup_or_length labels (length labels - 2) []) as [E|E]; [|lia].
  rewrite E. reflexivity.
Qed.

Lemma second_to_last_short (labels : list str) :
  (length labels < 2)%nat -> second_to_last labels = None.
Proof.
  intros H. unfold second_to_last. apply lookup_ge_None.
  rewrite length_reverse. lia.
Qed.

Lemma kept_labels_short (labels : list str) :
  (length labels <= 2)%nat -> kept_labels labels = labels.
Proof.
  intros H. unfold kept_labels.
  destruct (second_to_last labels) as [l|];
    [destruct (Utils.str_in _ l)|]; apply last_n_all; lia.
Qed.

Lemma claimed_domain_eq (netloc : str) :
  claimed_domain netloc =
    let h := without_www (host_without_port netloc) in
    match h with
    | [] => None
    | _ :: _ => Some (join (lit ".") (kept_labels (split 46 h)))
    end.
Proof.
  unfold claimed_domain. destruct (without_www _); reflexivity.
Qed.


(** ** Cookies *)

Lemma startswith_app (p s : str) : startswith p (p ++ s) = true.
Proof.
  induction p as [|x p IH]; simpl; [reflexivity|].
  rewrite N.eqb_refl. exact IH.
Qed.

Lemma startswith_inv (p s : str) :
  startswith p s = true -> exists rest, s = p ++ rest.
Proof.
  revert s. induction p as [|x p IH]; intros s; simpl.
  - intros _. exists s. reflexivity.
  - destruct s as [|y s]; [discriminate|].
    intros H. apply andb_true_iff in H as [Hxy Hp].
    apply N.eqb_eq in Hxy. subst y. destruct (IH s Hp) as [rest ->].
    exists rest. reflexivity.
Qed.

Lemma lstrip_by_app_keep (f : char -> bool) (a b : str) (c : char) :
  head b = Some c -> f c = false ->
  exists a', lstrip_by f (a ++ b) = a' ++ b.
Proof.
  intros Hb Hc. induction a as [|x a IH]; simpl.
  - exists []. destruct b as [|y b]; [discriminate|].
    injection Hb as ->. simpl. rewrite Hc. reflexivity.
  - destruct (f x); [exact IH|]. exists (x :: a). reflexivity.
Qed.

Lemma strip_keeps_prefix (p rest : str) (c c' : char) :
  head p = Some c -> isspace c = false ->
  last p = Some c' -> isspace c' = false ->
  startswith p (strip (p ++ rest)) = true.
Proof.
  intros Hh Hc Hl Hc'. unfold strip, strip_by.
  rewrite (lstrip_by_id isspace (p ++ rest)).
  2:{ intros x Hx. destruct p as [|y p]; [discriminate|].
      simpl in Hx, Hh. congruence. }
  unfold rstrip_by. rewrite reverse_app.
  destruct (lstrip_by_app_keep isspace (reverse rest) (reverse p) c')
    as [a' E].
  { rewrite head_reverse. exact Hl. }
  { exact Hc'. }
  rewrite E, reverse_app, reverse_involutive. apply startswith_app.
Qed.

Lemma netscape_prefix_stripped (text : str) :
  startswith (lit "# Netscape") text = true ->
  startswith (lit "# Netscape") (strip text) = true.
Proof.
  intros H. apply startswith_inv in H as [rest ->].
  apply (strip_keeps_prefix _ rest 35 101); reflexivity.
Qed.

Lemma split_once_contains (c : char) (s : str) :
  contains c s = true <-> exists a b, split_once c s = Some (a, b).
Proof.
  unfold contains, char_in. induction s as [|x s IH]; simpl.
  - split; [discriminate | intros (a & b & H); discriminate].
  - rewrite (N.eqb_sym c x). destruct (N.eqb x c); simpl.
    + split; [eauto | reflexivity].
    + rewrite IH. split; intros (a & b & H).
      * rewrite H. eauto.
      * destruct (split_once c s) as [[a' b']|]; [eauto | discriminate].
Qed.

Lemma cookie_lines_count (domain : str) (parts : list str) :
  length (DownloaderCore.cookie_lines_of domain parts)
  = length (List.filter is_pair parts).
Proof.
  induction parts as [|part parts IH]; simpl; [reflexivity|].
  unfold is_pair at 1.
  destruct (split_once 61 (strip part)) as [[a b]|] eqn:E.
  - assert (contains 61 (strip part) = true) as ->
      by (apply split_once_contains; eauto).
    simpl. rewrite IH. reflexivity.
  - destruct (contains 61 (strip part)) eqn:Hc; [|exact IH].
    apply split_once_contains in Hc as (a & b & Hc). congruence.
Qed.

Section Cookies.

Variable netloc_of : str -> option str.
Variable fs : FS.t.
Variable target_url : str.
Variable domain : str.

Hypothesis cookies_dir_present : FS.isdir fs (DownloaderCore.cookies_dir fs) = true.
Hypothesis domain_found : Utils.extract_domain netloc_of target_url = Some domain.

Lemma prepare_cookies_candidates :
  DownloaderCore.prepare_cookies_netscape netloc_of fs target_url
  = DownloaderCore.try_candidates fs domain (DownloaderCore.cookies_dir fs) (DownloaderCore.possible_files domain).
Proof.
  unfold DownloaderCore.prepare_cookies_netscape.
  rewrite cookies_dir_present, domain_found. reflexivity.
Qed.

Lemma try_candidates_skip_absent (absent rest : list str) :
  Forall (fun f => FS.exists_ fs (PosixPath.join (DownloaderCore.cookies_dir fs) f) = false) absent ->
  DownloaderCore.try_candidates fs domain (DownloaderCore.cookies_dir fs) (absent ++ rest)
  = DownloaderCore.try_candidates fs domain (DownloaderCore.cookies_dir fs) rest.
Proof.
  induction 1 as [|f absent Hf Habs IH]; simpl; [reflexivity|].
  rewrite Hf. exact IH.
Qed.

Lemma exists_of_file (p : str) (content : result str) (w : bool) :
  FS.nodes fs !! p = Some (FS.File content w) -> FS.exists_ fs p = true.
Proof. unfold FS.exists_. intros ->. reflexivity. Qed.


End Cookies.



(** ** [get_unique_filepath] *)

Lemma lit_inj (a b : string) : lit a = lit b -> a = b.
Proof.
  unfold lit. intros H.
  rewrite <- (string_of_list_ascii_of_string a),
          <- (string_of_list_ascii_of_string b).
  f_equal. revert H.
  generalize (list_ascii_of_string a) (list_ascii_of_string b).
  induction l as [|x l IH]; intros [|y l']; simpl; try discriminate;
    [reflexivity|].
  intros [= Hxy Hl]. f_equal; [|apply IH, Hl].
  unfold chr in Hxy.
  rewrite <- (ascii_N_embedding x), <- (ascii_N_embedding y), Hxy.
  reflexivity.
Qed.

Lemma to_uint_nonnil (n : N) : N.to_uint n <> Decimal.Nil.
Proof.
  intros H. pose proof (Unsigned.of_to n) as E. rewrite H in E.
  simpl in E. subst n. discriminate H.
Qed.

Lemma str_of_N_inj (n m : N) : str_of_N n = str_of_N m -> n = m.
Proof.
  unfold str_of_N. intros H. apply lit_inj in H.
  apply Unsigned.to_uint_inj.
  pose proof (NilZero.usu _ (to_uint_nonnil n)) as Hn.
  pose proof (NilZero.usu _ (to_uint_nonnil m)) as Hm.
  rewrite H in Hn. rewrite Hn in Hm. congruence.
Qed.

Section Unique.

Variable exists_ : str -> bool.
Variables directory name ext : str.

Lemma join_prefix :
  exists prefix, forall s,
    PosixPath.join directory (name ++ lit "_" ++ s ++ ext)
    = prefix ++ name ++ lit "_" ++ s ++ ext.
Proof.
  unfold PosixPath.join.
  destruct name as [|c name'].
  - destruct directory as [|d ds].
    + exists []. reflexivity.
    + destruct (PosixPath.endswith_char PosixPath.sep (d :: ds)).
      * exists (d :: ds). reflexivity.
      * exists ((d :: ds) ++ [PosixPath.sep]). intros s.
        rewrite <- !app_assoc. reflexivity.
  - change (startswith [PosixPath.sep] ((c :: name') ++ lit "_" ++ ?s ++ ext))
      with (N.eqb PosixPath.sep c && true).
    destruct (N.eqb PosixPath.sep c && true).
    + exists []. reflexivity.
    + destruct directory as [|d ds].
      * exists []. reflexivity.
      * destruct (PosixPath.endswith_char PosixPath.sep (d :: ds)).
        -- exists (d :: ds). reflexivity.
        -- exists ((d :: ds) ++ [PosixPath.sep]). intros s.
           rewrite <- !app_assoc. reflexivity.
Qed.

Lemma candidate_inj (j k : N) : candidate directory name ext j = candidate directory name ext k -> j = k.
Proof.
  unfold candidate. destruct join_prefix as [prefix E]. rewrite !E.
  intros H. apply app_inv_head, app_inv_head, app_inv_head in H.
  apply app_inv_tail in H. apply str_of_N_inj, H.
Qed.

Lemma unique_loop_free (fuel : nat) (filepath : str) (counter : N) :
  exists_ filepath = false ->
  Utils.unique_loop exists_ directory name ext fuel filepath counter
  = Some filepath.
Proof. intros H. destruct fuel; simpl; rewrite H; reflexivity. Qed.

Lemma unique_loop_finds (m : nat) :
  forall (filepath : str) (counter : N) (fuel : nat),
    exists_ filepath = true ->
    (forall j, counter <= j < counter + N.of_nat m ->
               exists_ (candidate directory name ext j) = true) ->
    exists_ (candidate directory name ext (counter + N.of_nat m)) = false ->
    (m < fuel)%nat ->
    Utils.unique_loop exists_ directory name ext fuel filepath counter
    = Some (candidate directory name ext (counter + N.of_nat m)).
Proof.
  induction m as [|m IH]; intros filepath counter fuel Hex Hbusy Hfree Hfuel;
    (destruct fuel as [|fuel]; [lia|]); simpl; rewrite Hex.
  - fold (candidate directory name ext counter).
    replace (counter + N.of_nat 0) with counter in * by lia.
    apply unique_loop_free, Hfree.
  - fold (candidate directory name ext counter).
    replace (counter + N.of_nat (S m)) with ((counter + 1) + N.of_nat m)
      in * by lia.
    apply IH.
    + apply Hbusy. lia.
    + intros j Hj. apply Hbusy. lia.
    + exact Hfree.
    + lia.
Qed.

End Unique.

Lemma some_candidate_free (fs : gset (list N)) (directory name ext : list N) :
  exists m : nat,
    (m <= size fs)%nat
    /\ (candidate directory name ext (1 + N.of_nat m) ∉ fs).
Proof.
  destruct (decide (Forall (fun m : nat =>
              candidate directory name ext (1 + N.of_nat m) ∈ fs)
              (seq 0 (S (size fs))))) as [Hall|Hsome].
  - exfalso.
    set (f := fun m : nat => candidate directory name ext (1 + N.of_nat m)).
    assert (NoDup (f <$> seq 0 (S (size fs)))) as Hnd.
    { apply NoDup_fmap_2_strong; [|apply NoDup_seq].
      intros x y _ _ Hxy. apply candidate_inj in Hxy. lia. }
    assert (list_to_set (C := gset (list N)) (f <$> seq 0 (S (size fs))) ⊆ fs) as Hsub.
    { intros p Hp. apply elem_of_list_to_set, list_elem_of_fmap in Hp
        as (m & -> & Hm).
      rewrite Forall_forall in Hall. apply Hall, Hm. }
    apply subseteq_size in Hsub.
    rewrite size_list_to_set in Hsub by exact Hnd.
    rewrite length_fmap, length_seq in Hsub. lia.
  - apply not_Forall_Exists in Hsome; [|intros m; apply _].
    apply Exists_exists in Hsome as (m & Hm & Hfree).
    apply elem_of_seq in Hm. exists m. split; [lia | exact Hfree].
Qed.

Lemma least_free (fs : gset (list N)) (directory name ext : list N) :
  exists m : nat,
    (m <= size fs)%nat
    /\ (candidate directory name ext (1 + N.of_nat m) ∉ fs)
    /\ forall j : nat, (j < m)%nat ->
         candidate directory name ext (1 + N.of_nat j) ∈ fs.
Proof.
  destruct (some_candidate_free fs directory name ext) as (m & Hm & Hfree).
  clear Hm. revert Hfree.
  assert (forall b m : nat, (m <= b)%nat ->
    candidate directory name ext (1 + N.of_nat m) ∉ fs ->
    exists m' : nat, (m' <= m)%nat
      /\ (candidate directory name ext (1 + N.of_nat m') ∉ fs)
      /\ forall j : nat, (j < m')%nat ->
           candidate directory name ext (1 + N.of_nat j) ∈ fs) as Hleast.
  { induction b as [|b IH]; intros k Hk Hfree.
    - exists 0%nat. replace k with 0%nat in Hfree by lia.
      split_and!; [lia | exact Hfree | intros j Hj; lia].
    - destruct (decide (Forall (fun j : nat =>
                  candidate directory name ext (1 + N.of_nat j) ∈ fs)
                  (seq 0 k))) as [Hall|Hsome].
      + exists k. split_and!; [lia | exact Hfree |].
        intros j Hj. rewrite Forall_forall in Hall. apply Hall.
        apply elem_of_seq. lia.
      + apply not_Forall_Exists in Hsome; [|intros j; apply _].
        apply Exists_exists in Hsome as (j & Hj & Hjfree).
        apply elem_of_seq in Hj.
        destruct (IH j) as (m' & Hm' & H1 & H2); [lia | exact Hjfree|].
        exists m'. split_and!; [lia | exact H1 | exact H2]. }
  intros Hfree.
  destruct (Hleast m m (le_n m) Hfree) as (m' & Hm' & H1 & H2).
  destruct (some_candidate_free fs directory name ext) as (b & Hb & Hbfree).
  exists m'. split_and!; [|exact H1 | exact H2].
  destruct (decide (m' <= b)%nat) as [|Hgt]; [lia|].
  exfalso. apply Hbfree, H2. lia.
Qed.

Lemma join_relative (directory file : str) :
  startswith [PosixPath.sep] file = false ->
  PosixPath.join directory file = directory_prefix directory ++ file.
Proof.
  intros H. unfold PosixPath.join, directory_prefix. rewrite H.
  destruct directory as [|d ds]; [reflexivity|].
  destruct (PosixPath.endswith_char PosixPath.sep (d :: ds)); [reflexivity|].
  rewrite <- app_assoc. reflexivity.
Qed.

Lemma splitext_fst_prefix (p : str) :
  exists n, fst (PosixPath.splitext p) = take n p.
Proof.
  unfold PosixPath.splitext.
  destruct (_ <? _)%Z; [|exists (length p); rewrite firstn_all; reflexivity].
  destruct (List.existsb _ _).
  - eexists. reflexivity.
  - exists (length p). rewrite firstn_all. reflexivity.
Qed.

Lemma numbered_relative (filename : str) (k : N) :
  startswith [PosixPath.sep] filename = false ->
  startswith [PosixPath.sep]
    (fst (PosixPath.splitext filename) ++ lit "_" ++ str_of_N k
     ++ snd (PosixPath.splitext filename)) = false.
Proof.
  intros H. destruct (splitext_fst_prefix filename) as [n ->].
  destruct filename as [|c filename]; [destruct n; reflexivity|].
  destruct n as [|n]; [reflexivity|]. exact H.
Qed.


(** ** The download engine *)

Lemma str_eqb_eq (a b : str) : str_eqb a b = true <-> a = b.
Proof.
  revert b. induction a as [|x a IH]; intros [|y b]; simpl;
    try (split; [discriminate | discriminate]); [tauto|].
  rewrite andb_true_iff, N.eqb_eq, IH. split.
  - intros [-> ->]. reflexivity.
  - intros [= -> ->]. split; reflexivity.
Qed.

Lemma str_eqb_refl (a : str) : str_eqb a a = true.
Proof. apply str_eqb_eq. reflexivity. Qed.

Lemma str_eqb_neq (a b : str) : a <> b -> str_eqb a b = false.
Proof.
  intros H. destruct (str_eqb a b) eqn:E; [|reflexivity].
  apply str_eqb_eq in E. contradiction.
Qed.

Lemma dict_get_set (d : Config.dict) (k k' : str) (v : Config.value) :
  Config.dict_get (Config.dict_set d k v) k' =
    if str_eqb k k' then Some v else Config.dict_get d k'.
Proof.
  induction d as [|[k0 v0] d IH]; simpl.
  - reflexivity.
  - destruct (str_eqb k0 k) eqn:E0; simpl.
    + apply str_eqb_eq in E0. subst k0.
      destruct (str_eqb k k'); reflexivity.
    + destruct (str_eqb k0 k') eqn:E1; [|exact IH].
      apply str_eqb_eq in E1. subst k0.
      destruct (str_eqb k k') eqn:E2; [|reflexivity].
      apply str_eqb_eq in E2. subst k'. rewrite str_eqb_refl in E0.
      discriminate E0.
Qed.

Section CoreFacts.

Import Config DownloaderCore.

Variable engine_extract_info : dict -> str -> result (option dict).
Variable engine_download : dict -> list str -> result unit.
Variable from_ytdlp : dict -> result VideoInfo.
Variable parse_upload_date : value -> result str.
Variable display_formats : list FormatInfo -> result unit.


Lemma download_opts_retries (self : core) (format_id outtmpl : str)
    (ydl_opts : option dict) :
  let opts := download_opts self format_id outtmpl ydl_opts in
  dict_get opts (lit "retries") = Some (max_retries (download (config self)))
  /\ dict_get opts (lit "fragment_retries")
     = Some (max_retries (download (config self))).
Proof.
  unfold download_opts. cbv zeta. rewrite !dict_get_set. split; reflexivity.
Qed.

Lemma engine_calls_app (a b : list event) :
  engine_calls (a ++ b)
  = (engine_calls a + engine_calls b)%nat.
Proof. unfold engine_calls. rewrite List.filter_app, length_app. reflexivity. Qed.

Lemma get_format_lists_one_call (self : core) (url : str)
    (ydl_opts : option dict) :
  engine_calls (fst (get_format_lists engine_extract_info from_ytdlp display_formats self url ydl_opts)) = 1%nat.
Proof.
  unfold DownloaderCore.get_format_lists.
  destruct (engine_extract_info _ url) as [[[|kv info]|]|e].
  - reflexivity.
  - destruct (from_ytdlp (kv :: info)) as [vi|e].
    + destruct (display_formats (vi_formats vi)) as [[]|e]; [reflexivity|].
      destruct e as [[] msg]; reflexivity.
    + destruct e as [[] msg]; reflexivity.
  - reflexivity.
  - destruct e as [[] msg]; reflexivity.
Qed.

Lemma get_format_lists_contains (self : core) (url : str)
    (ydl_opts : option dict) (e : exc) :
  engine_extract_info (merged_opts self ydl_opts) url = Raise e ->
  is_Exception e = true ->
  snd (get_format_lists engine_extract_info from_ytdlp display_formats self url ydl_opts) = Ok (None, [])
  /\ exists m, last (fst (get_format_lists engine_extract_info from_ytdlp display_formats self url ydl_opts)) = Some (Print m).
Proof.
  intros He Hexc. unfold DownloaderCore.get_format_lists. rewrite He.
  destruct e as [[] msg]; try discriminate Hexc;
    cbn [exc_cls is_Exception fst snd];
    (split; [reflexivity|]); eexists; reflexivity.
Qed.

Lemma download_at_most_one_call (self : core) (url format_id output_dir : str)
    (ydl_opts info_dict : option dict) :
  (engine_calls
     (fst (download_ engine_download parse_upload_date self url format_id output_dir ydl_opts info_dict)) <= 1)%nat.
Proof.
  unfold DownloaderCore.download_.
  destruct (outtmpl_for _ _ _) as [outtmpl|e];
    [|unfold engine_calls; simpl; lia].
  destruct (engine_download _ _) as [[]|e].
  - unfold engine_calls. simpl. lia.
  - destruct e as [[] msg]; unfold engine_calls; simpl; lia.
Qed.

Lemma download_contains (self : core) (url format_id output_dir : str)
    (ydl_opts info_dict : option dict) (outtmpl : str) (e : exc) :
  outtmpl_for parse_upload_date output_dir info_dict = Ok outtmpl ->
  engine_download (download_opts self format_id outtmpl ydl_opts) [url]
    = Raise e ->
  is_Exception e = true \/ exc_cls e = KeyboardInterrupt ->
  snd (download_ engine_download parse_upload_date self url format_id output_dir ydl_opts info_dict) = Ok false
  /\ exists m,
       last (fst (download_ engine_download parse_upload_date self url format_id output_dir ydl_opts info_dict))
       = Some (Print m).
Proof.
  intros Ho He Hexc. unfold DownloaderCore.download_. rewrite Ho, He.
  destruct e as [[] msg]; cbn [exc_cls is_Exception fst snd] in *;
    try (destruct Hexc; discriminate);
    (split; [reflexivity|]); eexists; reflexivity.
Qed.

Lemma download_engine_opts (self : core) (url format_id output_dir : str)
    (ydl_opts info_dict : option dict) (opts : dict) (urls : list str) :
  In (EngineDownload opts urls)
     (fst (download_ engine_download parse_upload_date self url format_id output_dir ydl_opts info_dict)) ->
  urls = [url]
  /\ dict_get opts (lit "retries") = Some (max_retries (download (config self)))
  /\ dict_get opts (lit "fragment_retries")
     = Some (max_retries (download (config self))).
Proof.
  unfold DownloaderCore.download_.
  destruct (outtmpl_for _ _ _) as [outtmpl|e]; [|intros []].
  pose proof (download_opts_retries self format_id outtmpl ydl_opts) as [R1 R2].
  assert (forall tail : list event,
            (forall o u, ~ In (EngineDownload o u) tail) ->
            In (EngineDownload opts urls)
               ([Log (PreparingDownload url);
                 Log (DownloadParameters format_id output_dir);
                 Print PreparingBanner;
                 Print (OutputTemplate
                   (dict_get (download_opts self format_id outtmpl ydl_opts)
                      (lit "outtmpl")));
                 Print (ChosenFormat format_id);
                 EngineDownload
                   (download_opts self format_id outtmpl ydl_opts) [url]]
                ++ tail) ->
            urls = [url]
            /\ dict_get opts (lit "retries")
               = Some (max_retries (download (config self)))
            /\ dict_get opts (lit "fragment_retries")
               = Some (max_retries (download (config self)))) as Hin.
  { intros tail Htail H. apply in_app_or in H as [H|H].
    - simpl in H. destruct H as [H|[H|[H|[H|[H|[H|[]]]]]]]; try discriminate H.
      injection H as <- <-. split_and!; [reflexivity | exact R1 | exact R2].
    - exfalso. exact (Htail _ _ H). }
  destruct (engine_download _ _) as [[]|e].
  - apply Hin. intros o u [H|[H|[H|[]]]]; discriminate H.
  - destruct e as [[] msg]; cbn [exc_cls is_Exception fst];
      try (apply Hin; intros o u H; simpl in H;
           repeat (destruct H as [H|H]; [discriminate H|]); exact H).
    all: intros H; apply (Hin []); [intros o u []|rewrite app_nil_r; exact H].
Qed.

End CoreFacts.

Section CoreTheorem.

Import Config DownloaderCore.

Variable engine_extract_info : dict -> str -> result (option dict).
Variable engine_download : dict -> list str -> result unit.
Variable from_ytdlp : dict -> result VideoInfo.
Variable parse_upload_date : value -> result str.
Variable display_formats : list FormatInfo -> result unit.

(** C2.  Whatever the engine does, [get_format_lists] calls it once and
    [download] at most once.  When the engine call raises an exception
    ([download] also handles the keyboard interrupt), [get_format_lists]
    returns [(None, [])] and [download] returns [False], each after a
    message has been printed, and nothing is raised.  The options
    [download] hands to the engine carry the configured number of retries
    under 'retries' and 'fragment_retries'; the calls are not wrapped in
    [retry_on_error], which would call a failing engine four times. *)
Theorem engine_errors_contained (self : core)
    (url format_id output_dir : str) (ydl_opts info_dict : option dict) :
  let listing :=
    get_format_lists engine_extract_info from_ytdlp display_formats self url ydl_opts in
  let fetched :=
    download_ engine_download parse_upload_date self url format_id
      output_dir ydl_opts info_dict in
  engine_calls (fst listing) = 1%nat
  /\ (engine_calls (fst fetched) <= 1)%nat
  /\ (forall e : exc,
        engine_extract_info (merged_opts self ydl_opts) url = Raise e ->
        is_Exception e = true ->
        snd listing = Ok (None, [])
        /\ exists m, last (fst listing) = Some (Print m))
  /\ (forall (outtmpl : str) (e : exc),
        outtmpl_for parse_upload_date output_dir info_dict = Ok outtmpl ->
        engine_download (download_opts self format_id outtmpl ydl_opts) [url]
          = Raise e ->
        is_Exception e = true \/ exc_cls e = KeyboardInterrupt ->
        snd fetched = Ok false
        /\ exists m, last (fst fetched) = Some (Print m))
  /\ (forall (opts : dict) (urls : list str),
        In (EngineDownload opts urls) (fst fetched) ->
        urls = [url]
        /\ dict_get opts (lit "retries")
           = Some (max_retries (download (config self)))
        /\ dict_get opts (lit "fragment_retries")
           = Some (max_retries (download (config self)))).
Proof.
  intros listing fetched. split_and!.
  - apply get_format_lists_one_call.
  - apply download_at_most_one_call.
  - intros e He Hexc. apply (get_format_lists_contains _ _ _ _ _ _ e He Hexc).
  - intros outtmpl e Ho He Hexc.
    apply (download_contains _ _ _ _ _ _ _ _ outtmpl e Ho He Hexc).
  - intros opts urls Hin.
    apply (download_engine_opts _ _ _ _ _ _ _ _ opts urls Hin).
Qed.

Lemma get_format_lists_lets_interrupt_through (self : core) (url : str)
    (ydl_opts : option dict) (e : exc) :
  engine_extract_info (merged_opts self ydl_opts) url = Raise e ->
  is_Exception e = false ->
  snd (get_format_lists engine_extract_info from_ytdlp display_formats self url ydl_opts)
  = Raise e.
Proof.
  intros He Hexc. unfold get_format_lists. rewrite He.
  destruct e as [[] msg]; try discriminate Hexc; reflexivity.
Qed.

End CoreTheorem.

Lemma retry_on_error_repeats (A : Type) (e : exc) :
  is_Exception e = true ->
  DownloaderCore.retry_on_error 3 (fun _ : nat => @Raise A e) = (4%nat, Raise e).
Proof.
  intros H. unfold DownloaderCore.retry_on_error. simpl. rewrite H.
  reflexivity.
Qed.

Lemma engine_errors_contained_witness :
  snd (DownloaderCore.get_format_lists failing_extract_info
         (fun _ => Raise unreachable) (fun _ => Ok tt) default_core
         (lit "https://example.com/v") None)
  = Ok (None, [])
  /\ snd (DownloaderCore.download_ failing_download
            (fun _ => Ok (lit "2025-01-15")) default_core
            (lit "https://example.com/v") (lit "best") (lit "out") None None)
     = Ok false.
Proof.
  pose proof (engine_errors_contained failing_extract_info failing_download
                (fun _ => Raise unreachable) (fun _ => Ok (lit "2025-01-15"))
                (fun _ => Ok tt) default_core (lit "https://example.com/v") (lit "best")
                (lit "out") None None) as H.
  cbv zeta in H. destruct H as (_ & _ & H1 & H2 & _). split.
  - apply (H1 unreachable); reflexivity.
  - destruct (H2 (lit "out/%(title)s.%(ext)s") unreachable) as [E _];
      [reflexivity | reflexivity | left; reflexivity | exact E].
Defined.


Local Open Scope Z_scope.

(** ** [format_filesize] *)

Lemma hundredths_Qmake (x : Q) (v : Z) (p : positive) :
  (x == v # p)%Q -> Utils.hundredths x = div_half_even (100 * v) (Zpos p).
Proof.
  intros H. unfold Utils.hundredths.
  assert (x * 100 == (100 * v) # p)%Q as Hy.
  { rewrite H. unfold Qeq. simpl. lia. }
  rewrite (Qfloor_comp _ _ Hy).
  change (Qfloor (100 * v # p)) with ((100 * v) / Zpos p).
  unfold Qminus.
  rewrite (Qcompare_comp _ _ (Qplus_comp _ _ Hy _ _ (Qeq_refl _)) _ _ (Qeq_refl _)).
  unfold div_half_even.
  set (a := 100 * v). set (q := a / Z.pos p).
  assert (a mod Z.pos p = a - q * Z.pos p) as Hr.
  { unfold q. rewrite Z.mod_eq by lia. lia. }
  unfold Qcompare, Qminus, Qplus, Qopp, inject_Z. cbn [Qnum Qden].
  rewrite Hr.
  replace ((a * 1 + - q * Z.pos p) * 2)
    with (2 * (a - q * Z.pos p)) by lia.
  replace (1 * Z.pos (p * 1)) with (Z.pos p) by lia.
  destruct (Z.compare_spec (2 * (a - q * Z.pos p)) (Z.pos p)) as [E|E|E].
  - rewrite E, !Z.ltb_irrefl. reflexivity.
  - apply Z.ltb_lt in E. rewrite E. reflexivity.
  - pose proof E as E'. apply Z.ltb_lt in E'. rewrite E'.
    replace (2 * (a - q * Z.pos p) <? Z.pos p) with false; [reflexivity|].
    symmetry. apply Z.ltb_ge. lia.
Qed.

Lemma Qle_bool_1024 (x : Q) (v : Z) (p : positive) :
  (x == v # p)%Q -> Qle_bool 1024 x = (1024 * Zpos p <=? v).
Proof.
  intros H. apply eq_true_iff_eq. rewrite Qle_bool_iff, Z.leb_le, H.
  unfold Qle. simpl. lia.
Qed.

Lemma Qdiv_1024 (x : Q) (v : Z) (p : positive) :
  (x == v # p)%Q -> (x / 1024 == v # (1024 * p))%Q.
Proof. intros H. rewrite H. unfold Qeq, Qdiv, Qmult, Qinv. simpl. lia. Qed.

Lemma format_loop_scale (us : list str) (last_unit : str) :
  forall (x : Q) (v : Z) (p : positive),
    (x == v # p)%Q ->
    Utils.format_loop us last_unit x = scale_loop us last_unit v p.
Proof.
  induction us as [|unit us IH]; intros x v p H; simpl.
  - unfold Utils.format_2f. rewrite (hundredths_Qmake x v p H). reflexivity.
  - rewrite (Qle_bool_1024 x v p H).
    rewrite Z.leb_antisym, negb_involutive.
    destruct (v <? 1024 * Z.pos p).
    + unfold Utils.format_2f. rewrite (hundredths_Qmake x v p H). reflexivity.
    + apply IH, Qdiv_1024, H.
Qed.

Lemma float_of_int_exact (n : Z) :
  0 <= n < 2 ^ 53 -> Utils.float_of_int n = Ok (inject_Z n).
Proof.
  intros H. unfold Utils.float_of_int.
  rewrite Z.abs_eq by lia.
  destruct (Z.eqb_spec n 0) as [->|Hn]; [reflexivity|].
  assert (Z.log2 n < 53) by (apply Z.log2_lt_pow2; lia).
  replace (Z.log2 n + 1 <=? 53) with true; [reflexivity|].
  symmetry. apply Z.leb_le. lia.
Qed.

Lemma float_of_int_integer (n : Z) (x : Q) :
  0 <= n -> Utils.float_of_int n = Ok x ->
  exists v, 0 <= v /\ x = inject_Z v.
Proof.
  intros Hn. unfold Utils.float_of_int.
  rewrite (Z.abs_eq n Hn).
  set (bits := if n =? 0 then 0 else Z.log2 n + 1).
  destruct (bits <=? 53).
  { intros [= <-]. exists n. split; [lia | reflexivity]. }
  set (q' := if (_ || _)%bool then _ else _).
  destruct (Z.shiftl 1 1024 <=? Z.shiftl q' (bits - 53)); [discriminate|].
  intros [= <-]. eexists. split; [|reflexivity].
  assert (0 <= q') as Hq.
  { pose proof (proj2 (Z.shiftr_nonneg n (bits - 53)) Hn).
    subst q'. destruct (_ || _)%bool; lia. }
  pose proof (proj2 (Z.shiftl_nonneg q' (bits - 53)) Hq).
  destruct (Z.sgn_spec n) as [[? E]|[[? E]|[? E]]]; rewrite E; lia.
Qed.

Lemma float_of_int_overflow :
  Utils.float_of_int (2 ^ 1024)
  = Raise (Exc OverflowError (lit "int too large to convert to float")).
Proof. vm_compute. reflexivity. Qed.

Lemma scale_loop_units (v : Z) :
  0 <= v ->
  exists k : nat,
    first_unit_below v k
    /\ scale_loop (removelast Utils.units) (List.last Utils.units []) v 1
       = rendered v k.
Proof.
  intros Hv. unfold first_unit_below.
  change (removelast Utils.units)
    with [lit "B"; lit "KB"; lit "MB"; lit "GB"].
  change (List.last Utils.units []) with (lit "TB").
  cbn [scale_loop].
  change (Z.pos 1) with (1024 ^ 0).
  change (Z.pos (1024 * 1)) with (1024 ^ 1).
  change (Z.pos (1024 * (1024 * 1))) with (1024 ^ 2).
  change (Z.pos (1024 * (1024 * (1024 * 1)))) with (1024 ^ 3).
  change (Z.pos (1024 * (1024 * (1024 * (1024 * 1))))) with (1024 ^ 4).
  destruct (Z.ltb_spec v (1024 * 1024 ^ 0)) as [H0|H0].
  { exists 0%nat. split_and!; [lia | intros j Hj; lia | intros _; simpl; lia
                              | reflexivity]. }
  destruct (Z.ltb_spec v (1024 * 1024 ^ 1)) as [H1|H1].
  { exists 1%nat. split_and!; [lia | | intros _; simpl; lia | reflexivity].
    intros j Hj. destruct j as [|j]; [simpl; lia | lia]. }
  destruct (Z.ltb_spec v (1024 * 1024 ^ 2)) as [H2|H2].
  { exists 2%nat. split_and!; [lia | | intros _; simpl; lia | reflexivity].
    intros j Hj. destruct j as [|[|j]]; [simpl; lia | simpl; lia | lia]. }
  destruct (Z.ltb_spec v (1024 * 1024 ^ 3)) as [H3|H3].
  { exists 3%nat. split_and!; [lia | | intros _; simpl; lia | reflexivity].
    intros j Hj.
    destruct j as [|[|[|j]]]; [simpl; lia | simpl; lia | simpl; lia | lia]. }
  exists 4%nat. split_and!; [lia | | intros Hk; lia | reflexivity].
  intros j Hj.
  destruct j as [|[|[|[|j]]]];
    [simpl; lia | simpl; lia | simpl; lia | simpl; lia | lia].
Qed.

(** C9, as stated, fails: 500 bytes are rendered in B, although the
    largest unit in which 500 scales below 1024 is TB; and an integer that
    no float can hold makes the call raise. *)
Lemma format_filesize_not_largest_unit :
  Utils.format_filesize (Some 500) = Ok (lit "500.00 B")
  /\ largest_unit_below 500 = 4%nat
  /\ Utils.format_filesize (Some 500)
     <> Ok (rendered 500 (largest_unit_below 500))
  /\ Utils.format_filesize (Some (2 ^ 1024))
     = Raise (Exc OverflowError (lit "int too large to convert to float")).
Proof.
  split_and!; [vm_compute; reflexivity | vm_compute; reflexivity | |
               vm_compute; reflexivity].
  vm_compute. intros H. discriminate H.
Qed.

(** C9, amended.  [format_filesize] returns "未知" for [None] and for a
    negative count.  For a count [n] from 0 up to 2^53 (which [float]
    holds exactly) it returns [n / 1024^k] rounded to two decimals, a
    space, and the k-th of B, KB, MB, GB, TB, where k is the first unit in
    which [n] scales below 1024, and TB when there is none.  For a larger
    count the same holds of the float nearest to [n], and the call raises
    when there is no such float. *)
Theorem format_filesize_spec :
  Utils.format_filesize None = Ok Utils.unknown
  /\ (forall n : Z, n < 0 -> Utils.format_filesize (Some n) = Ok Utils.unknown)
  /\ (forall n : Z, 0 <= n < 2 ^ 53 ->
        exists k : nat,
          first_unit_below n k
          /\ Utils.format_filesize (Some n) = Ok (rendered n k))
  /\ (forall n : Z, 0 <= n ->
        match Utils.float_of_int n with
        | Raise e => Utils.format_filesize (Some n) = Raise e
        | Ok x =>
            exists (v : Z) (k : nat),
              x = inject_Z v /\ first_unit_below v k
              /\ Utils.format_filesize (Some n) = Ok (rendered v k)
        end).
Proof.
  assert (forall n v : Z, 0 <= n -> 0 <= v ->
            Utils.float_of_int n = Ok (inject_Z v) ->
            exists k : nat,
              first_unit_below v k
              /\ Utils.format_filesize (Some n) = Ok (rendered v k)) as Hmain.
  { intros n v Hn Hv Hf. unfold Utils.format_filesize.
    replace (n <? 0) with false by (symmetry; apply Z.ltb_ge; exact Hn).
    rewrite Hf. cbn [bind].
    destruct (scale_loop_units v Hv) as (k & Hk & E).
    exists k. split; [exact Hk|].
    rewrite (format_loop_scale _ _ (inject_Z v) v 1 (Qeq_refl _)), E.
    reflexivity. }
  split_and!.
  - reflexivity.
  - intros n Hn. unfold Utils.format_filesize.
    replace (n <? 0) with true by (symmetry; apply Z.ltb_lt; exact Hn).
    reflexivity.
  - intros n Hn. apply Hmain; [lia | lia |].
    apply float_of_int_exact, Hn.
  - intros n Hn. destruct (Utils.float_of_int n) as [x|e] eqn:Hf.
    + destruct (float_of_int_integer n x Hn Hf) as (v & Hv & ->).
      destruct (Hmain n v Hn Hv Hf) as (k & Hk & E).
      exists v, k. split_and!; [reflexivity | exact Hk | exact E].
    + unfold Utils.format_filesize.
      replace (n <? 0) with false by (symmetry; apply Z.ltb_ge; exact Hn).
      rewrite Hf. reflexivity.
Qed.

Lemma format_filesize_spec_witness :
  exists k : nat,
    first_unit_below 1536 k
    /\ Utils.format_filesize (Some 1536) = Ok (rendered 1536 k).
Proof.
  destruct format_filesize_spec as (_ & _ & H & _).
  apply (H 1536). lia.
Defined.

(** ** The text interface *)

Lemma py_mod_bounds (a b : Z) :
  0 < b -> exists r, Tui.py_mod a b = Ok r /\ 0 <= r < b.
Proof.
  intros Hb. unfold Tui.py_mod.
  destruct (Z.eqb_spec b 0) as [->|_]; [lia|].
  exists (a mod b). split; [reflexivity | apply Z.mod_pos_bound, Hb].
Qed.

Lemma py_index_in_bounds {A} (l : list A) (i : Z) :
  in_bounds i l -> exists x, Tui.py_index l i = Ok x /\ l !! Z.to_nat i = Some x.
Proof.
  intros [H0 H1]. unfold Tui.py_index.
  replace (i <? 0) with false by (symmetry; apply Z.ltb_ge; lia).
  replace ((0 <=? i) && (i <? Z.of_nat (length l)))%bool with true.
  2:{ symmetry. apply andb_true_iff. split; [apply Z.leb_le | apply Z.ltb_lt]; lia. }
  destruct (l !! Z.to_nat i) as [x|] eqn:E; [eauto|].
  apply lookup_ge_None in E. lia.
Qed.

Lemma length_pos_of_ne {A} (l : list A) : l <> [] -> 0 < Z.of_nat (length l).
Proof. destruct l; [congruence | simpl; lia]. Qed.

Section SelectFacts.

Variable V : Type.

Lemma select_key_bounds (d : Tui.select_dialog V) (key : Z) :
  Tui.sd_options V d <> [] ->
  in_bounds (Tui.sd_selected V d) (Tui.sd_options V d) ->
  match Tui.select_key V d key with
  | Tui.Continue d' =>
      Tui.sd_options V d' = Tui.sd_options V d
      /\ in_bounds (Tui.sd_selected V d') (Tui.sd_options V d')
  | Tui.Return _ => True
  | Tui.Escape _ => False
  end.
Proof.
  intros Hne Hb. pose proof (length_pos_of_ne _ Hne) as Hlen.
  unfold Tui.select_key.
  destruct ((key =? Tui.KEY_UP) || (key =? Tui.ord "k"))%bool.
  { destruct (py_mod_bounds (Tui.sd_selected V d - 1) _ Hlen) as (r & -> & Hr).
    split; [reflexivity | exact Hr]. }
  destruct ((key =? Tui.KEY_DOWN) || (key =? Tui.ord "j"))%bool.
  { destruct (py_mod_bounds (Tui.sd_selected V d + 1) _ Hlen) as (r & -> & Hr).
    split; [reflexivity | exact Hr]. }
  destruct (Tui.key_in [10; 13] key).
  { destruct (py_index_in_bounds _ _ Hb) as (x & -> & _). exact I. }
  destruct (Tui.key_in [Tui.ord "q"; Tui.ord "Q"] key); [exact I|].
  destruct ((Tui.ord "1" <=? key) && (key <=? Tui.ord "9"))%bool eqn:Hdigit;
    [|split; [reflexivity | exact Hb]].
  destruct (Z.ltb_spec (key - Tui.ord "1") (Z.of_nat (length (Tui.sd_options V d))))
    as [Hlt|Hge]; [|split; [reflexivity | exact Hb]].
  apply andb_true_iff in Hdigit as [H1 _]. apply Z.leb_le in H1.
  destruct (py_index_in_bounds (Tui.sd_options V d) (key - Tui.ord "1")) as (x & -> & _);
    [split; lia | exact I].
Qed.

End SelectFacts.

Lemma draw_items_bound (items : list Tui.menu_item) (i : nat) (y h : Z) :
  Forall (fun idx => (i <= idx < i + length items)%nat) (Tui.draw_items items i y h).
Proof.
  revert i y. induction items as [|it items IH]; intros i y; simpl;
    [constructor|].
  destruct (h - 4 <=? y); [constructor|].
  assert (Forall (fun idx => (i <= idx < i + S (length items))%nat)
            (Tui.draw_items items (S i) (y + 1) h)) as Hrest.
  { eapply Forall_impl; [apply IH|]. simpl. intros idx Hidx. lia. }
  destruct (Tui.mi_type it); [exact Hrest | exact Hrest |].
  constructor; [lia | exact Hrest].
Qed.

Lemma draw_selectable (a : Tui.app) (h w : Z) (ok : bool) (sel : list nat) :
  Tui.app_selectable (Tui.draw a h w ok) = Some sel ->
  Tui.app_selectable a = Some sel \/ sel = Tui.draw_items Tui.main_items 0 4 h.
Proof.
  unfold Tui.draw. destruct ((h <? 10) || (w <? 40))%bool; [auto|].
  destruct ok; [|auto]. simpl. intros [= <-]. auto.
Qed.

Lemma draw_items_menu_indices (h : Z) :
  menu_indices (Tui.draw_items Tui.main_items 0 4 h).
Proof.
  eapply Forall_impl; [apply draw_items_bound|]. simpl. intros idx H. lia.
Qed.

Section AppFacts.

Variable effect : Tui.callback -> result bool.

Lemma run_callback_keeps (a : Tui.app) (cb : option Tui.callback) :
  match Tui.run_callback effect a cb with
  | Ok a' => Tui.app_menu_index a' = Tui.app_menu_index a
             /\ Tui.app_selectable a' = Tui.app_selectable a
  | Raise e => from_callback effect e
  end.
Proof.
  unfold Tui.run_callback. destruct cb as [c|]; [|split; reflexivity].
  destruct (effect c) as [b|e] eqn:E; [split; reflexivity|].
  exists c. exact E.
Qed.

Lemma activate_keeps (a : Tui.app) (sel : list nat) (index : Z) :
  menu_indices sel -> in_bounds index sel ->
  match Tui.activate effect a sel index with
  | Ok a' => Tui.app_menu_index a' = Tui.app_menu_index a
             /\ Tui.app_selectable a' = Tui.app_selectable a
  | Raise e => from_callback effect e
  end.
Proof.
  intros Hsel Hb. unfold Tui.activate.
  destruct (py_index_in_bounds sel index Hb) as (idx & -> & Hidx).
  cbn [bind].
  assert (in_bounds (Z.of_nat idx) Tui.main_items) as Hi.
  { unfold menu_indices in Hsel. rewrite Forall_forall in Hsel.
    pose proof (Hsel idx (list_elem_of_lookup_2 _ _ _ Hidx)).
    unfold in_bounds. lia. }
  destruct (py_index_in_bounds Tui.main_items _ Hi) as (it & -> & _).
  cbn [bind]. apply run_callback_keeps.
Qed.

Lemma quick_select_keeps (a : Tui.app) (sel : list nat) (index : Z) :
  Tui.app_selectable a = Some sel -> menu_indices sel -> 0 <= index ->
  match Tui.quick_select effect a index with
  | Ok a' => Tui.app_menu_index a' = Tui.app_menu_index a
             /\ Tui.app_selectable a' = Tui.app_selectable a
  | Raise e => from_callback effect e
  end.
Proof.
  intros Ha Hsel Hi.
  assert (Tui.selectable_of a = Ok sel) as E
    by (unfold Tui.selectable_of; rewrite Ha; reflexivity).
  unfold Tui.quick_select. rewrite E. cbn [bind]. destruct (Z.ltb_spec index (Z.of_nat (length sel))).
  - apply activate_keeps; [exact Hsel | split; lia].
  - split; reflexivity.
Qed.

Lemma handle_input_bounds (a : Tui.app) (key : Z) (sel : list nat) :
  Tui.app_selectable a = Some sel ->
  menu_indices sel ->
  sel <> [] ->
  in_bounds (Tui.app_menu_index a) sel ->
  match Tui.handle_input effect a key with
  | Ok a' =>
      Tui.app_selectable a' = Some sel /\ in_bounds (Tui.app_menu_index a') sel
  | Raise e => from_callback effect e
  end.
Proof.
  intros Ha Hsel Hne Hb. pose proof (length_pos_of_ne _ Hne) as Hlen.
  assert (forall r : result Tui.app,
            match r with
            | Ok a' => Tui.app_menu_index a' = Tui.app_menu_index a
                       /\ Tui.app_selectable a' = Tui.app_selectable a
            | Raise e => from_callback effect e
            end ->
            match r with
            | Ok a' => Tui.app_selectable a' = Some sel
                       /\ in_bounds (Tui.app_menu_index a') sel
            | Raise e => from_callback effect e
            end) as Hkeep.
  { intros [a'|e]; [|trivial]. intros [-> ->]. split; assumption. }
  unfold Tui.handle_input.
  destruct (key =? -1); [split; assumption|].
  assert (Tui.selectable_of a = Ok sel) as E
    by (unfold Tui.selectable_of; rewrite Ha; reflexivity).
  rewrite E. cbn [bind].
  destruct ((key =? Tui.KEY_UP) || (key =? Tui.ord "k"))%bool.
  { destruct sel as [|s sel']; [congruence|].
    destruct (py_mod_bounds (Tui.app_menu_index a + -1) _ Hlen) as (r & -> & Hr).
    cbn [bind Tui.app_selectable Tui.app_menu_index]. split; [exact Ha | exact Hr]. }
  destruct ((key =? Tui.KEY_DOWN) || (key =? Tui.ord "j"))%bool.
  { destruct sel as [|s sel']; [congruence|].
    destruct (py_mod_bounds (Tui.app_menu_index a + 1) _ Hlen) as (r & -> & Hr).
    cbn [bind Tui.app_selectable Tui.app_menu_index]. split; [exact Ha | exact Hr]. }
  destruct (Tui.key_in [10; 13] key).
  { destruct sel as [|s sel'] eqn:Es; [congruence|]. rewrite <- Es in *.
    apply Hkeep, activate_keeps; assumption. }
  destruct (Tui.key_in [Tui.ord "q"; Tui.ord "Q"] key).
  { apply Hkeep, run_callback_keeps. }
  destruct (Tui.key_in [Tui.ord "h"; Tui.ord "H"] key); [split; assumption|].
  repeat match goal with
         | |- context [if ?b then Tui.quick_select effect a ?i else _] =>
             destruct b;
             [apply Hkeep, (quick_select_keeps a sel i Ha Hsel); lia|]
         end.
  split; assumption.
Qed.

End AppFacts.

(** *** The file browser *)

Section BrowserFacts.

Variable os : Tui.os_env.

Lemma refresh_items_listed (d : Tui.file_browser) (entries : list str) :
  Tui.listdir os (Tui.fb_current_path d) = Ok entries ->
  exists d', Tui.refresh_items os d = Ok d'
             /\ Tui.fb_selected d' = 0
             /\ in_bounds (Tui.fb_selected d') (Tui.fb_items d').
Proof.
  intros H. unfold Tui.refresh_items. rewrite H. eexists. split; [reflexivity|].
  split; [reflexivity|]. unfold in_bounds. cbn [Tui.fb_selected Tui.fb_items].
  rewrite length_app. simpl. lia.
Qed.

Lemma browser_key_move_bounds (d : Tui.file_browser) (key : Z) :
  Tui.fb_items d <> [] ->
  (key = Tui.KEY_UP \/ key = Tui.ord "k" \/ key = Tui.KEY_DOWN \/ key = Tui.ord "j") ->
  exists d', Tui.browser_key os d key = Tui.Continue d'
             /\ Tui.fb_items d' = Tui.fb_items d
             /\ in_bounds (Tui.fb_selected d') (Tui.fb_items d').
Proof.
  intros Hne Hkey. pose proof (length_pos_of_ne _ Hne) as Hlen.
  change (Tui.ord "k") with 107 in *. change (Tui.ord "j") with 106 in *.
  unfold Tui.KEY_UP, Tui.KEY_DOWN in Hkey.
  unfold Tui.browser_key.
  change (Tui.ord "k") with 107. change (Tui.ord "j") with 106.
  unfold Tui.KEY_UP, Tui.KEY_DOWN.
  destruct (Z.eqb_spec key (-1)); [lia|].
  destruct ((key =? 259) || (key =? 107))%bool eqn:Eup.
  { destruct (py_mod_bounds (Tui.fb_selected d - 1) _ Hlen) as (r & -> & Hr).
    eexists. split; [reflexivity|]. split; [reflexivity | exact Hr]. }
  apply orb_false_iff in Eup as [E1 E2].
  apply Z.eqb_neq in E1, E2.
  replace ((key =? 258) || (key =? 106))%bool with true.
  2:{ symmetry. apply orb_true_iff. rewrite !Z.eqb_eq. lia. }
  destruct (py_mod_bounds (Tui.fb_selected d + 1) _ Hlen) as (r & -> & Hr).
  eexists. split; [reflexivity|]. split; [reflexivity | exact Hr].
Qed.

End BrowserFacts.

(** C1, failing input.  The file browser is opened on [/home], which
    holds the directories [a] and [b]; two presses of the down key select
    [b], the index 2 of 3 entries.  Enter on [b], which may not be listed,
    leaves 2 entries and the index 2: out of bounds, and the next Enter
    raises [IndexError]. *)
Theorem browser_selected_out_of_bounds :
  exists d0 d3,
    browser_at_home = Ok d0
    /\ in_bounds (Tui.fb_selected d0) (Tui.fb_items d0)
    /\ browser_run locked_os d0 [Tui.KEY_DOWN; Tui.KEY_DOWN] = Tui.Continue
         {| Tui.fb_height := 20; Tui.fb_current_path := lit "/home"; Tui.fb_selected := 2;
            Tui.fb_items := Tui.fb_items d0; Tui.fb_scroll_offset := 0 |}
    /\ length (Tui.fb_items d0) = 3%nat
    /\ browser_run locked_os d0 [Tui.KEY_DOWN; Tui.KEY_DOWN; 10] = Tui.Continue d3
    /\ Tui.fb_items d3 <> []
    /\ Tui.fb_selected d3 = 2
    /\ length (Tui.fb_items d3) = 2%nat
    /\ ~ in_bounds (Tui.fb_selected d3) (Tui.fb_items d3)
    /\ Tui.browser_key locked_os d3 10
       = Tui.Escape (Exc IndexError (lit "list index out of range")).
Proof.
  eexists _, _. split_and!.
  - vm_compute. reflexivity.
  - vm_compute. split; [discriminate | reflexivity].
  - vm_compute. reflexivity.
  - reflexivity.
  - vm_compute. reflexivity.
  - discriminate.
  - reflexivity.
  - reflexivity.
  - unfold in_bounds. simpl. lia.
  - vm_compute. reflexivity.
Qed.

(** The main menu after the window shrank: the draw pass stores one
    selectable entry, a key that is not a navigation key leaves the index
    3 in place, and Enter raises [IndexError]. *)
Lemma menu_index_after_resize :
  let effect := fun _ : Tui.callback => Ok true in
  let a0 := Tui.draw Tui.app_init 24 80 true in
  exists a3 a4,
    bind (Tui.handle_input effect a0 Tui.KEY_DOWN) (fun a1 =>
    bind (Tui.handle_input effect a1 Tui.KEY_DOWN) (fun a2 =>
    Tui.handle_input effect (Tui.draw a2 24 80 true) Tui.KEY_DOWN)) = Ok a3
    /\ Tui.app_menu_index a3 = 3
    /\ a4 = Tui.draw a3 10 80 true
    /\ Tui.app_selectable a4 = Some [1%nat]
    /\ Tui.handle_input effect a4 (Tui.ord "x") = Ok a4
    /\ Tui.handle_input effect a4 10
       = Raise (Exc IndexError (lit "list index out of range")).
Proof.
  eexists _, _. split_and!; vm_compute; reflexivity.
Qed.

(** ** Dialogs *)

(** X16.  Whatever the size asked for, the window of a [Dialog] lies on the
    screen, at least two columns and two rows away from each edge. *)
Theorem dialog_init_inside (COLS LINES width height : Z) :
  let d := Tui.dialog_init COLS LINES width height in
  2 <= Tui.dlg_x d
  /\ Tui.dlg_x d + Tui.dlg_width d <= COLS - 2
  /\ 2 <= Tui.dlg_y d
  /\ Tui.dlg_y d + Tui.dlg_height d <= LINES - 2.
Proof.
  unfold Tui.dialog_init. cbn [Tui.dlg_x Tui.dlg_y Tui.dlg_width Tui.dlg_height].
  set (w := Z.min width (COLS - 4)). set (h := Z.min height (LINES - 4)).
  assert (w <= COLS - 4) by (unfold w; lia).
  assert (h <= LINES - 4) by (unfold h; lia).
  pose proof (Z.div_mod (COLS - w) 2 ltac:(lia)).
  pose proof (Z.mod_pos_bound (COLS - w) 2 ltac:(lia)).
  pose proof (Z.div_mod (LINES - h) 2 ltac:(lia)).
  pose proof (Z.mod_pos_bound (LINES - h) 2 ltac:(lia)).
  lia.
Qed.



(** ** [InputDialog] *)

Lemma input_start_inv (width : Z) (default : str) :
  4 <= width -> input_inv (Tui.input_start width default).
Proof.
  intros Hw. unfold Tui.input_start, input_inv. cbv zeta.
  cbn [Tui.in_pos Tui.in_result Tui.in_width Tui.in_default].
  split; [reflexivity|].
  destruct (Z.ltb_spec (width - 4) (Z.of_nat (length default))) as [H|H].
  - unfold slice_to. destruct (Z.leb_spec 0 (width - 4)); [|lia]. split.
    + rewrite length_take. lia.
    + exists (Z.to_nat (width - 4)), []. rewrite app_nil_r.
      split; [reflexivity | constructor].
  - split; [lia|]. exists (length default), [].
    rewrite firstn_all, app_nil_r. split; [reflexivity | constructor].
Qed.

Lemma key_in_false_cons (k : Z) (ks : list Z) (key : Z) :
  Tui.key_in (k :: ks) key = false -> key <> k /\ Tui.key_in ks key = false.
Proof.
  unfold Tui.key_in. simpl. intros H. apply orb_false_iff in H as [H1 H2].
  apply Z.eqb_neq in H1. split; assumption.
Qed.

Lemma input_key_inv (d : Tui.input_dialog) (key : Z) (ok : bool) :
  input_inv d ->
  match Tui.input_key d key ok with
  | Tui.Continue d' =>
      input_inv d'
      /\ Tui.in_width d' = Tui.in_width d
      /\ Tui.in_default d' = Tui.in_default d
  | Tui.Return (Some v) =>
      v <> []
      /\ (v = Tui.in_default d
          \/ (v = Tui.in_result d))
  | Tui.Return None => True
  | Tui.Escape _ => False
  end.
Proof.
  intros (Hpos & Hlen & k & typed & Hres & Htyped).
  unfold Tui.input_key. cbv zeta.
  destruct ok; cbn [negb]; [|exact I].
  destruct (Tui.key_in [10; 13] key) eqn:Kenter.
  { destruct (Tui.in_result d) as [|c r] eqn:Er.
    - destruct (Tui.in_default d) as [|c' r'] eqn:Ed; [exact I|].
      split; [discriminate | left; reflexivity].
    - split; [discriminate | right; reflexivity]. }
  destruct (Tui.key_in [Tui.ord "q"; Tui.ord "Q"] key) eqn:Kq; [exact I|].
  destruct (Tui.key_in [Tui.KEY_BACKSPACE; 127; 8] key) eqn:Kb.
  { destruct (Z.ltb_spec 0 (Tui.in_pos d)) as [Hp|Hp].
    2:{ split_and!; try reflexivity. split_and!; eauto. }
    split_and!; try reflexivity.
    unfold input_inv.
    cbn [Tui.in_pos Tui.in_result Tui.in_width Tui.in_default].
    unfold slice_to. destruct (Z.leb_spec 0 (Tui.in_pos d - 1)); [|lia].
    rewrite length_take. split_and!; try lia.
    rewrite Hres.
    destruct (decide (Z.to_nat (Tui.in_pos d - 1)
                      <= length (take k (Tui.in_default d)))%nat) as [Hle|Hgt].
    - rewrite take_app_le by exact Hle. rewrite take_take.
      eexists _, []. rewrite app_nil_r. split; [reflexivity | constructor].
    - rewrite take_app_ge by lia.
      eexists k, _. split; [reflexivity|]. apply Forall_take, Htyped. }
  destruct ((32 <=? key) && (key <=? 126))%bool eqn:Kp.
  2:{ split_and!; try reflexivity. split_and!; eauto. }
  apply andb_true_iff in Kp as [K1 K2].
  apply Z.leb_le in K1. apply Z.leb_le in K2.
  destruct (Z.ltb_spec (Tui.in_pos d) (Tui.in_width d - 4)) as [Hp|Hp].
  2:{ split_and!; try reflexivity. split_and!; eauto. }
  split_and!; try reflexivity.
  unfold input_inv.
  cbn [Tui.in_pos Tui.in_result Tui.in_width Tui.in_default].
  rewrite length_app. simpl. split_and!; try lia.
  exists k, (typed ++ [Z.to_N key]). rewrite Hres, <- app_assoc.
  split; [reflexivity|]. apply Forall_app. split; [exact Htyped|].
  constructor; [|constructor].
  apply key_in_false_cons in Kq as [Hq Kq].
  apply key_in_false_cons in Kq as [HQ _].
  unfold Tui.ord in Hq, HQ. simpl in Hq, HQ.
  unfold typed_char. split_and!; lia.
Qed.

(** X18.  What [InputDialog.show] returns is never the empty text.  It is
    the default, or a text of at most [width - 4] characters made of a
    prefix of the default followed by typed characters, none of which is
    the letter q or Q: these two keys cancel the dialog. *)
Theorem input_show_value (width : Z) (default : str) (setup_ok : bool)
    (keys : list (Z * bool)) (v : str) :
  4 <= width ->
  Tui.input_show width default setup_ok keys = Some (Some v) ->
  v <> []
  /\ (v = default
      \/ (Z.of_nat (length v) <= width - 4
          /\ exists k typed,
               v = take k default ++ typed /\ Forall typed_char typed)).
Proof.
  intros Hw. unfold Tui.input_show.
  destruct setup_ok; [|intros [=]].
  pose proof (input_start_inv width default Hw) as Hinv.
  assert (Tui.in_width (Tui.input_start width default) = width) as Ew
    by reflexivity.
  assert (Tui.in_default (Tui.input_start width default) = default) as Ed
    by reflexivity.
  revert Hinv Ew Ed. generalize (Tui.input_start width default).
  induction keys as [|[key ok] keys IH]; intros d Hinv Ew Ed;
    cbn [Tui.input_loop]; [intros [=]|].
  pose proof (input_key_inv d key ok Hinv) as Hstep.
  destruct (Tui.input_key d key ok) as [d'|[v'|]|e].
  - destruct Hstep as (Hinv' & Ew' & Ed'). apply IH;
      [exact Hinv' | congruence | congruence].
  - intros [= <-]. destruct Hstep as [Hne Hv]. split; [exact Hne|].
    destruct Hv as [-> | ->]; [left; exact Ed|].
    right. destruct Hinv as (_ & Hlen & k & typed & Hres & Htyped).
    split; [lia|]. exists k, typed. rewrite <- Ed. split; assumption.
  - intros [=].
  - destruct Hstep.
Qed.

Lemma input_show_value_witness :
  Tui.input_show 50 (lit "download_list.txt") true
    [(127, true); (127, true); (127, true); (Tui.ord "m", true);
     (Tui.ord "d", true); (10, true)]
  = Some (Some (lit "download_list.md"))
  /\ lit "download_list.md" <> [].
Proof.
  split; [vm_compute; reflexivity|].
  apply (input_show_value 50 (lit "download_list.txt") true
           [(127, true); (127, true); (127, true); (Tui.ord "m", true);
            (Tui.ord "d", true); (10, true)]
           (lit "download_list.md")); [lia | vm_compute; reflexivity].
Defined.

Lemma input_loop_types (d : Tui.input_dialog) (text : str)
    (rest : list (Z * bool)) :
  Tui.in_pos d = Z.of_nat (length (Tui.in_result d)) ->
  Forall typed_char text ->
  Z.of_nat (length (Tui.in_result d)) + Z.of_nat (length text)
    <= Tui.in_width d - 4 ->
  Tui.input_loop d (keys_of text ++ rest)
  = Tui.input_loop
      {| Tui.in_width := Tui.in_width d;
         Tui.in_default := Tui.in_default d;
         Tui.in_result := Tui.in_result d ++ text;
         Tui.in_pos := Tui.in_pos d + Z.of_nat (length text) |} rest.
Proof.
  revert d. induction text as [|c text IH]; intros d Hpos Htext Hlen.
  - simpl. rewrite app_nil_r, Z.add_0_r. destruct d; reflexivity.
  - apply Forall_cons in Htext as [(Hc & Hq & HQ) Htext].
    cbn [keys_of List.map app Tui.input_loop].
    assert (Tui.input_key d (Z.of_N c) true
            = Tui.Continue
                {| Tui.in_width := Tui.in_width d;
                   Tui.in_default := Tui.in_default d;
                   Tui.in_result := Tui.in_result d ++ [c];
                   Tui.in_pos := Tui.in_pos d + 1 |}) as ->.
    { unfold Tui.input_key. cbv zeta. cbn [negb].
      assert (Tui.key_in [10; 13] (Z.of_N c) = false) as ->.
      { unfold Tui.key_in. simpl. rewrite orb_false_r.
        apply orb_false_iff; split; apply Z.eqb_neq; lia. }
      assert (Tui.key_in [Tui.ord "q"; Tui.ord "Q"] (Z.of_N c) = false) as ->.
      { unfold Tui.key_in, Tui.ord. simpl. rewrite orb_false_r.
        apply orb_false_iff; split; apply Z.eqb_neq; lia. }
      assert (Tui.key_in [Tui.KEY_BACKSPACE; 127; 8] (Z.of_N c) = false) as ->.
      { unfold Tui.key_in, Tui.KEY_BACKSPACE. simpl. rewrite orb_false_r.
        repeat (apply orb_false_iff; split); apply Z.eqb_neq; lia. }
      assert ((32 <=? Z.of_N c) && (Z.of_N c <=? 126) = true)%bool as ->.
      { apply andb_true_iff. split; apply Z.leb_le; lia. }
      simpl length in Hlen.
      destruct (Z.ltb_spec (Tui.in_pos d) (Tui.in_width d - 4)); [|lia].
      rewrite N2Z.id. reflexivity. }
    fold (keys_of text). rewrite IH.
    + cbn [Tui.in_width Tui.in_default Tui.in_result Tui.in_pos].
      rewrite <- app_assoc. simpl length.
      replace (Tui.in_pos d + 1 + Z.of_nat (length text))
        with (Tui.in_pos d + Z.of_nat (S (length text))) by lia.
      reflexivity.
    + cbn [Tui.in_result Tui.in_pos]. rewrite length_app. simpl. lia.
    + exact Htext.
    + cbn [Tui.in_width Tui.in_result]. rewrite length_app.
      simpl length in *. lia.
Qed.



(** ** The select dialog *)

Section SelectWindow.

Variable V : Type.

Lemma select_height_bounds (LINES : Z) (options : list (str * V)) :
  12 <= LINES ->
  8 <= Tui.select_height LINES options <= 15.
Proof.
  unfold Tui.select_height, Tui.MIN_HEIGHT, Tui.MAX_HEIGHT. lia.
Qed.

(** X20.  In a [SelectDialog] whose selected option is among the rows
    drawn, a key that does not move the selection round the end of the
    list leaves the selected option among the rows drawn. *)
Theorem select_key_keeps_shown (d d' : Tui.select_dialog V) (key : Z) :
  in_bounds (Tui.sd_selected V d) (Tui.sd_options V d) ->
  shown d ->
  wraps d key = false ->
  Tui.select_key V d key = Tui.Continue d' ->
  shown d'.
Proof.
  intros [Hb0 Hb1] Hs. unfold shown, wraps in *. unfold Tui.select_key.
  cbv zeta.
  set (len := Z.of_nat (length (Tui.sd_options V d))) in *.
  destruct ((key =? Tui.KEY_UP) || (key =? Tui.ord "k"))%bool.
  { cbn [andb orb]. intros Hw. apply orb_false_iff in Hw as [Hw _].
    apply Z.eqb_neq in Hw.
    unfold Tui.py_mod. destruct (Z.eqb_spec len 0); [lia|].
    rewrite Z.mod_small by lia.
    intros [= <-]. cbn [Tui.sd_selected Tui.sd_scroll_offset Tui.sd_height].
    destruct (Z.ltb_spec (Tui.sd_selected V d - 1)
                (Tui.sd_scroll_offset V d)); lia. }
  destruct ((key =? Tui.KEY_DOWN) || (key =? Tui.ord "j"))%bool.
  { cbn [andb orb]. intros Hw. apply Z.eqb_neq in Hw.
    unfold Tui.py_mod. destruct (Z.eqb_spec len 0); [lia|].
    rewrite Z.mod_small by lia.
    intros [= <-]. cbn [Tui.sd_selected Tui.sd_scroll_offset Tui.sd_height].
    destruct (Z.leb_spec (Tui.sd_scroll_offset V d + (Tui.sd_height V d - 5))
                (Tui.sd_selected V d + 1)); lia. }
  intros _.
  destruct (Tui.key_in [10; 13] key).
  { destruct (Tui.py_index _ _); intros [=]. }
  destruct (Tui.key_in [Tui.ord "q"; Tui.ord "Q"] key); [intros [=]|].
  destruct ((Tui.ord "1" <=? key) && (key <=? Tui.ord "9"))%bool.
  { destruct (key - Tui.ord "1" <? len).
    - destruct (Tui.py_index _ _); intros [=].
    - intros [= <-]. exact Hs. }
  intros [= <-]. exact Hs.
Qed.

(** X21.  In a fresh [SelectDialog] with more than ten options, on a
    screen of at least 12 rows, the key UP selects the last option while
    the window still starts at the first one: the selected option is not
    among the rows drawn. *)
Theorem select_wrap_hides (LINES : Z) (options : list (str * V)) :
  12 <= LINES ->
  10 < Z.of_nat (length options) ->
  exists d',
    Tui.select_key V
      (Tui.select_init V (Tui.select_height LINES options) options)
      Tui.KEY_UP = Tui.Continue d'
    /\ Tui.sd_selected V d' = Z.of_nat (length options) - 1
    /\ Tui.sd_scroll_offset V d' = 0
    /\ ~ shown d'.
Proof.
  intros HL Hlen. pose proof (select_height_bounds LINES options HL) as Hh.
  unfold Tui.select_key, Tui.select_init. cbv zeta.
  cbn [Tui.sd_selected Tui.sd_scroll_offset Tui.sd_height Tui.sd_options].
  rewrite Z.eqb_refl. cbn [orb]. unfold Tui.py_mod.
  destruct (Z.eqb_spec (Z.of_nat (length options)) 0); [lia|].
  assert ((0 - 1) mod Z.of_nat (length options)
          = Z.of_nat (length options) - 1) as ->.
  { symmetry. apply (Z.mod_unique_pos _ _ (-1)); lia. }
  eexists. split; [reflexivity|].
  cbn [Tui.sd_selected Tui.sd_scroll_offset Tui.sd_height].
  destruct (Z.ltb_spec (Z.of_nat (length options) - 1) 0); [lia|].
  split_and!; try reflexivity. unfold shown.
  cbn [Tui.sd_selected Tui.sd_scroll_offset Tui.sd_height]. lia.
Qed.

End SelectWindow.

Lemma select_key_keeps_shown_witness :
  shown
    {| Tui.sd_height := 15; Tui.sd_options := eleven_options;
       Tui.sd_selected := 1; Tui.sd_scroll_offset := 0;
       Tui.sd_result := None |}.
Proof.
  apply (select_key_keeps_shown nat
           (Tui.select_init nat 15 eleven_options) _ Tui.KEY_DOWN).
  - unfold in_bounds. simpl. lia.
  - unfold shown. simpl. lia.
  - reflexivity.
  - reflexivity.
Defined.

Lemma select_wrap_hides_witness :
  exists d',
    Tui.select_key nat
      (Tui.select_init nat (Tui.select_height 24 eleven_options)
         eleven_options) Tui.KEY_UP = Tui.Continue d'
    /\ Tui.sd_selected nat d' = 10
    /\ Tui.sd_scroll_offset nat d' = 0
    /\ ~ shown d'.
Proof.
  apply (select_wrap_hides nat 24 eleven_options); simpl; lia.
Defined.

(** ** The shortcut keys of the main menu *)

Section Shortcuts.

Variable effect : Tui.callback -> result bool.

Lemma draw_stores (a : Tui.app) (h w : Z) :
  10 <= h -> 40 <= w ->
  Tui.draw a h w true
  = {| Tui.app_running := Tui.app_running a;
       Tui.app_menu_index := Tui.app_menu_index a;
       Tui.app_selectable := Some (Tui.draw_items Tui.main_items 0 4 h) |}.
Proof.
  intros Hh Hw. unfold Tui.draw.
  destruct (Z.ltb_spec h 10); [lia|]. destruct (Z.ltb_spec w 40); [lia|].
  reflexivity.
Qed.

Lemma draw_items_tall (h : Z) :
  23 <= h ->
  Tui.draw_items Tui.main_items 0 4 h = [1; 2; 5; 6; 9; 10; 13; 14]%nat.
Proof.
  intros Hh. unfold Tui.main_items. cbn [Tui.draw_items Tui.mi_type].
  repeat match goal with
  | |- context [(h - 4 <=? ?y)] =>
      replace (h - 4 <=? y) with false by (symmetry; apply Z.leb_gt; lia)
  end.
  reflexivity.
Qed.

Lemma draw_items_short (h : Z) :
  10 <= h < 23 ->
  (length (Tui.draw_items Tui.main_items 0 4 h) <= 7)%nat.
Proof.
  intros Hh.
  assert (h = 10 \/ h = 11 \/ h = 12 \/ h = 13 \/ h = 14 \/ h = 15 \/ h = 16
          \/ h = 17 \/ h = 18 \/ h = 19 \/ h = 20 \/ h = 21 \/ h = 22) as Hc
    by lia.
  repeat (destruct Hc as [->|Hc]; [vm_compute; lia|]).
  subst h. vm_compute. lia.
Qed.

(** X22.  Once the menu has been drawn in a window of at least 23 rows and
    40 columns, each of the keys 1 to 6 runs the callback of the menu entry
    that shows that digit as its shortcut. *)
Theorem digit_keys_run_their_entries (a : Tui.app) (h w : Z) (digit : ascii) :
  23 <= h -> 40 <= w ->
  In digit ["1"; "2"; "3"; "4"; "5"; "6"]%char ->
  Tui.handle_input effect (Tui.draw a h w true) (Tui.ord digit)
  = Tui.run_callback effect (Tui.draw a h w true)
      (shortcut_callback (lit (String digit EmptyString))).
Proof.
  intros Hh Hw Hd. rewrite (draw_stores a h w) by lia.
  rewrite (draw_items_tall h Hh).
  destruct Hd as [<-|[<-|[<-|[<-|[<-|[<-|[]]]]]]]; reflexivity.
Qed.

(** X23.  The key a (or A), which the menu shows as the shortcut of the
    About entry, never runs that entry: once the menu has been drawn in a
    window of at least 23 rows it runs the callback of the Quit entry, and
    in a lower window it does nothing. *)
Theorem about_key_never_opens_about (a : Tui.app) (h w : Z) (key : Z) :
  10 <= h -> 40 <= w ->
  key = Tui.ord "a" \/ key = Tui.ord "A" ->
  Tui.handle_input effect (Tui.draw a h w true) key
  = if 23 <=? h
    then Tui.run_callback effect (Tui.draw a h w true) (Some Tui.on_quit)
    else Ok (Tui.draw a h w true).
Proof.
  intros Hh Hw Hk. rewrite (draw_stores a h w) by lia.
  destruct (Z.leb_spec 23 h) as [Htall|Hshort].
  - rewrite (draw_items_tall h Htall). destruct Hk as [-> | ->]; reflexivity.
  - pose proof (draw_items_short h ltac:(lia)) as Hlen.
    set (sel := Tui.draw_items Tui.main_items 0 4 h) in *.
    assert (forall a0, Tui.app_selectable a0 = Some sel ->
              Tui.quick_select effect a0 7 = Ok a0) as Hq.
    { intros a0 Ha0. unfold Tui.quick_select, Tui.selectable_of.
      rewrite Ha0. cbn [bind].
      destruct (Z.ltb_spec 7 (Z.of_nat (length sel))); [lia | reflexivity]. }
    destruct Hk as [-> | ->]; unfold Tui.handle_input;
      cbn [Tui.selectable_of Tui.app_selectable bind];
      (rewrite Hq by reflexivity); reflexivity.
Qed.

End Shortcuts.

Lemma digit_keys_run_their_entries_witness :
  Tui.handle_input (fun _ => Ok true) (Tui.draw Tui.app_init 24 80 true)
    (Tui.ord "3")
  = Tui.run_callback (fun _ => Ok true) (Tui.draw Tui.app_init 24 80 true)
      (Some Tui.on_offline_transcode).
Proof.
  rewrite (digit_keys_run_their_entries (fun _ => Ok true) Tui.app_init 24 80
             "3"); [reflexivity | lia | lia |].
  simpl. tauto.
Defined.

Lemma about_key_never_opens_about_witness :
  Tui.handle_input
    (fun c => match c with Tui.on_quit => Ok false | _ => Ok true end)
    (Tui.draw Tui.app_init 24 80 true) (Tui.ord "a")
  = Ok {| Tui.app_running := false; Tui.app_menu_index := 0;
          Tui.app_selectable := Some [1; 2; 5; 6; 9; 10; 13; 14]%nat |}.
Proof.
  rewrite (about_key_never_opens_about _ Tui.app_init 24 80 (Tui.ord "a"));
    [reflexivity | lia | lia | left; reflexivity].
Defined.

(** ** Runs of the dialogs and of the menu *)

Section SelectRun.

Variable V : Type.

Lemma select_key_result (d : Tui.select_dialog V) (key : Z) :
  Tui.sd_options V d <> [] ->
  in_bounds (Tui.sd_selected V d) (Tui.sd_options V d) ->
  match Tui.select_key V d key with
  | Tui.Continue d' =>
      Tui.sd_options V d' = Tui.sd_options V d
      /\ Tui.sd_result V d' = Tui.sd_result V d
      /\ in_bounds (Tui.sd_selected V d') (Tui.sd_options V d')
  | Tui.Return r =>
      r = Tui.sd_result V d
      \/ exists opt, In opt (Tui.sd_options V d) /\ r = Some (snd opt)
  | Tui.Escape _ => False
  end.
Proof.
  intros Hne Hb. pose proof (length_pos_of_ne _ Hne) as Hlen.
  assert (forall i x, Tui.sd_options V d !! i = Some x ->
            In x (Tui.sd_options V d)) as Hin.
  { intros i x Hx. apply list_elem_of_In. eapply list_elem_of_lookup_2.
    exact Hx. }
  unfold Tui.select_key.
  destruct ((key =? Tui.KEY_UP) || (key =? Tui.ord "k"))%bool.
  { destruct (py_mod_bounds (Tui.sd_selected V d - 1) _ Hlen) as (r & -> & Hr).
    split_and!; [reflexivity | reflexivity | exact Hr]. }
  destruct ((key =? Tui.KEY_DOWN) || (key =? Tui.ord "j"))%bool.
  { destruct (py_mod_bounds (Tui.sd_selected V d + 1) _ Hlen) as (r & -> & Hr).
    split_and!; [reflexivity | reflexivity | exact Hr]. }
  destruct (Tui.key_in [10; 13] key).
  { destruct (py_index_in_bounds _ _ Hb) as (x & -> & Hx).
    right. exists x. split; [exact (Hin _ _ Hx) | reflexivity]. }
  destruct (Tui.key_in [Tui.ord "q"; Tui.ord "Q"] key); [left; reflexivity|].
  destruct ((Tui.ord "1" <=? key) && (key <=? Tui.ord "9"))%bool eqn:Hdigit;
    [|split_and!; [reflexivity | reflexivity | exact Hb]].
  destruct (Z.ltb_spec (key - Tui.ord "1")
              (Z.of_nat (length (Tui.sd_options V d))))
    as [Hlt|Hge]; [|split_and!; [reflexivity | reflexivity | exact Hb]].
  apply andb_true_iff in Hdigit as [H1 _]. apply Z.leb_le in H1.
  destruct (py_index_in_bounds (Tui.sd_options V d) (key - Tui.ord "1"))
    as (x & -> & Hx); [split; lia|].
  right. exists x. split; [exact (Hin _ _ Hx) | reflexivity].
Qed.

(** X24.  A [SelectDialog] with at least one option never lets an
    exception escape, whatever keys are pressed: while it is open the
    selected index points at an option, and what [show] returns is [None]
    (the dialog was cancelled) or the value of one of the options. *)
Theorem select_run_safe (height : Z) (options : list (str * V))
    (keys : list Z) :
  options <> [] ->
  match select_run (Tui.select_init V height options) keys with
  | Tui.Continue d' =>
      Tui.sd_options V d' = options
      /\ in_bounds (Tui.sd_selected V d') options
  | Tui.Return r =>
      r = None \/ exists opt, In opt options /\ r = Some (snd opt)
  | Tui.Escape _ => False
  end.
Proof.
  intros Hne.
  assert (forall d : Tui.select_dialog V,
            Tui.sd_options V d = options ->
            Tui.sd_result V d = None ->
            in_bounds (Tui.sd_selected V d) options ->
            match select_run d keys with
            | Tui.Continue d' =>
                Tui.sd_options V d' = options
                /\ in_bounds (Tui.sd_selected V d') options
            | Tui.Return r =>
                r = None \/ exists opt, In opt options /\ r = Some (snd opt)
            | Tui.Escape _ => False
            end) as Hrun.
  { induction keys as [|key keys IH]; intros d Ho Hr Hb; cbn [select_run].
    - split; assumption.
    - pose proof (select_key_result d key) as Hstep.
      rewrite Ho in Hstep. specialize (Hstep Hne Hb).
      destruct (Tui.select_key V d key) as [d'|r|e].
      + destruct Hstep as (Ho' & Hr' & Hb'). rewrite Ho' in Hb'.
        apply IH; [exact Ho' | congruence | exact Hb'].
      + rewrite Hr in Hstep. exact Hstep.
      + exact Hstep. }
  apply Hrun; [reflexivity | reflexivity|].
  unfold in_bounds. cbn [Tui.select_init Tui.sd_selected].
  pose proof (length_pos_of_ne _ Hne). lia.
Qed.

End SelectRun.

Lemma select_run_safe_witness :
  select_run (Tui.select_init nat 15 eleven_options)
    [Tui.KEY_UP; Tui.KEY_UP; 10]
  = Tui.Return (Some 10%nat)
  /\ (Some 10%nat = None
      \/ exists opt, In opt eleven_options /\ Some 10%nat = Some (snd opt)).
Proof.
  pose proof (select_run_safe nat 15 eleven_options
                [Tui.KEY_UP; Tui.KEY_UP; 10] ltac:(discriminate)) as H.
  assert (select_run (Tui.select_init nat 15 eleven_options)
            [Tui.KEY_UP; Tui.KEY_UP; 10] = Tui.Return (Some 10%nat)) as E
    by (vm_compute; reflexivity).
  rewrite E in H. split; [exact E | exact H].
Defined.

Section BrowserRun.

Variable os : Tui.os_env.
Hypothesis os_listable : listable os.

Lemma browser_key_ok (d : Tui.file_browser) (key : Z) :
  browser_ok d ->
  match Tui.browser_key os d key with
  | Tui.Continue d' => browser_ok d'
  | Tui.Return _ => True
  | Tui.Escape _ => False
  end.
Proof.
  intros [Hne Hb]. pose proof (length_pos_of_ne _ Hne) as Hlen.
  unfold Tui.browser_key. cbv zeta.
  destruct (key =? -1); [split; assumption|].
  destruct ((key =? Tui.KEY_UP) || (key =? Tui.ord "k"))%bool.
  { destruct (py_mod_bounds (Tui.fb_selected d - 1) _ Hlen) as (r & -> & Hr).
    split; [exact Hne | exact Hr]. }
  destruct ((key =? Tui.KEY_DOWN) || (key =? Tui.ord "j"))%bool.
  { destruct (py_mod_bounds (Tui.fb_selected d + 1) _ Hlen) as (r & -> & Hr).
    split; [exact Hne | exact Hr]. }
  destruct (Tui.key_in [10; 13] key).
  { destruct (py_index_in_bounds _ _ Hb) as ([text name] & -> & _).
    destruct name as [|c name]; [split; assumption|].
    set (new_path := Tui.abspath os _).
    destruct (Tui.os_isdir os new_path) eqn:Edir; [|exact I].
    destruct (os_listable new_path Edir) as [entries Hl].
    destruct (refresh_items_listed os
                {| Tui.fb_height := Tui.fb_height d;
                   Tui.fb_current_path := new_path;
                   Tui.fb_selected := Tui.fb_selected d;
                   Tui.fb_items := Tui.fb_items d;
                   Tui.fb_scroll_offset := Tui.fb_scroll_offset d |}
                entries Hl) as (d' & -> & _ & Hb').
    split; [|exact Hb'].
    intros E. unfold in_bounds in Hb'. rewrite E in Hb'. simpl in Hb'. lia. }
  destruct (Tui.key_in [Tui.ord "s"; Tui.ord "S"] key); [exact I|].
  destruct (Tui.key_in [Tui.ord "q"; Tui.ord "Q"] key); [exact I|].
  split; assumption.
Qed.

(** X25.  As long as every directory can be listed, the file browser never
    lets an exception escape, whatever keys are pressed: it always has
    entries, and its selected index points at one of them. *)
Theorem browser_run_safe (d : Tui.file_browser) (keys : list Z) :
  browser_ok d ->
  match browser_run os d keys with
  | Tui.Continue d' => browser_ok d'
  | Tui.Return _ => True
  | Tui.Escape _ => False
  end.
Proof.
  revert d. induction keys as [|key keys IH]; intros d Hd; cbn [browser_run].
  - exact Hd.
  - pose proof (browser_key_ok d key Hd) as Hstep.
    destruct (Tui.browser_key os d key) as [d'|r|e];
      [apply IH, Hstep | exact I | exact Hstep].
Qed.

End BrowserRun.

Lemma open_os_listable : listable open_os.
Proof.
  intros p _. unfold open_os. cbn [Tui.listdir].
  destruct (str_eqb p (lit "/home")); eauto.
Defined.

Lemma browser_run_safe_witness :
  exists d0 d',
    browser_at_open_home = Ok d0
    /\ browser_run open_os d0 [Tui.KEY_DOWN; Tui.KEY_DOWN; 10; Tui.KEY_DOWN]
       = Tui.Continue d'
    /\ browser_ok d'.
Proof.
  eexists _, _. split; [vm_compute; reflexivity|].
  split; [vm_compute; reflexivity|].
  let d0 := eval vm_compute in browser_at_open_home in
  match d0 with
  | Ok ?d =>
      pose proof (browser_run_safe open_os open_os_listable d
                    [Tui.KEY_DOWN; Tui.KEY_DOWN; 10; Tui.KEY_DOWN]) as H
  end.
  assert (forall d, Tui.fb_items d <> [] ->
                    in_bounds (Tui.fb_selected d) (Tui.fb_items d) ->
                    browser_ok d) as Hok by (intros d H1 H2; split; assumption).
  specialize (H ltac:(apply Hok; [discriminate | unfold in_bounds; simpl; lia])).
  vm_compute in H. exact H.
Defined.

Section MenuRun.

Variable effect : Tui.callback -> result bool.

Lemma draw_items_nonempty (h : Z) :
  10 <= h -> Tui.draw_items Tui.main_items 0 4 h <> [].
Proof.
  intros Hh. unfold Tui.main_items. cbn [Tui.draw_items Tui.mi_type].
  destruct (Z.leb_spec (h - 4) 4); [lia|].
  destruct (Z.leb_spec (h - 4) (4 + 1)); [lia|]. discriminate.
Qed.



End MenuRun.



Local Open Scope N_scope.

(** ** More on [sanitize_filename] *)

Lemma sanitize_filename_clean (name : str) :
  Forall clean (Utils.sanitize_filename name).
Proof.
  rewrite sanitize_filename_stages.
  destruct name as [|x name']; [repeat constructor|].
  pose proof (limited_clean (x :: name')) as H.
  destruct (limited (x :: name')); [repeat constructor | exact H].
Qed.

Lemma replaced_legal_id (name : str) :
  Forall (fun c => Utils.ILLEGAL_FILENAME_CHARS c = false) name ->
  replaced name = name.
Proof.
  intros H. rewrite replaced_map.
  induction H as [|c s Hc Hs IH]; simpl; [reflexivity|].
  rewrite Hc, IH. reflexivity.
Qed.

Lemma sanitize_filename_unchanged (name : str) :
  agreeable name ->
  Forall (fun c => Utils.ILLEGAL_FILENAME_CHARS c = false) name ->
  Utils.sanitize_filename name = name.
Proof.
  intros (H1 & H2 & H3 & H4 & H5) Hlegal.
  rewrite (sanitize_variants_agree name H1 H2 H3 H4 H5).
  apply replaced_legal_id, Hlegal.
Qed.

(** X1.  The names [sanitize_filename] returns unchanged are exactly the
    names that need no cleaning: not empty, at most 200 characters, no
    character of the illegal or of the control class, and neither a space
    nor a dot at either end. *)
Theorem sanitize_filename_fixed_points (name : str) :
  Utils.sanitize_filename name = name
  <->
  agreeable name
  /\ Forall (fun c => Utils.ILLEGAL_FILENAME_CHARS c = false) name.
Proof.
  split.
  - intros H.
    assert (Forall (fun c => Utils.ILLEGAL_FILENAME_CHARS c = false) name)
      as Hlegal.
    { pose proof (sanitize_filename_clean name) as Hc. rewrite H in Hc.
      eapply Forall_impl; [exact Hc|]. intros c [Hi _]. exact Hi. }
    split; [|exact Hlegal].
    apply sanitize_agree_only. rewrite H.
    change (BetaUtils.sanitize_filename name) with (replaced name).
    symmetry. apply replaced_legal_id, Hlegal.
  - intros [Ha Hlegal]. apply sanitize_filename_unchanged; assumption.
Qed.

Lemma sanitize_filename_short_agreeable (name : str) :
  (length name <= 200)%nat -> agreeable (Utils.sanitize_filename name).
Proof.
  intros Hlen. rewrite sanitize_filename_stages.
  assert (agreeable Utils.unnamed) as Hu.
  { unfold agreeable. split_and!.
    - discriminate.
    - simpl. lia.
    - repeat constructor.
    - intros c [= <-]. split; discriminate.
    - intros c [= <-]. split; discriminate. }
  destruct name as [|x name']; [exact Hu|].
  set (name := x :: name') in *.
  pose proof (limited_clean name) as Hc.
  pose proof (limited_length name) as Hl.
  pose proof (limited_head name) as Hh.
  pose proof (limited_last_space name) as Hs.
  pose proof (limited_last_dot name) as Hd.
  destruct (limited name) as [|y r] eqn:E; [exact Hu|].
  unfold agreeable. split_and!.
  - discriminate.
  - exact Hl.
  - eapply Forall_impl; [exact Hc|]. intros c [_ Hk]. exact Hk.
  - exact Hh.
  - intros c Hc'. split; [exact (Hs c Hc') | exact (Hd c Hlen Hc')].
Qed.

(** X2.  On a name of at most 200 characters [sanitize_filename] is
    idempotent: cleaning the cleaned name changes nothing. *)
Theorem sanitize_filename_idempotent (name : str) :
  (length name <= 200)%nat ->
  Utils.sanitize_filename (Utils.sanitize_filename name)
  = Utils.sanitize_filename name.
Proof.
  intros Hlen. apply sanitize_filename_unchanged.
  - apply sanitize_filename_short_agreeable, Hlen.
  - eapply Forall_impl; [apply sanitize_filename_clean|].
    intros c [Hi _]. exact Hi.
Qed.

Lemma sanitize_filename_idempotent_witness :
  Utils.sanitize_filename (Utils.sanitize_filename (lit " a:b. "))
  = Utils.sanitize_filename (lit " a:b. ").
Proof. apply sanitize_filename_idempotent. simpl. lia. Defined.

Lemma lstrip_by_keeps (p : char -> bool) (c : char) (s : str) :
  p c = false -> In c s -> In c (lstrip_by p s).
Proof.
  intros Hc. induction s as [|x s IH]; simpl; [tauto|].
  destruct (p x) eqn:Hx.
  - intros [->|H]; [congruence | exact (IH H)].
  - intros H. exact H.
Qed.

Lemma in_reverse (c : char) (s : str) : In c s <-> In c (reverse s).
Proof. rewrite <- !list_elem_of_In, elem_of_reverse. reflexivity. Qed.

Lemma strip_by_keeps (p : char -> bool) (c : char) (s : str) :
  p c = false -> In c s -> In c (strip_by p s).
Proof.
  intros Hc H. unfold strip_by, rstrip_by.
  apply (proj1 (in_reverse _ _)). apply lstrip_by_keeps; [exact Hc|].
  apply (proj1 (in_reverse _ _)). apply lstrip_by_keeps; assumption.
Qed.

(** X3.  In a name of at most 200 characters, a character that is in
    neither class and is neither a space nor a dot (the backslash, for one,
    which the illegal class does not match) is still there after
    [sanitize_filename]. *)
Theorem sanitize_filename_keeps (name : str) (c : char) :
  (length name <= 200)%nat ->
  Utils.ILLEGAL_FILENAME_CHARS c = false ->
  Utils.ILLEGAL_CONTROL_CHARS c = false ->
  c <> 32 -> c <> 46 ->
  In c name -> In c (Utils.sanitize_filename name).
Proof.
  intros Hlen Hi Hk H32 H46 Hin. rewrite sanitize_filename_stages.
  destruct name as [|x name']; [destruct Hin|].
  set (name := x :: name') in *.
  assert (In c (limited name)) as Hl.
  { destruct (limited_cases name) as [[_ E]|[H _]].
    2:{ pose proof (stripped_length name). lia. }
    rewrite E. unfold stripped. apply strip_by_keeps.
    { apply char_in_dot_space. split; assumption. }
    unfold uncontrolled. rewrite re_sub_class_nil. apply filter_In. split.
    - rewrite replaced_map. apply in_map_iff. exists c. rewrite Hi.
      split; [reflexivity | exact Hin].
    - rewrite Hk. reflexivity. }
  destruct (limited name); [destruct Hl | exact Hl].
Qed.

Lemma sanitize_filename_keeps_witness :
  In 92 (Utils.sanitize_filename (lit "a\b")).
Proof.
  apply sanitize_filename_keeps; try reflexivity; try discriminate.
  - simpl. lia.
  - simpl. tauto.
Defined.


(** ** [format_duration] and [select_from_list] *)

Lemma format_02d_two (n : Z) :
  (0 <= n < 60)%Z ->
  Utils.format_02d n = [Z.to_N (48 + n / 10); Z.to_N (48 + n mod 10)].
Proof.
  intros H. rewrite <- (Z2Nat.id n) by lia.
  assert (Z.to_nat n < 60)%nat as Hk by lia.
  generalize dependent (Z.to_nat n). clear. intros k Hk.
  do 60 (destruct k as [|k]; [vm_compute; reflexivity|]). lia.
Qed.

Lemma format_02d_two_inj (n m : Z) :
  (0 <= n < 60)%Z -> (0 <= m < 60)%Z ->
  Utils.format_02d n = Utils.format_02d m -> n = m.
Proof.
  intros Hn Hm. rewrite (format_02d_two n Hn), (format_02d_two m Hm).
  intros [= H1 H2].
  pose proof (Z.div_mod n 10 ltac:(lia)).
  pose proof (Z.div_mod m 10 ltac:(lia)).
  pose proof (Z.mod_pos_bound n 10 ltac:(lia)).
  pose proof (Z.mod_pos_bound m 10 ltac:(lia)).
  assert (0 <= n / 10)%Z by (apply Z.div_pos; lia).
  assert (0 <= m / 10)%Z by (apply Z.div_pos; lia).
  lia.
Qed.

Lemma of_uint_D0 (d : Decimal.uint) : N.of_uint (Decimal.D0 d) = N.of_uint d.
Proof. reflexivity. Qed.

Lemma str_of_N_no_leading_zero (n m : N) :
  lit "0" ++ str_of_N n = str_of_N m -> n = m.
Proof.
  unfold str_of_N. intros H.
  change (lit "0" ++ lit (NilZero.string_of_uint (N.to_uint n)))
    with (lit (String "0" (NilZero.string_of_uint (N.to_uint n)))) in H.
  apply lit_inj in H.
  pose proof (NilZero.usu _ (to_uint_nonnil n)) as Hn.
  pose proof (NilZero.usu _ (to_uint_nonnil m)) as Hm.
  rewrite <- H in Hm. simpl in Hm.
  unfold NilZero.uint_of_string in Hn.
  destruct (NilZero.string_of_uint (N.to_uint n)) as [|a s] eqn:E.
  - discriminate Hn.
  - rewrite Hn in Hm. simpl in Hm. injection Hm as Hm.
    rewrite <- (Unsigned.of_to n), <- (Unsigned.of_to m), <- Hm.
    reflexivity.
Qed.

Lemma format_02d_inj (n m : Z) :
  (0 <= n)%Z -> (0 <= m)%Z ->
  Utils.format_02d n = Utils.format_02d m -> n = m.
Proof.
  intros Hn Hm. unfold Utils.format_02d.
  destruct (Z.ltb_spec n 0); [lia|]. destruct (Z.ltb_spec m 0); [lia|].
  destruct (Z.ltb_spec n 10); destruct (Z.ltb_spec m 10); intros E.
  - apply app_inv_head in E. apply str_of_N_inj in E. lia.
  - apply str_of_N_no_leading_zero in E. lia.
  - symmetry in E. apply str_of_N_no_leading_zero in E. lia.
  - apply str_of_N_inj in E. lia.
Qed.

(** X5.  [format_duration] tells durations apart: two different numbers
    of seconds, neither negative, are never rendered as the same text. *)
Theorem format_duration_injective (a b : Z) :
  (0 <= a)%Z -> (0 <= b)%Z ->
  Utils.format_duration a = Utils.format_duration b -> a = b.
Proof.
  intros Ha Hb. unfold Utils.format_duration.
  destruct (Z.ltb_spec a 0); [lia|]. destruct (Z.ltb_spec b 0); [lia|].
  cbv zeta.
  pose proof (Z.div_mod a 3600 ltac:(lia)) as Da.
  pose proof (Z.div_mod b 3600 ltac:(lia)) as Db.
  pose proof (Z.mod_pos_bound a 3600 ltac:(lia)) as Ma.
  pose proof (Z.mod_pos_bound b 3600 ltac:(lia)) as Mb.
  assert (forall x, 0 <= x -> 0 <= (x mod 3600) / 60 < 60)%Z as Hmin.
  { intros x Hx. pose proof (Z.mod_pos_bound x 3600 ltac:(lia)).
    split; [apply Z.div_pos; lia | apply Z.div_lt_upper_bound; lia]. }
  assert (forall x, 0 <= x -> 0 <= x mod 60 < 60)%Z as Hsec
    by (intros x Hx; apply Z.mod_pos_bound; lia).
  assert (forall x, 0 <= x ->
            x = 3600 * (x / 3600) + 60 * ((x mod 3600) / 60) + x mod 60)%Z
    as Hsplit.
  { intros x Hx.
    pose proof (Z.div_mod x 3600 ltac:(lia)).
    pose proof (Z.div_mod (x mod 3600) 60 ltac:(lia)).
    assert ((x mod 3600) mod 60 = x mod 60)%Z as E.
    { apply Z.mod_mod_divide. exists 60%Z. reflexivity. }
    lia. }
  assert (0 <= a / 3600)%Z by (apply Z.div_pos; lia).
  assert (0 <= b / 3600)%Z by (apply Z.div_pos; lia).
  pose proof (format_02d_two _ (Hmin a Ha)) as Ema.
  pose proof (format_02d_two _ (Hmin b Hb)) as Emb.
  pose proof (format_02d_two _ (Hsec a Ha)) as Esa.
  pose proof (format_02d_two _ (Hsec b Hb)) as Esb.
  intros E.
  assert ((a mod 3600) / 60 = (b mod 3600) / 60 /\ a mod 60 = b mod 60
          /\ a / 3600 = b / 3600)%Z as (E1 & E2 & E3);
    [|rewrite (Hsplit a Ha), (Hsplit b Hb), E1, E2, E3; reflexivity].
  destruct (Z.ltb_spec 0 (a / 3600)); destruct (Z.ltb_spec 0 (b / 3600)).
  - apply app_inj_2 in E as [Eh E].
    2:{ rewrite !length_app, Ema, Emb, Esa, Esb. reflexivity. }
    apply app_inv_head in E. apply app_inj_1 in E as [Em E].
    2:{ rewrite Ema, Emb. reflexivity. }
    apply app_inv_head in E.
    split_and!.
    + apply format_02d_two_inj; auto.
    + apply format_02d_two_inj; auto.
    + apply format_02d_inj; auto.
  - exfalso. apply (f_equal length) in E.
    rewrite !length_app, Ema, Emb, Esa, Esb in E. simpl in E. lia.
  - exfalso. apply (f_equal length) in E.
    rewrite !length_app, Ema, Emb, Esa, Esb in E. simpl in E. lia.
  - apply app_inj_1 in E as [Em E].
    2:{ rewrite Ema, Emb. reflexivity. }
    apply app_inv_head in E.
    split_and!.
    + apply format_02d_two_inj; auto.
    + apply format_02d_two_inj; auto.
    + lia.
Qed.

Lemma format_duration_injective_witness :
  Utils.format_duration 3725 = lit "01:02:05"
  /\ (Utils.format_duration 3725 = Utils.format_duration 3725 ->
      3725 = 3725)%Z.
Proof.
  split; [vm_compute; reflexivity|].
  apply format_duration_injective; lia.
Defined.

(** X6.  [select_from_list] returns an index into the list of options only
    for an input line that reads as that index plus one; it returns [None]
    for an empty list, at the end of the input, for the answer 0 when
    cancelling is allowed, or when every answer was rejected and the input
    ran out; and it raises only the keyboard interrupt. *)
Theorem select_from_list_result {A} (py_int : str -> option Z)
    (options : list A) (allow_cancel : bool)
    (inputs : list Utils.input_event) :
  match Utils.select_from_list py_int options allow_cancel inputs with
  | Ok (Some i) =>
      (0 <= i < Z.of_nat (length options))%Z
      /\ exists s, In (Utils.Line s) inputs
                   /\ py_int (strip s) = Some (i + 1)%Z
  | Ok None =>
      options = []
      \/ In Utils.EOF inputs
      \/ (allow_cancel = true
          /\ exists s, In (Utils.Line s) inputs
                       /\ py_int (strip s) = Some 0%Z)
      \/ Forall (rejected py_int (Z.of_nat (length options))) inputs
  | Raise e =>
      exc_cls e = KeyboardInterrupt /\ In Utils.Interrupt inputs
  end.
Proof.
  unfold Utils.select_from_list.
  destruct options as [|o options']; [left; reflexivity|].
  set (n := Z.of_nat (length (o :: options'))). clearbody n.
  induction inputs as [|[s| |] inputs IH]; cbn [Utils.select_loop].
  - right. right. right. constructor.
  - assert (rejected py_int n (Utils.Line s) ->
            match Utils.select_loop py_int n allow_cancel inputs with
            | Ok (Some i) =>
                (0 <= i < n)%Z
                /\ exists s0, In (Utils.Line s0) (Utils.Line s :: inputs)
                              /\ py_int (strip s0) = Some (i + 1)%Z
            | Ok None =>
                o :: options' = []
                \/ In Utils.EOF (Utils.Line s :: inputs)
                \/ (allow_cancel = true
                    /\ exists s0, In (Utils.Line s0) (Utils.Line s :: inputs)
                                  /\ py_int (strip s0) = Some 0%Z)
                \/ Forall (rejected py_int n) (Utils.Line s :: inputs)
            | Raise e =>
                exc_cls e = KeyboardInterrupt
                /\ In Utils.Interrupt (Utils.Line s :: inputs)
            end) as Hrest.
    { intros Hrej.
      destruct (Utils.select_loop py_int n allow_cancel inputs) as [[i|]|e].
      - destruct IH as [Hi (s0 & Hin & Hs)]. split; [exact Hi|].
        exists s0. split; [right; exact Hin | exact Hs].
      - destruct IH as [H|[H|[(Hc & s0 & Hin & Hs)|H]]].
        + left. exact H.
        + right. left. right. exact H.
        + right. right. left. split; [exact Hc|]. exists s0.
          split; [right; exact Hin | exact Hs].
        + right. right. right. constructor; assumption.
      - destruct IH as [Hc Hin]. split; [exact Hc | right; exact Hin]. }
    unfold rejected in Hrest.
    destruct (py_int (strip s)) as [idx|] eqn:Eint; [|apply Hrest; exact I].
    destruct ((idx =? 0)%Z && allow_cancel) eqn:E0.
    { apply andb_true_iff in E0 as [E0 ->]. apply Z.eqb_eq in E0. subst idx.
      right. right. left. split; [reflexivity|]. exists s.
      split; [left; reflexivity | exact Eint]. }
    destruct ((1 <=? idx)%Z && (idx <=? n)%Z) eqn:E1.
    2:{ apply Hrest. apply andb_false_iff in E1 as [E1|E1];
          [apply Z.leb_gt in E1 | apply Z.leb_gt in E1]; lia. }
    apply andb_true_iff in E1 as [E1 E2].
    apply Z.leb_le in E1. apply Z.leb_le in E2.
    split; [lia|]. exists s. split; [left; reflexivity|].
    rewrite Eint. f_equal. lia.
  - right. left. left. reflexivity.
  - split; [reflexivity | left; reflexivity].
Qed.

(** ** [retry_on_error] *)

Lemma retry_loop_spec (A : Type) (attempt : nat -> result A)
    (remaining i : nat) :
  let calls := fst (DownloaderCore.retry_loop attempt remaining i) in
  let outcome := snd (DownloaderCore.retry_loop attempt remaining i) in
  (i < calls <= i + remaining + 1)%nat
  /\ attempt (calls - 1)%nat = outcome
  /\ (forall j, (i <= j < calls - 1)%nat ->
        exists e, attempt j = Raise e /\ is_Exception e = true)
  /\ (forall e, outcome = Raise e ->
        is_Exception e = false \/ calls = (i + remaining + 1)%nat).
Proof.
  revert i. induction remaining as [|r IH]; intros i; simpl.
  - destruct (attempt i) as [a|e] eqn:E; simpl.
    + replace (i - 0)%nat with i by lia.
      split; [lia|]. split; [exact E|]. split; [intros j Hj; lia|].
      intros e [=].
    + destruct (is_Exception e) eqn:He; simpl;
        replace (i - 0)%nat with i by lia;
        (split; [lia|]; split; [exact E|]; split; [intros j Hj; lia|]).
      * intros e' _. right. lia.
      * intros e' [= <-]. left. exact He.
  - destruct (attempt i) as [a|e] eqn:E; simpl.
    + replace (i - 0)%nat with i by lia.
      split; [lia|]. split; [exact E|]. split; [intros j Hj; lia|].
      intros e [=].
    + destruct (is_Exception e) eqn:He; simpl.
      * specialize (IH (S i)). simpl in IH.
        destruct IH as (H1 & H3 & H4 & H5).
        split; [lia|]. split; [exact H3|]. split.
        -- intros j Hj. destruct (decide (j = i)) as [->|Hne].
           ++ exists e. split; assumption.
           ++ apply H4. lia.
        -- intros e' He'. destruct (H5 e' He') as [H|H]; [left; exact H|].
           right. lia.
      * replace (i - 0)%nat with i by lia.
        split; [lia|]. split; [exact E|]. split; [intros j Hj; lia|].
        intros e' [= <-]. left. exact He.
Qed.


(** ** Loading a configuration *)

Lemma str_eqb_sym (a b : str) : str_eqb a b = str_eqb b a.
Proof.
  destruct (str_eqb b a) eqn:E.
  - apply str_eqb_eq in E. subst. apply str_eqb_refl.
  - apply str_eqb_neq. intros ->. rewrite str_eqb_refl in E. discriminate E.
Qed.

Ltac setattr_cases key :=
  repeat match goal with
  | |- context [str_eqb key (lit ?f)] =>
      let E := fresh "E" in
      destruct (str_eqb key (lit f)) eqn:E;
      [apply str_eqb_eq in E; subst key; reflexivity|]
  end.

Lemma setattr_download_upd (c : Config.DownloadConfig) key v :
  Config.asdict_download (Config.setattr_download c key v)
  = upd key v (Config.asdict_download c).
Proof.
  unfold Config.setattr_download, upd, Config.asdict_download; simpl.
  setattr_cases key. reflexivity.
Qed.

Lemma setattr_transcode_upd (c : Config.TranscodeConfig) key v :
  Config.asdict_transcode (Config.setattr_transcode c key v)
  = upd key v (Config.asdict_transcode c).
Proof.
  unfold Config.setattr_transcode, upd, Config.asdict_transcode; simpl.
  setattr_cases key. reflexivity.
Qed.

Lemma setattr_network_upd (c : Config.NetworkConfig) key v :
  Config.asdict_network (Config.setattr_network c key v)
  = upd key v (Config.asdict_network c).
Proof.
  unfold Config.setattr_network, upd, Config.asdict_network; simpl.
  setattr_cases key. reflexivity.
Qed.

Lemma setattr_ui_upd (c : Config.UIConfig) key v :
  Config.asdict_ui (Config.setattr_ui c key v)
  = upd key v (Config.asdict_ui c).
Proof.
  unfold Config.setattr_ui, upd, Config.asdict_ui; simpl.
  setattr_cases key. reflexivity.
Qed.

Lemma dict_get_absent (items : Config.dict) (k : str) :
  ~ In k (List.map fst items) -> Config.dict_get items k = None.
Proof.
  induction items as [|[k' v'] items IH]; simpl; [reflexivity|].
  intros H. rewrite str_eqb_neq by tauto. apply IH. tauto.
Qed.

Lemma fold_upd_overlay (items d : Config.dict) :
  NoDup (List.map fst items) ->
  fold_left (fun acc kv => upd (fst kv) (snd kv) acc) items d
  = overlay d items.
Proof.
  revert d. induction items as [|[k v] items IH]; intros d Hnd; simpl.
  - unfold overlay. simpl. induction d as [|[k0 v0] d IHd]; simpl;
      [reflexivity | f_equal; exact IHd].
  - apply NoDup_cons in Hnd as [Hk Hnd]. rewrite IH by exact Hnd.
    unfold overlay, upd. rewrite List.map_map. apply List.map_ext.
    intros [k0 v0]. simpl. f_equal.
    destruct (str_eqb k k0) eqn:E.
    + apply str_eqb_eq in E. subst k0.
      rewrite dict_get_absent; [reflexivity|].
      rewrite <- list_elem_of_In. exact Hk.
    + reflexivity.
Qed.

Lemma load_section_overlay {A} (setattr : A -> str -> Config.value -> A)
    (asdict : A -> Config.dict) (data : Config.dict) (name : str) (obj o : A) :
  (forall c k v, asdict (setattr c k v) = upd k v (asdict c)) ->
  NoDup (List.map fst (section_items data name)) ->
  Config.load_section setattr data name obj = Ok o ->
  asdict o = overlay (asdict obj) (section_items data name).
Proof.
  intros Hset Hnd. unfold Config.load_section, section_items in *.
  destruct (Config.dict_get data name) as [[| | | | |items|]|];
    try discriminate.
  - intros [= <-]. rewrite <- fold_upd_overlay by exact Hnd.
    clear Hnd. revert obj. induction items as [|[k v] items IH]; intros obj;
      simpl; [reflexivity|].
    rewrite IH, Hset. reflexivity.
  - intros [= <-]. unfold overlay. simpl.
    induction (asdict obj) as [|[k0 v0] d IHd]; simpl;
      [reflexivity | f_equal; exact IHd].
Qed.

(** X8.  For a dictionary whose sections have pairwise distinct keys, none
    of them starting with an underscore (such a name may be an attribute
    that is no field), the configuration [from_dict] returns is the
    default configuration with each known field replaced by the value the
    section holds for it; unknown keys and the version entry are not
    read. *)
Theorem from_dict_overlay (data : Config.dict) (c : Config.VDDTConfig) :
  plain_sections data ->
  Config.from_dict data = Ok c ->
  Config.to_dict c =
    [ (lit "download",
       Config.VDict
         (overlay (Config.asdict_download Config.DownloadConfig_default)
                  (section_items data (lit "download"))));
      (lit "transcode",
       Config.VDict
         (overlay (Config.asdict_transcode Config.TranscodeConfig_default)
                  (section_items data (lit "transcode"))));
      (lit "network",
       Config.VDict
         (overlay (Config.asdict_network Config.NetworkConfig_default)
                  (section_items data (lit "network"))));
      (lit "ui",
       Config.VDict
         (overlay (Config.asdict_ui Config.UIConfig_default)
                  (section_items data (lit "ui"))));
      (lit "version", Config.VStr (lit "2.1.0")) ].
Proof.
  intros Hplain. unfold plain_sections, section_names in Hplain.
  apply Forall_cons in Hplain as [[Hd _] Hplain].
  apply Forall_cons in Hplain as [[Ht _] Hplain].
  apply Forall_cons in Hplain as [[Hn _] Hplain].
  apply Forall_cons in Hplain as [[Hu _] _].
  unfold Config.from_dict. cbv zeta.
  destruct (Config.load_section Config.setattr_download _ _ _) as [d|e] eqn:Ed;
    [|discriminate].
  destruct (Config.load_section Config.setattr_transcode _ _ _) as [t|e] eqn:Et;
    [|discriminate].
  destruct (Config.load_section Config.setattr_network _ _ _) as [n|e] eqn:En;
    [|discriminate].
  destruct (Config.load_section Config.setattr_ui _ _ _) as [u|e] eqn:Eu;
    [|discriminate].
  simpl. intros [= <-]. unfold Config.to_dict. simpl.
  rewrite (load_section_overlay _ Config.asdict_download _ _ _ _
             setattr_download_upd Hd Ed).
  rewrite (load_section_overlay _ Config.asdict_transcode _ _ _ _
             setattr_transcode_upd Ht Et).
  rewrite (load_section_overlay _ Config.asdict_network _ _ _ _
             setattr_network_upd Hn En).
  rewrite (load_section_overlay _ Config.asdict_ui _ _ _ _
             setattr_ui_upd Hu Eu).
  reflexivity.
Qed.

Lemma partial_config_plain : plain_sections partial_config.
Proof.
  unfold plain_sections, section_names.
  repeat apply Forall_cons_2; try apply List.Forall_nil; split;
    try (vm_compute; repeat constructor; fail).
  all: vm_compute.
  all: repeat (apply NoDup_cons_2 || apply NoDup_nil_2 || constructor).
  all: try (intros H; repeat (apply elem_of_cons in H as [H|H]; [discriminate H|]);
            apply elem_of_nil in H; exact H).
  all: try (intros H; discriminate H).
Defined.

Lemma from_dict_overlay_witness :
  exists c, Config.from_dict partial_config = Ok c
  /\ Config.dict_get (Config.to_dict c) (lit "download")
     = Some (Config.VDict
         (overlay (Config.asdict_download Config.DownloadConfig_default)
                  (section_items partial_config (lit "download")))).
Proof.
  eexists. split; [reflexivity|].
  rewrite (from_dict_overlay partial_config _ partial_config_plain eq_refl).
  reflexivity.
Defined.

Lemma load_section_cases {A} (setattr : A -> str -> Config.value -> A)
    (data : Config.dict) (name : str) (obj : A) :
  (exists o, Config.load_section setattr data name obj = Ok o
     /\ forall v, Config.dict_get data name = Some v -> is_dict v = true)
  \/ (Config.load_section setattr data name obj
        = Raise (Exc AttributeError (lit "object has no attribute 'items'"))
      /\ exists v, Config.dict_get data name = Some v /\ is_dict v = false).
Proof.
  unfold Config.load_section.
  destruct (Config.dict_get data name) as [v|].
  - destruct v; try (right; split; [reflexivity|]; eexists; split;
                     reflexivity).
    left. eexists. split; [reflexivity|]. intros v [= <-]. reflexivity.
  - left. eexists. split; [reflexivity|]. intros v [=].
Qed.

(** X9.  On such a dictionary [from_dict] raises exactly when one of the
    entries download, transcode, network, ui is present and is not a
    dictionary, and what it raises then is an [AttributeError]. *)
Theorem from_dict_raises_iff (data : Config.dict) :
  plain_sections data ->
  ((exists e, Config.from_dict data = Raise e)
   <-> exists name v, In name section_names
         /\ Config.dict_get data name = Some v /\ is_dict v = false)
  /\ (forall e, Config.from_dict data = Raise e ->
        exc_cls e = AttributeError).
Proof.
  intros _. unfold Config.from_dict, section_names. cbv zeta.
  destruct (load_section_cases Config.setattr_download data (lit "download")
              (Config.download Config.VDDTConfig_default))
    as [(d & -> & Hd)|[-> (v & Hg & Hv)]]; cbn [bind].
  2:{ split; [|intros e [= <-]; reflexivity].
      split; [|eauto]. intros _. exists (lit "download"), v. simpl. tauto. }
  destruct (load_section_cases Config.setattr_transcode data (lit "transcode")
              (Config.transcode Config.VDDTConfig_default))
    as [(t & -> & Ht)|[-> (v & Hg & Hv)]]; cbn [bind].
  2:{ split; [|intros e [= <-]; reflexivity].
      split; [|eauto]. intros _. exists (lit "transcode"), v. simpl. tauto. }
  destruct (load_section_cases Config.setattr_network data (lit "network")
              (Config.network Config.VDDTConfig_default))
    as [(n & -> & Hn)|[-> (v & Hg & Hv)]]; cbn [bind].
  2:{ split; [|intros e [= <-]; reflexivity].
      split; [|eauto]. intros _. exists (lit "network"), v. simpl. tauto. }
  destruct (load_section_cases Config.setattr_ui data (lit "ui")
              (Config.ui Config.VDDTConfig_default))
    as [(u & -> & Hu)|[-> (v & Hg & Hv)]]; cbn [bind].
  2:{ split; [|intros e [= <-]; reflexivity].
      split; [|eauto]. intros _. exists (lit "ui"), v. simpl. tauto. }
  split; [|intros e [=]]. split.
  - intros [e [=]].
  - intros (name & v & Hin & Hg & Hv).
    destruct Hin as [<-|[<-|[<-|[<-|[]]]]];
      [apply Hd in Hg | apply Ht in Hg | apply Hn in Hg | apply Hu in Hg];
      congruence.
Qed.

Lemma broken_config_plain : plain_sections broken_config.
Proof.
  unfold plain_sections, section_names.
  repeat apply Forall_cons_2; try apply List.Forall_nil; split;
    vm_compute; constructor.
Defined.

Lemma from_dict_raises_iff_witness :
  exists e, Config.from_dict broken_config = Raise e
            /\ exc_cls e = AttributeError.
Proof.
  destruct (from_dict_raises_iff broken_config broken_config_plain)
    as [[_ H] Hcls].
  destruct H as [e He].
  - exists (lit "ui"), (Config.VInt 3). simpl. split; [tauto|].
    split; reflexivity.
  - exists e. split; [exact He | exact (Hcls e He)].
Defined.

(** ** More on the cookie files *)

Lemma converted_is_netscape (lines : list str) :
  (1 <? length (DownloaderCore.NETSCAPE_HEADER :: lines))%nat = true ->
  startswith (lit "# Netscape")
    (strip (join [10] (DownloaderCore.NETSCAPE_HEADER :: lines))) = true.
Proof.
  intros H. destruct lines as [|l lines]; [discriminate H|].
  rewrite join_cons by discriminate.
  apply netscape_prefix_stripped. reflexivity.
Qed.

(** What a successful attempt on one file does. *)
Lemma try_cookie_file_found (fs fs' : FS.t) (domain ck p : str) :
  DownloaderCore.try_cookie_file fs domain ck = DownloaderCore.Found fs' p ->
  p = ck
  /\ FS.cwd fs' = FS.cwd fs
  /\ (exists c w, FS.nodes fs !! ck = Some (FS.File c w))
  /\ (fs' = fs
      \/ exists text,
           FS.nodes fs' = <[ck := FS.File (Ok text) true]> (FS.nodes fs)
           /\ startswith (lit "# Netscape") (strip text) = true)
  /\ netscape_file fs' ck.
Proof.
  unfold DownloaderCore.try_cookie_file, FS.read_text, FS.write_text,
    netscape_file, FS.read_text.
  destruct (FS.nodes fs !! ck) as [[|c w]|] eqn:En; cbv beta iota zeta.
  - intros [=].
  - destruct c as [text|e]; [|destruct (is_Exception e); intros [=]].
    destruct (startswith (lit "# Netscape") (strip text)) eqn:Hn.
    + intros [= <- <-]. split_and!; eauto.
      exists text. rewrite En. split; [reflexivity | exact Hn].
    + destruct (1 <? length _)%nat eqn:El; [|intros [=]].
      destruct w; cbv beta iota zeta; [|intros [=]].
      intros [= <- <-]. cbn [FS.cwd FS.nodes]. split_and!; eauto.
      * right. eexists. split; [reflexivity|].
        apply converted_is_netscape, El.
      * eexists. rewrite lookup_insert_eq. split; [reflexivity|].
        apply converted_is_netscape, El.
  - intros [=].
Qed.

(** The outcome of an attempt depends on the file it is made on only. *)
Lemma try_cookie_file_local (fs1 fs2 : FS.t) (domain ck : str) :
  FS.nodes fs1 !! ck = FS.nodes fs2 !! ck ->
  match DownloaderCore.try_cookie_file fs1 domain ck with
  | DownloaderCore.Found _ _ =>
      exists fs' p, DownloaderCore.try_cookie_file fs2 domain ck
                    = DownloaderCore.Found fs' p
  | o => DownloaderCore.try_cookie_file fs2 domain ck = o
  end.
Proof.
  intros H.
  unfold DownloaderCore.try_cookie_file, FS.read_text, FS.write_text.
  rewrite <- H.
  destruct (FS.nodes fs1 !! ck) as [[|c w]|]; cbv beta iota zeta; try reflexivity.
  destruct c as [text|e]; [|destruct (is_Exception e); reflexivity].
  destruct (startswith (lit "# Netscape") (strip text)); [eauto|].
  destruct (1 <? length _)%nat; [|reflexivity].
  destruct w; cbv beta iota zeta; [eauto | reflexivity].
Qed.

Lemma try_cookie_file_again (fs fs' : FS.t) (domain ck p : str) :
  DownloaderCore.try_cookie_file fs domain ck = DownloaderCore.Found fs' p ->
  DownloaderCore.try_cookie_file fs' domain ck = DownloaderCore.Found fs' p.
Proof.
  intros H. destruct (try_cookie_file_found _ _ _ _ _ H)
    as (-> & _ & _ & _ & (text & Hr & Hn)).
  unfold DownloaderCore.try_cookie_file. rewrite Hr, Hn. reflexivity.
Qed.

Section Candidates.

Variables (domain dir : str).

(** What the loop over the candidates does to the file system. *)
Lemma try_candidates_frame (fs : FS.t) (files : list str) :
  let fs' := fst (DownloaderCore.try_candidates fs domain dir files) in
  let r := snd (DownloaderCore.try_candidates fs domain dir files) in
  FS.cwd fs' = FS.cwd fs
  /\ (forall q, FS.exists_ fs' q = FS.exists_ fs q)
  /\ (forall q, FS.isdir fs' q = FS.isdir fs q)
  /\ (forall q, r <> Ok (Some q) -> FS.nodes fs' !! q = FS.nodes fs !! q)
  /\ (forall q, r = Ok (Some q) ->
        (exists f, In f files /\ q = PosixPath.join dir f)
        /\ DownloaderCore.try_cookie_file fs domain q
           = DownloaderCore.Found fs' q)
  /\ (forall e, r = Raise e -> is_Exception e = false).
Proof.
  induction files as [|f files IH]; simpl.
  - split_and!; try reflexivity; intros ? [=].
  - destruct (FS.exists_ fs (PosixPath.join dir f)) eqn:Ex.
    2:{ destruct IH as (H1 & H2 & H3 & H4 & H5 & H6).
        split_and!; try assumption.
        intros q Hq. destruct (H5 q Hq) as [(f' & Hin & ->) Hf].
        split; [eauto | exact Hf]. }
    destruct (DownloaderCore.try_cookie_file fs domain (PosixPath.join dir f))
      as [fs1 p| |e] eqn:Et; simpl.
    + destruct (try_cookie_file_found _ _ _ _ _ Et)
        as (-> & Hcwd & (c & w & Hfile) & Hfs & _).
      assert (forall q, q <> PosixPath.join dir f ->
                FS.nodes fs1 !! q = FS.nodes fs !! q) as Hother.
      { intros q Hq. destruct Hfs as [->|(text & -> & _)]; [reflexivity|].
        apply lookup_insert_ne. congruence. }
      assert (exists c' w', FS.nodes fs1 !! PosixPath.join dir f
                            = Some (FS.File c' w')) as (c' & w' & Hnew).
      { destruct Hfs as [->|(text & E & _)]; [eauto|].
        rewrite E, lookup_insert_eq. eauto. }
      split_and!.
      * exact Hcwd.
      * intros q. unfold FS.exists_.
        destruct (decide (q = PosixPath.join dir f)) as [->|Hq].
        -- rewrite Hnew, Hfile. reflexivity.
        -- rewrite Hother by exact Hq. reflexivity.
      * intros q. unfold FS.isdir.
        destruct (decide (q = PosixPath.join dir f)) as [->|Hq].
        -- rewrite Hnew, Hfile. reflexivity.
        -- rewrite Hother by exact Hq. reflexivity.
      * intros q Hq. apply Hother. congruence.
      * intros q [= <-]. split; [eauto | exact Et].
      * intros e [=].
    + destruct IH as (H1 & H2 & H3 & H4 & H5 & H6).
      split_and!; try assumption.
      intros q Hq. destruct (H5 q Hq) as [(f' & Hin & ->) Hf].
      split; [eauto | exact Hf].
    + split_and!; try reflexivity; try (intros ? [=]; fail).
      intros e' [= <-].
      unfold DownloaderCore.try_cookie_file in Et.
      destruct (FS.read_text fs (PosixPath.join dir f)) as [text|e0].
      * destruct (startswith _ _); [discriminate|].
        destruct (1 <? _)%nat; [|discriminate].
        destruct (FS.write_text _ _ _) as [|e1]; [discriminate|].
        destruct (is_Exception e1) eqn:E1; [discriminate|].
        injection Et as <-. exact E1.
      * destruct (is_Exception e0) eqn:E0; [discriminate|].
        injection Et as <-. exact E0.
Qed.

Lemma try_candidates_again (fs : FS.t) (files : list str) :
  DownloaderCore.try_candidates
    (fst (DownloaderCore.try_candidates fs domain dir files)) domain dir files
  = DownloaderCore.try_candidates fs domain dir files.
Proof.
  induction files as [|f files IH]; simpl; [reflexivity|].
  destruct (FS.exists_ fs (PosixPath.join dir f)) eqn:Ex.
  2:{ destruct (try_candidates_frame fs files) as (_ & H2 & _).
      cbv zeta in H2. rewrite H2, Ex. exact IH. }
  destruct (DownloaderCore.try_cookie_file fs domain (PosixPath.join dir f))
    as [fs1 p| |e] eqn:Et; simpl.
  - pose proof (try_cookie_file_again _ _ _ _ _ Et) as Hagain.
    destruct (try_cookie_file_found _ _ _ _ _ Et)
      as (-> & _ & _ & _ & (text & Hr & _)).
    assert (FS.exists_ fs1 (PosixPath.join dir f) = true) as ->.
    { unfold FS.exists_. unfold FS.read_text in Hr.
      destruct (FS.nodes fs1 !! PosixPath.join dir f); [reflexivity|].
      discriminate Hr. }
    rewrite Hagain. reflexivity.
  - destruct (try_candidates_frame fs files) as (_ & H2 & _ & H4 & H5 & _).
    cbv zeta in H2, H4, H5. rewrite H2, Ex.
    pose proof (try_cookie_file_local fs
                  (fst (DownloaderCore.try_candidates fs domain dir files))
                  domain (PosixPath.join dir f)) as Hloc.
    rewrite Et in Hloc. rewrite Hloc; [exact IH|].
    symmetry. apply H4. intros Hq.
    destruct (H5 _ Hq) as [_ Hf]. congruence.
  - rewrite Ex, Et. reflexivity.
Qed.

End Candidates.

(** X10.  [prepare_cookies_netscape] is idempotent: called again on the
    file system it left, for the same URL, it leaves the file system as it
    is and returns (or raises) what it did the first time. *)
Theorem prepare_cookies_netscape_idempotent
    (netloc_of : str -> option str) (fs : FS.t) (target_url : str) :
  DownloaderCore.prepare_cookies_netscape netloc_of
    (fst (DownloaderCore.prepare_cookies_netscape netloc_of fs target_url))
    target_url
  = DownloaderCore.prepare_cookies_netscape netloc_of fs target_url.
Proof.
  unfold DownloaderCore.prepare_cookies_netscape at 2 3.
  destruct (FS.isdir fs (DownloaderCore.cookies_dir fs)) eqn:Ed;
    cbn [negb fst].
  2:{ unfold DownloaderCore.prepare_cookies_netscape. rewrite Ed.
      reflexivity. }
  destruct (Utils.extract_domain netloc_of target_url) as [domain|] eqn:Ex;
    cbn [fst].
  2:{ unfold DownloaderCore.prepare_cookies_netscape. rewrite Ed, Ex.
      reflexivity. }
  destruct (try_candidates_frame domain (DownloaderCore.cookies_dir fs) fs
              (DownloaderCore.possible_files domain)) as (H1 & _ & H3 & _).
  cbv zeta in H1, H3.
  unfold DownloaderCore.prepare_cookies_netscape.
  set (fs' := fst (DownloaderCore.try_candidates fs domain _ _)) in *.
  assert (DownloaderCore.cookies_dir fs' = DownloaderCore.cookies_dir fs) as Hdir
    by (unfold DownloaderCore.cookies_dir; rewrite H1; reflexivity).
  rewrite Hdir, H3, Ed, Ex. cbn [negb]. apply try_candidates_again.
Qed.

(** X11.  [prepare_cookies_netscape] creates and deletes nothing and stays
    in the working directory; the only path whose contents it may change
    is the one it returns, so that the file system is unchanged when it
    returns [None] or raises; and what it raises is never an
    [Exception]. *)
Theorem prepare_cookies_netscape_frame
    (netloc_of : str -> option str) (fs : FS.t) (target_url : str) :
  let fs' :=
    fst (DownloaderCore.prepare_cookies_netscape netloc_of fs target_url) in
  let r :=
    snd (DownloaderCore.prepare_cookies_netscape netloc_of fs target_url) in
  FS.cwd fs' = FS.cwd fs
  /\ (forall q, FS.exists_ fs' q = FS.exists_ fs q)
  /\ (forall q, FS.isdir fs' q = FS.isdir fs q)
  /\ (forall q, r <> Ok (Some q) -> FS.nodes fs' !! q = FS.nodes fs !! q)
  /\ (forall e, r = Raise e -> is_Exception e = false).
Proof.
  unfold DownloaderCore.prepare_cookies_netscape.
  destruct (FS.isdir fs (DownloaderCore.cookies_dir fs)); simpl.
  2:{ split_and!; try reflexivity. intros e [=]. }
  destruct (Utils.extract_domain netloc_of target_url) as [domain|].
  2:{ split_and!; try reflexivity. intros e [=]. }
  destruct (try_candidates_frame domain (DownloaderCore.cookies_dir fs) fs
              (DownloaderCore.possible_files domain))
    as (H1 & H2 & H3 & H4 & _ & H6).
  split_and!; assumption.
Qed.

(** X12.  When [prepare_cookies_netscape] returns a path, that path names
    one of the three candidate files of the domain in the cookies
    directory, the file existed before the call, and after the call it
    reads as a text that starts, once stripped, with "# Netscape". *)
Theorem prepare_cookies_netscape_returns
    (netloc_of : str -> option str) (fs : FS.t) (target_url path : str) :
  let fs' :=
    fst (DownloaderCore.prepare_cookies_netscape netloc_of fs target_url) in
  snd (DownloaderCore.prepare_cookies_netscape netloc_of fs target_url)
  = Ok (Some path) ->
  (exists domain f,
     Utils.extract_domain netloc_of target_url = Some domain
     /\ In f (DownloaderCore.possible_files domain)
     /\ path = PosixPath.join (DownloaderCore.cookies_dir fs) f)
  /\ FS.exists_ fs path = true
  /\ netscape_file fs' path.
Proof.
  unfold DownloaderCore.prepare_cookies_netscape.
  destruct (FS.isdir fs (DownloaderCore.cookies_dir fs)); simpl;
    [|intros [=]].
  destruct (Utils.extract_domain netloc_of target_url) as [domain|];
    [|intros [=]].
  destruct (try_candidates_frame domain (DownloaderCore.cookies_dir fs) fs
              (DownloaderCore.possible_files domain))
    as (_ & _ & _ & _ & H5 & _).
  cbv zeta in H5. intros Hr. destruct (H5 path Hr) as [(f & Hin & Hp) Hf].
  destruct (try_cookie_file_found _ _ _ _ _ Hf)
    as (_ & _ & (c & w & Hfile) & _ & Hn).
  split_and!.
  - exists domain, f. split_and!; [reflexivity | exact Hin | exact Hp].
  - unfold FS.exists_. rewrite Hfile. reflexivity.
  - exact Hn.
Qed.

Lemma prepare_cookies_netscape_returns_witness :
  netscape_file
    (fst (DownloaderCore.prepare_cookies_netscape example_netloc
            one_cookie_file (lit "https://example.com/v")))
    (lit "/app/cookies/example.com.ck").
Proof.
  apply (prepare_cookies_netscape_returns example_netloc one_cookie_file
           (lit "https://example.com/v") (lit "/app/cookies/example.com.ck")).
  vm_compute. reflexivity.
Defined.

(** ** The options of a download *)

Section OptionFacts.
Import Config DownloaderCore.

Lemma dict_update_get (d e : dict) (k : str) :
  NoDup (List.map fst e) ->
  dict_get (dict_update d e) k
  = match dict_get e k with Some v => Some v | None => dict_get d k end.
Proof.
  unfold dict_update. revert d.
  induction e as [|[k0 v0] e IH]; intros d Hnd; simpl; [reflexivity|].
  apply NoDup_cons in Hnd as [Hk Hnd]. rewrite IH by exact Hnd.
  rewrite dict_get_set. destruct (str_eqb k0 k) eqn:E.
  - apply str_eqb_eq in E. subst k0.
    assert (dict_get e k = None) as ->; [|reflexivity].
    clear -Hk. induction e as [|[k1 v1] e IH]; simpl; [reflexivity|].
    rewrite str_eqb_neq.
    + apply IH. intros H. apply Hk. simpl. right. exact H.
    + intros ->. apply Hk. simpl. left.
  - reflexivity.
Qed.

Lemma merged_opts_get (self : core) (ydl_opts : option dict) (k : str) :
  NoDup (List.map fst (caller_options ydl_opts)) ->
  dict_get (merged_opts self ydl_opts) k
  = lookup_first [caller_options ydl_opts; get_base_opts self] k.
Proof.
  intros Hnd. unfold merged_opts, lookup_first.
  destruct ydl_opts as [[|kv more]|].
  - cbn [caller_options dict_get].
    destruct (dict_get (get_base_opts self) k); reflexivity.
  - rewrite dict_update_get by exact Hnd. cbn [caller_options].
    destruct (dict_get (kv :: more) k); [reflexivity|].
    destruct (dict_get (get_base_opts self) k); reflexivity.
  - cbn [caller_options dict_get].
    destruct (dict_get (get_base_opts self) k); reflexivity.
Qed.

Lemma download_opts_get (self : core) (format_id outtmpl : str)
    (ydl_opts : option dict) (k : str) :
  NoDup (List.map fst (caller_options ydl_opts)) ->
  dict_get (download_opts self format_id outtmpl ydl_opts) k
  = lookup_first [own_options self format_id outtmpl;
                  caller_options ydl_opts; get_base_opts self] k.
Proof.
  intros Hnd. unfold download_opts. cbv zeta. rewrite !dict_get_set.
  rewrite (merged_opts_get self ydl_opts k Hnd).
  unfold own_options. cbn [lookup_first dict_get].
  destruct (str_eqb (lit "outtmpl") k) eqn:E1.
  { apply str_eqb_eq in E1. subst k. reflexivity. }
  destruct (str_eqb (lit "format") k) eqn:E2.
  { apply str_eqb_eq in E2. subst k. reflexivity. }
  destruct (str_eqb (lit "progress_hooks") k) eqn:E3.
  { apply str_eqb_eq in E3. subst k. reflexivity. }
  destruct (str_eqb (lit "concurrent_fragment_downloads") k) eqn:E4.
  { apply str_eqb_eq in E4. subst k. reflexivity. }
  destruct (str_eqb (lit "fragment_retries") k) eqn:E5.
  { apply str_eqb_eq in E5. subst k. reflexivity. }
  destruct (str_eqb (lit "retries") k) eqn:E6; reflexivity.
Qed.

End OptionFacts.

Section OptionTheorem.
Import Config DownloaderCore.

Variable engine_download : dict -> list str -> result unit.
Variable parse_upload_date : value -> result str.

Lemma download_engine_event (self : core) (url format_id output_dir : str)
    (ydl_opts info_dict : option dict) (opts : dict) (urls : list str) :
  In (EngineDownload opts urls)
     (fst (download_ engine_download parse_upload_date self url format_id
             output_dir ydl_opts info_dict)) ->
  exists outtmpl,
    outtmpl_for parse_upload_date output_dir info_dict = Ok outtmpl
    /\ opts = download_opts self format_id outtmpl ydl_opts
    /\ urls = [url].
Proof.
  unfold download_.
  destruct (outtmpl_for _ _ _) as [outtmpl|e]; [|intros []].
  intros H. exists outtmpl. split; [reflexivity|].
  assert (forall tail : list event,
            In (EngineDownload opts urls) tail ->
            (forall o u, ~ In (EngineDownload o u) tail) -> False) as Hno
    by (intros tail H1 H2; exact (H2 _ _ H1)).
  destruct (engine_download _ _) as [[]|e].
  - apply in_app_or in H as [H|H].
    + simpl in H. destruct H as [H|[H|[H|[H|[H|[H|[]]]]]]]; try discriminate H.
      injection H as <- <-. split; reflexivity.
    + exfalso. simpl in H. destruct H as [H|[H|[H|[]]]]; discriminate H.
  - assert (In (EngineDownload opts urls)
              [Log (PreparingDownload url);
               Log (DownloadParameters format_id output_dir);
               Print PreparingBanner;
               Print (OutputTemplate
                 (dict_get (download_opts self format_id outtmpl ydl_opts)
                    (lit "outtmpl")));
               Print (ChosenFormat format_id);
               EngineDownload
                 (download_opts self format_id outtmpl ydl_opts) [url]]) as H'.
    { destruct e as [[] msg]; cbn [exc_cls is_Exception fst] in H;
        try exact H;
        (apply in_app_or in H as [H|H]; [exact H|]; exfalso; simpl in H;
         repeat (destruct H as [H|H]; [discriminate H|]); exact H). }
    simpl in H'. destruct H' as [H'|[H'|[H'|[H'|[H'|[H'|[]]]]]]];
      try discriminate H'.
    injection H' as <- <-. split; reflexivity.
Qed.

(** X13.  In the options [download] hands to the engine, the six entries
    it sets itself (outtmpl, format, progress_hooks,
    concurrent_fragment_downloads, fragment_retries, retries) win over the
    caller's [ydl_opts], and the caller's entries win over the base
    options. *)
Theorem download_option_precedence (self : core)
    (url format_id output_dir : str) (ydl_opts info_dict : option dict)
    (opts : dict) (urls : list str) :
  NoDup (List.map fst (caller_options ydl_opts)) ->
  In (EngineDownload opts urls)
     (fst (download_ engine_download parse_upload_date self url format_id
             output_dir ydl_opts info_dict)) ->
  exists outtmpl,
    outtmpl_for parse_upload_date output_dir info_dict = Ok outtmpl
    /\ forall k,
         dict_get opts k
         = lookup_first [own_options self format_id outtmpl;
                         caller_options ydl_opts; get_base_opts self] k.
Proof.
  intros Hnd Hin.
  destruct (download_engine_event _ _ _ _ _ _ _ _ Hin)
    as (outtmpl & Ho & -> & _).
  exists outtmpl. split; [exact Ho|]. intros k.
  apply download_opts_get, Hnd.
Qed.

End OptionTheorem.

Lemma overriding_options_distinct :
  NoDup (List.map fst (caller_options (Some overriding_options))).
Proof.
  vm_compute. apply NoDup_cons_2; [|apply NoDup_cons_2; [|apply NoDup_nil_2]].
  - intros H. apply elem_of_cons in H as [H|H]; [discriminate H|].
    apply elem_of_nil in H. exact H.
  - intros H. apply elem_of_nil in H. exact H.
Defined.

Lemma download_option_precedence_witness :
  let opts :=
    DownloaderCore.download_opts default_core (lit "best")
      (lit "out/%(title)s.%(ext)s") (Some overriding_options) in
  Config.dict_get opts (lit "format") = Some (Config.VStr (lit "best"))
  /\ Config.dict_get opts (lit "quiet") = Some (Config.VBool false).
Proof.
  intros opts.
  destruct (download_option_precedence failing_download
              (fun _ => Ok (lit "2025-01-15")) default_core
              (lit "https://example.com/v") (lit "best") (lit "out")
              (Some overriding_options) None opts
              [lit "https://example.com/v"] overriding_options_distinct)
    as (outtmpl & _ & Hk).
  - vm_compute. do 5 right. left. reflexivity.
  - split; rewrite Hk; reflexivity.
Defined.

(** ** [suggest_best_quality] *)

Section SuggestFacts.
Import Config DownloaderCore.

Variable py_int : str -> option Z.

Lemma get_height_error (f : FormatInfo) (e : exc) :
  get_height py_int f = Raise e -> exc_cls e = AttributeError.
Proof.
  unfold get_height. destruct (fi_resolution f) as [|b|z|res|l|d|t];
    cbn [truthy].
  - intros [=].
  - destruct b; intros [= <-]. reflexivity.
  - destruct (negb _); intros [= <-]. reflexivity.
  - destruct (_ && _); [destruct (py_int _)|]; intros [=].
  - destruct l; intros [= <-]. reflexivity.
  - destruct d; intros [= <-]. reflexivity.
  - intros [= <-]. reflexivity.
Qed.

Lemma keyed_ok (l : list FormatInfo) (k : list (Z * FormatInfo)) :
  keyed py_int l = Ok k ->
  List.map snd k = l
  /\ Forall (fun hf => get_height py_int (snd hf) = Ok (fst hf)) k.
Proof.
  revert k. induction l as [|f l IH]; intros k; cbn [keyed].
  - intros [= <-]. split; [reflexivity | constructor].
  - destruct (get_height py_int f) as [h|e] eqn:Eh; [|intros [=]].
    cbn [bind]. destruct (keyed py_int l) as [r|e]; [|intros [=]].
    cbn [bind]. intros [= <-]. destruct (IH r eq_refl) as [Hm Hf].
    split; [simpl; rewrite Hm; reflexivity|].
    constructor; [exact Eh | exact Hf].
Qed.

Lemma keyed_error (l : list FormatInfo) (e : exc) :
  keyed py_int l = Raise e ->
  exists f, In f l /\ get_height py_int f = Raise e.
Proof.
  induction l as [|f l IH]; cbn [keyed]; [intros [=]|].
  destruct (get_height py_int f) as [h|e'] eqn:Eh.
  - cbn [bind]. destruct (keyed py_int l) as [r|e'']; [intros [=]|].
    cbn [bind]. intros [= <-]. destruct (IH eq_refl) as (g & Hin & Hg).
    exists g. split; [right; exact Hin | exact Hg].
  - cbn [bind]. intros [= <-]. exists f. split; [left; reflexivity | exact Eh].
Qed.

(** The head of the sorted list is the first entry with the largest key. *)
Lemma sorted_desc_head (k : list (Z * FormatInfo)) :
  k <> [] ->
  exists best rest pre post,
    sorted_desc k = best :: rest
    /\ k = pre ++ best :: post
    /\ Forall (fun x => (fst x < fst best)%Z) pre
    /\ Forall (fun x => (fst x <= fst best)%Z) post.
Proof.
  induction k as [|x k IH]; [congruence|]. intros _.
  destruct k as [|y k'].
  - exists x, [], [], []. simpl. split_and!; try reflexivity; constructor.
  - destruct (IH ltac:(discriminate))
      as (best & rest & pre & post & Hs & Hk & Hpre & Hpost).
    cbn [sorted_desc fold_right] in *. rewrite Hs. cbn [insert_desc].
    destruct (Z.ltb_spec (fst x) (fst best)) as [Hlt|Hge].
    + exists best, (insert_desc x rest), (x :: pre), post.
      split_and!; [reflexivity | rewrite Hk; reflexivity | | exact Hpost].
      constructor; [exact Hlt | exact Hpre].
    + exists x, (best :: rest), [], (y :: k').
      split_and!; [reflexivity | reflexivity | constructor |].
      rewrite Hk. apply Forall_app. split.
      * eapply Forall_impl; [exact Hpre|]. simpl. intros z Hz. lia.
      * constructor; [lia|].
        eapply Forall_impl; [exact Hpost|]. simpl. intros z Hz. lia.
Qed.


End SuggestFacts.

(** ** The links of batch mode *)

Lemma lstrip_by_suffix (p : N -> bool) (s : str) :
  exists a, s = a ++ lstrip_by p s.
Proof.
  induction s as [|x s [a IH]]; simpl; [exists []; reflexivity|].
  destruct (p x).
  - exists (x :: a). simpl. rewrite <- IH. reflexivity.
  - exists []. reflexivity.
Qed.

Lemma rstrip_by_prefix (p : N -> bool) (s : str) :
  exists b, s = rstrip_by p s ++ b.
Proof.
  unfold rstrip_by. destruct (lstrip_by_suffix p (reverse s)) as [a Ha].
  exists (reverse a). rewrite <- reverse_app, <- Ha, reverse_involutive.
  reflexivity.
Qed.

Lemma strip_by_infix (p : N -> bool) (s : str) :
  exists a b, s = a ++ strip_by p s ++ b.
Proof.
  unfold strip_by. destruct (lstrip_by_suffix p s) as [a Ha].
  destruct (rstrip_by_prefix p (lstrip_by p s)) as [b Hb].
  exists a, b. rewrite <- Hb. exact Ha.
Qed.

Lemma translate_newlines_no_cr (s : str) :
  ~ In 13 (Batch.translate_newlines s).
Proof.
  assert (forall n s, (length s <= n)%nat ->
            ~ In 13 (Batch.translate_newlines s)) as H.
  { clear s. induction n as [|n IH]; intros s Hn.
    - destruct s; [intros [] | simpl in Hn; lia].
    - destruct s as [|c s]; [intros []|]. simpl in Hn.
      destruct (N.eq_dec c 13) as [->|Hc].
      + destruct s as [|c' s'].
        * simpl. intros [H|[]]. discriminate H.
        * destruct (N.eq_dec c' 10) as [->|Hc'].
          -- simpl. intros [H|H]; [discriminate H|].
             apply (IH s'); [simpl in Hn; lia | exact H].
          -- assert (Batch.translate_newlines (13 :: c' :: s')
                     = 10 :: Batch.translate_newlines (c' :: s')) as ->.
             { simpl. destruct c' as [|q]; [reflexivity|].
               repeat (destruct q as [q|q|]; try reflexivity).
               all: congruence. }
             intros [H|H]; [discriminate H|].
             apply (IH (c' :: s')); [lia | exact H].
      + assert (Batch.translate_newlines (c :: s)
                = c :: Batch.translate_newlines s) as ->.
        { simpl. destruct c as [|q]; [reflexivity|].
          repeat (destruct q as [q|q|]; try reflexivity).
          all: congruence. }
        intros [H|H]; [congruence|]. apply (IH s); [lia | exact H]. }
  apply (H (length s)). lia.
Qed.

Lemma lines_of_shape (s line : str) :
  In line (Batch.lines_of s) ->
  exists body, (line = body ++ [10] \/ line = body) /\ ~ In 10 body.
Proof.
  revert line. induction s as [|c s IH]; intros line; simpl; [intros []|].
  destruct (N.eqb_spec c 10) as [->|Hc].
  - intros [<-|H]; [|apply IH, H].
    exists []. split; [left; reflexivity | intros []].
  - destruct (Batch.lines_of s) as [|l ls] eqn:E.
    + intros [<-|[]]. exists [c]. split; [right; reflexivity|].
      intros [H|[]]. congruence.
    + intros [<-|H]; [|apply IH; right; exact H].
      destruct (IH l ltac:(left; reflexivity)) as (body & Hl & Hb).
      exists (c :: body). split.
      * destruct Hl as [-> | ->]; [left | right]; reflexivity.
      * intros [H|H]; [congruence | exact (Hb H)].
Qed.

Lemma only_at_end (c : N) (x y body : str) :
  ~ In c body -> x ++ c :: y = body ++ [c] -> y = [].
Proof.
  revert body. induction x as [|x0 x IH]; intros body Hb; simpl.
  - destruct body as [|b0 body]; simpl.
    + intros [= ->]. reflexivity.
    + intros [= <- _]. exfalso. apply Hb. left. reflexivity.
  - destruct body as [|b0 body]; simpl.
    + intros [= _ H]. destruct x; discriminate H.
    + intros [= _ H]. apply (IH body); [|exact H].
      intros Hin. apply Hb. right. exact Hin.
Qed.

Lemma strip_line_no_lf (line body : str) :
  (line = body ++ [10] \/ line = body) -> ~ In 10 body ->
  ~ In 10 (strip line).
Proof.
  intros Hl Hb Hin. destruct (strip_by_infix isspace line) as (a & b & Hs).
  fold (strip line) in Hs.
  apply in_split in Hin as (u1 & u2 & Hu).
  destruct Hl as [-> | ->].
  - rewrite Hu in Hs. rewrite <- !app_assoc in Hs. simpl in Hs.
    rewrite app_assoc in Hs. symmetry in Hs.
    apply only_at_end in Hs; [|exact Hb].
    apply app_eq_nil in Hs as [-> _].
    pose proof (strip_by_last isspace (body ++ [10]) 10) as Hlast.
    fold (strip (body ++ [10])) in Hlast. rewrite Hu in Hlast.
    rewrite last_snoc in Hlast. specialize (Hlast eq_refl).
    discriminate Hlast.
  - apply Hb. rewrite Hs. apply in_or_app. right. apply in_or_app. left.
    rewrite Hu. apply in_or_app. right. left. reflexivity.
Qed.

(** X15.  Every link batch mode hands to the downloader is not empty, has
    no white space at either end and holds no line break. *)
Theorem batch_links_tidy (file_text : str) (links : list str) :
  Batch.batch file_text = Batch.DownloadAll links ->
  links <> [] /\ Forall tidy_link links.
Proof.
  unfold Batch.batch. cbv zeta.
  set (lines := Batch.lines_of (Batch.translate_newlines file_text)).
  destruct (Batch.links_of lines) as [|l0 ls] eqn:E; [intros [=]|].
  intros [= <-]. split; [discriminate|]. rewrite <- E.
  rewrite links_of_filter. apply Forall_forall. intros url Hin.
  apply list_elem_of_In in Hin.
  apply in_map_iff in Hin as (line & <- & Hin).
  apply filter_In in Hin as [Hin Hkept].
  unfold kept in Hkept. apply andb_true_iff in Hkept as [Hne _].
  unfold tidy_link. split_and!.
  - destruct (strip line); [discriminate Hne | discriminate].
  - apply strip_by_id; [apply strip_by_head | apply strip_by_last].
  - destruct (lines_of_shape _ _ Hin) as (body & Hl & Hb).
    exact (strip_line_no_lf line body Hl Hb).
  - intros H13.
    assert (Forall (fun c => c <> 13) line) as Hline.
    { apply Forall_forall. intros c Hc ->.
      apply (translate_newlines_no_cr file_text).
      rewrite <- (lines_of_concat (Batch.translate_newlines file_text)).
      apply in_concat. exists line. split; [exact Hin|].
      apply list_elem_of_In. exact Hc. }
    apply (strip_by_Forall isspace _ line) in Hline.
    rewrite Forall_forall in Hline.
    apply (Hline 13); [|reflexivity]. apply list_elem_of_In. exact H13.
Qed.

Lemma batch_links_tidy_witness :
  Forall tidy_link [lit "https://a.example/v"; lit "# note"].
Proof.
  apply (batch_links_tidy
           (lit "https://a.example/v " ++ [13; 10] ++ lit "#skip" ++ [10; 10]
            ++ lit "  # note")).
  vm_compute. reflexivity.
Defined.

(** ** The cookie files of the legacy script *)

Lemma split_chars (sep c : N) (s part : str) :
  In part (split sep s) -> In c part -> In c s.
Proof.
  revert part. induction s as [|x s IH]; intros part; simpl.
  - intros [<-|[]] [].
  - destruct (N.eqb x sep).
    + intros [<-|H]; [intros [] | intros Hc; right; exact (IH _ H Hc)].
    + destruct (split sep s) as [|w ws] eqn:E.
      * intros [<-|[]] [<-|[]]. left. reflexivity.
      * intros [<-|H].
        -- intros [<-|Hc]; [left; reflexivity|].
           right. apply (IH w); [left; reflexivity | exact Hc].
        -- intros Hc. right. apply (IH part); [right; exact H | exact Hc].
Qed.

Lemma cookie_lines_none (domain : str) (parts : list str) :
  Forall (fun part => ~ In 61 part) parts ->
  Legacy.cookie_lines_of domain parts = [].
Proof.
  induction 1 as [|part parts Hp Hparts IH]; cbn [Legacy.cookie_lines_of];
    [reflexivity|].
  destruct (split_once 61 (strip part)) as [[a b]|] eqn:E; [|exact IH].
  exfalso.
  assert (contains 61 (strip part) = true) as Hc
    by (apply split_once_contains; eauto).
  apply Hp. unfold contains, char_in in Hc.
  apply existsb_exists in Hc as (c & Hin & Hc). apply N.eqb_eq in Hc.
  subst c.
  assert (Forall (fun c => In c part) (strip part)) as Hsub.
  { apply strip_by_Forall. apply Forall_forall. intros c Hc.
    apply list_elem_of_In. exact Hc. }
  rewrite Forall_forall in Hsub. apply Hsub, list_elem_of_In, Hin.
Qed.

Lemma legacy_try_skips (fs : FS.t) (domain p text : str) :
  FS.read_text fs p = Ok text -> ~ In 61 text ->
  Legacy.try_cookie_file fs domain p = DownloaderCore.Skip.
Proof.
  intros Hr Hno. unfold Legacy.try_cookie_file. rewrite Hr.
  rewrite cookie_lines_none; [reflexivity|].
  apply Forall_forall. intros part Hpart Hin. apply list_elem_of_In in Hpart.
  apply Hno.
  assert (Forall (fun c => In c text) (strip text)) as Hsub.
  { apply strip_by_Forall. apply Forall_forall. intros c Hc.
    apply list_elem_of_In. exact Hc. }
  rewrite Forall_forall in Hsub. apply Hsub, list_elem_of_In.
  exact (split_chars 59 61 _ _ Hpart Hin).
Qed.

Lemma legacy_try_found_path (fs fs' : FS.t) (domain ck p : str) :
  Legacy.try_cookie_file fs domain ck = DownloaderCore.Found fs' p -> p = ck.
Proof.
  unfold Legacy.try_cookie_file.
  destruct (FS.read_text fs ck) as [text|e];
    [|destruct (is_Exception e); intros [=]].
  destruct (Legacy.cookie_lines_of _ _); [intros [=]|].
  destruct (FS.write_text _ _ _) as [fs1|e];
    [|destruct (is_Exception e); intros [=]].
  intros [= _ <-]. reflexivity.
Qed.

(** X28.  The legacy [prepare_cookies_netscape] of [VDDT.py] never returns
    a cookie file whose text holds no equals sign.  A file in Netscape
    format, its fields separated by tabs, is such a file unless a value
    holds the sign: the file this function has converted is not found
    again by the next call. *)
Theorem legacy_prepare_rejects (netloc_of : str -> option str) (fs : FS.t)
    (target_url p text : str) :
  FS.read_text fs p = Ok text ->
  ~ In 61 text ->
  snd (Legacy.prepare_cookies_netscape netloc_of fs target_url)
  <> Ok (Some p).
Proof.
  intros Hr Hno. unfold Legacy.prepare_cookies_netscape.
  destruct (negb _); [intros [=]|].
  destruct (Legacy.domain_of netloc_of target_url) as [domain|];
    [|intros [=]].
  generalize (DownloaderCore.possible_files domain).
  intros files. induction files as [|f files IH];
    cbn [Legacy.try_candidates]; [intros [=]|].
  destruct (FS.exists_ fs _); [|exact IH].
  destruct (Legacy.try_cookie_file fs domain _) as [fs1 q| |e] eqn:Et;
    cbn [snd]; [|exact IH | intros [=]].
  intros [= ->]. pose proof (legacy_try_found_path _ _ _ _ _ Et) as Hp.
  subst p. rewrite (legacy_try_skips fs domain _ text Hr Hno) in Et.
  discriminate Et.
Qed.

Lemma legacy_prepare_rejects_witness :
  let first :=
    Legacy.prepare_cookies_netscape example_netloc one_cookie_file
      (lit "https://example.com/v") in
  snd first = Ok (Some (lit "/app/cookies/example.com.ck"))
  /\ Legacy.prepare_cookies_netscape example_netloc (fst first)
       (lit "https://example.com/v") = (fst first, Ok None)
  /\ snd (Legacy.prepare_cookies_netscape example_netloc (fst first)
            (lit "https://example.com/v"))
     <> Ok (Some (lit "/app/cookies/example.com.ck")).
Proof.
  intros first. split; [vm_compute; reflexivity|].
  split; [vm_compute; reflexivity|].
  apply (legacy_prepare_rejects example_netloc (fst first)
           (lit "https://example.com/v") (lit "/app/cookies/example.com.ck")
           (lit "# Netscape HTTP Cookie File" ++ [10]
            ++ Legacy.cookie_line (lit "example.com") (lit "sid") (lit "1")
            ++ [10]
            ++ Legacy.cookie_line (lit "example.com") (lit "lang ")
                 (lit " zh"))).
  - vm_compute. reflexivity.
  - vm_compute. intros H.
    repeat (destruct H as [H|H]; [discriminate H|]). exact H.
Defined.

(** ** Interrupts *)

Section Interrupt.
Import Config DownloaderCore.

Variable engine_extract_info : dict -> str -> result (option dict).
Variable engine_download : dict -> list str -> result unit.
Variable from_ytdlp : dict -> result VideoInfo.
Variable parse_upload_date : value -> result str.
Variable display_formats : list FormatInfo -> result unit.

(** X29.  The two entry points treat a keyboard interrupt during the
    engine call differently: [get_format_lists] lets it through to its
    caller, [download] reports it and returns [False]. *)
Theorem interrupt_handling_differs (self : core)
    (url format_id output_dir outtmpl : str)
    (ydl_opts info_dict : option dict) (e : exc) :
  exc_cls e = KeyboardInterrupt ->
  (engine_extract_info (merged_opts self ydl_opts) url = Raise e ->
   snd (get_format_lists engine_extract_info from_ytdlp display_formats
          self url ydl_opts) = Raise e)
  /\ (outtmpl_for parse_upload_date output_dir info_dict = Ok outtmpl ->
      engine_download (download_opts self format_id outtmpl ydl_opts) [url]
        = Raise e ->
      snd (download_ engine_download parse_upload_date self url format_id
             output_dir ydl_opts info_dict) = Ok false).
Proof.
  intros Hcls. split.
  - intros He. unfold get_format_lists. rewrite He.
    destruct e as [cls msg]. cbn [exc_cls] in *. subst cls. reflexivity.
  - intros Ho He. unfold download_. rewrite Ho, He.
    destruct e as [cls msg]. cbn [exc_cls] in *. subst cls. reflexivity.
Qed.

End Interrupt.

Lemma interrupt_handling_differs_witness :
  let interrupted := Exc KeyboardInterrupt [] in
  snd (DownloaderCore.get_format_lists (fun _ _ => Raise interrupted)
         (fun _ => Raise unreachable) (fun _ => Ok tt) default_core
         (lit "https://example.com/v") None)
  = Raise interrupted
  /\ snd (DownloaderCore.download_ (fun _ _ => Raise interrupted)
            (fun _ => Ok (lit "2025-01-15")) default_core
            (lit "https://example.com/v") (lit "best") (lit "out") None None)
     = Ok false.
Proof.
  intros interrupted.
  destruct (interrupt_handling_differs
              (fun _ _ => Raise interrupted) (fun _ _ => Raise interrupted)
              (fun _ => Raise unreachable) (fun _ => Ok (lit "2025-01-15"))
              (fun _ => Ok tt) default_core
              (lit "https://example.com/v") (lit "best") (lit "out")
              (lit "out/%(title)s.%(ext)s") None None interrupted eq_refl)
    as [H1 H2].
  split; [apply H1; reflexivity | apply H2; reflexivity].
Defined.
